(** * Darcy flux module of eWoms: gradients, upwinding and volumetric fluxes

    A shallow embedding of [Ewoms::DarcyExtensiveQuantities]
    (the Darcy flux module) and of
    [Ewoms::FvBasePrimaryVariables::makeEvaluation].

    Scalars are IEEE-754 binary64 numbers ([Scalar = double] in the
    source), modelled by Rocq's primitive floats.  The collaborators the
    module only calls (stencil, problem, gradient calculator, material
    law, fluid system) are fields of the element context. *)

From Stdlib Require Import ZArith List String Ascii Bool Lia Floats.
From stdpp Require Import base list.

Open Scope Z_scope.

(** ** Scalars, vectors and matrices *)

Definition Scalar := float.

(** [Dune::FieldVector<Scalar, dimWorld>] *)
Definition DimVector := list Scalar.

(** [Dune::FieldMatrix<Scalar, dimWorld, dimWorld>], stored by rows *)
Definition DimMatrix := list (list Scalar).

Module Dune.

(** [FieldVector v(0)], [v = 0]: every component becomes [0.0]. *)
Definition zeros (n : nat) : DimVector := replicate n 0%float.

(** [a -= b] *)
Definition sub (a b : DimVector) : DimVector :=
  zip_with PrimFloat.sub a b.

(** [a += b] *)
Definition add (a b : DimVector) : DimVector :=
  zip_with PrimFloat.add a b.

(** [a *= k] *)
Definition scale (a : DimVector) (k : Scalar) : DimVector :=
  map (fun x => (x * k)%float) a.

(** [a * b], the scalar product: [result = 0; result += a[i]*b[i]]. *)
Definition dot (a b : DimVector) : Scalar :=
  fold_left (fun result xy => (result + fst xy * snd xy)%float)
            (zip a b) 0%float.

(** [a.two_norm2()]: [result = 0; result += a[i]*a[i]]. *)
Definition two_norm2 (a : DimVector) : Scalar :=
  fold_left (fun result x => (result + x * x)%float) a 0%float.

(** [a.two_norm()] *)
Definition two_norm (a : DimVector) : Scalar :=
  PrimFloat.sqrt (two_norm2 a).

(** [K.mv(x, y)]: [y[i] = 0; y[i] += K[i][j]*x[j]]. *)
Definition mv (K : DimMatrix) (x : DimVector) : DimVector :=
  map (fun row => dot row x) K.

End Dune.

(** [std::isfinite] *)
Definition isfinite (x : Scalar) : bool := PrimFloat.is_finite x.

(** Conversion of an integer to the C++ type [short] (16 bits, two's
    complement). *)
Definition to_short (z : Z) : Z := (z + 32768) mod 65536 - 32768.

(** ** Exceptions *)

Inductive Exception : Type :=
| Opm_NumericalProblem (msg : string).

Inductive result (A : Type) : Type :=
| Ok (a : A)
| Throw (e : Exception).

Arguments Ok {A} a.
Arguments Throw {A} e.

#[global] Instance result_ret : MRet result := fun _ a => Ok a.

#[global] Instance result_bind : MBind result := fun _ _ k m =>
  match m with
  | Ok a => k a
  | Throw e => Throw e
  end.

(** [for (int i = ...; ...; ++i) body], over the given indices; an
    exception leaves the loop. *)
Fixpoint for_each {St : Type} (body : nat -> St -> result St)
    (idxs : list nat) (s : St) : result St :=
  match idxs with
  | [] => Ok s
  | i :: rest =>
      match body i s with
      | Ok s' => for_each body rest s'
      | Throw e => Throw e
      end
  end.

(** ** The collaborators *)

Record FluidState : Type := {
  pressure : nat -> Scalar;
  density : nat -> Scalar
}.

Record IntensiveQuantities : Type := {
  fluidState : FluidState;
  mobility : nat -> Scalar;
  intrinsicPermeability : DimMatrix
}.

Record SubControlVolumeFace : Type := {
  normal : DimVector;
  interiorIndex : Z;
  exteriorIndex : Z;
  integrationPos : DimVector
}.

Record Stencil : Type := {
  interiorFace : nat -> SubControlVolumeFace;
  boundaryFace : nat -> SubControlVolumeFace
}.

(** Modelled from the spec: the pressure callbacks of
    [ewoms/models/common/quantitycallbacks.hh] are not part of the
    sources at hand; the spec calls them a phase-indexed pressure
    accessor.  The callback carries the phase index set by
    [setPhaseIndex]; the boundary variant also carries the prescribed
    fluid state. *)
Record PressureCallback : Type := {
  pc_phaseIdx : nat
}.

Record BoundaryPressureCallback : Type := {
  bpc_fluidState : FluidState;
  bpc_phaseIdx : nat
}.

Section Model.

Context {MaterialLawParams ParameterCache : Type}.

(** What [DarcyExtensiveQuantities] reads through [elemCtx], the
    property system and the static [MaterialLaw] / [FluidSystem]
    classes. *)
Record ElementContext : Type := {
  numPhases : nat;
  dimWorld : nat;
  EnableGravity : bool;
  phaseIsConsidered : nat -> bool;
  stencil : nat -> Stencil;
  gravity : Z -> nat -> DimVector;
  intensiveQuantities : Z -> nat -> IntensiveQuantities;
  pos : Z -> nat -> DimVector;
  intersectionIntrinsicPermeability : nat -> nat -> DimMatrix;
  materialLawParams : Z -> nat -> MaterialLawParams;
  calculateGradient : nat -> PressureCallback -> DimVector;
  calculateBoundaryGradient : nat -> BoundaryPressureCallback -> DimVector;
  relativePermeabilities : MaterialLawParams -> FluidState -> list Scalar;
  viscosity : FluidState -> ParameterCache -> nat -> Scalar;
  phaseName : nat -> string
}.

End Model.

Arguments ElementContext : clear implicits.

(** ** The face-local record *)

Record DarcyExtensiveQuantities : Type := {
  K_ : DimMatrix;
  interiorDofIdx_ : Z;
  exteriorDofIdx_ : Z;
  upstreamDofIdx_ : list Z;
  downstreamDofIdx_ : list Z;
  mobility_ : list Scalar;
  filterVelocity_ : list DimVector;
  volumeFlux_ : list Scalar;
  potentialGrad_ : list DimVector
}.

Definition set_K_ (v : DimMatrix) (q : DarcyExtensiveQuantities) :=
  {| K_ := v;
     interiorDofIdx_ := interiorDofIdx_ q;
     exteriorDofIdx_ := exteriorDofIdx_ q;
     upstreamDofIdx_ := upstreamDofIdx_ q;
     downstreamDofIdx_ := downstreamDofIdx_ q;
     mobility_ := mobility_ q;
     filterVelocity_ := filterVelocity_ q;
     volumeFlux_ := volumeFlux_ q;
     potentialGrad_ := potentialGrad_ q |}.

Definition set_dofIdx_ (i e : Z) (q : DarcyExtensiveQuantities) :=
  {| K_ := K_ q;
     interiorDofIdx_ := i;
     exteriorDofIdx_ := e;
     upstreamDofIdx_ := upstreamDofIdx_ q;
     downstreamDofIdx_ := downstreamDofIdx_ q;
     mobility_ := mobility_ q;
     filterVelocity_ := filterVelocity_ q;
     volumeFlux_ := volumeFlux_ q;
     potentialGrad_ := potentialGrad_ q |}.

(** [upstreamDofIdx_[p] = v] *)
Definition set_upstreamDofIdx_ (p : nat) (v : Z)
    (q : DarcyExtensiveQuantities) :=
  {| K_ := K_ q;
     interiorDofIdx_ := interiorDofIdx_ q;
     exteriorDofIdx_ := exteriorDofIdx_ q;
     upstreamDofIdx_ := <[p := v]> (upstreamDofIdx_ q);
     downstreamDofIdx_ := downstreamDofIdx_ q;
     mobility_ := mobility_ q;
     filterVelocity_ := filterVelocity_ q;
     volumeFlux_ := volumeFlux_ q;
     potentialGrad_ := potentialGrad_ q |}.

(** [downstreamDofIdx_[p] = v] *)
Definition set_downstreamDofIdx_ (p : nat) (v : Z)
    (q : DarcyExtensiveQuantities) :=
  {| K_ := K_ q;
     interiorDofIdx_ := interiorDofIdx_ q;
     exteriorDofIdx_ := exteriorDofIdx_ q;
     upstreamDofIdx_ := upstreamDofIdx_ q;
     downstreamDofIdx_ := <[p := v]> (downstreamDofIdx_ q);
     mobility_ := mobility_ q;
     filterVelocity_ := filterVelocity_ q;
     volumeFlux_ := volumeFlux_ q;
     potentialGrad_ := potentialGrad_ q |}.

(** [mobility_[p] = v] *)
Definition set_mobility_ (p : nat) (v : Scalar)
    (q : DarcyExtensiveQuantities) :=
  {| K_ := K_ q;
     interiorDofIdx_ := interiorDofIdx_ q;
     exteriorDofIdx_ := exteriorDofIdx_ q;
     upstreamDofIdx_ := upstreamDofIdx_ q;
     downstreamDofIdx_ := downstreamDofIdx_ q;
     mobility_ := <[p := v]> (mobility_ q);
     filterVelocity_ := filterVelocity_ q;
     volumeFlux_ := volumeFlux_ q;
     potentialGrad_ := potentialGrad_ q |}.

(** [filterVelocity_[p] = v] *)
Definition set_filterVelocity_ (p : nat) (v : DimVector)
    (q : DarcyExtensiveQuantities) :=
  {| K_ := K_ q;
     interiorDofIdx_ := interiorDofIdx_ q;
     exteriorDofIdx_ := exteriorDofIdx_ q;
     upstreamDofIdx_ := upstreamDofIdx_ q;
     downstreamDofIdx_ := downstreamDofIdx_ q;
     mobility_ := mobility_ q;
     filterVelocity_ := <[p := v]> (filterVelocity_ q);
     volumeFlux_ := volumeFlux_ q;
     potentialGrad_ := potentialGrad_ q |}.

(** [volumeFlux_[p] = v] *)
Definition set_volumeFlux_ (p : nat) (v : Scalar)
    (q : DarcyExtensiveQuantities) :=
  {| K_ := K_ q;
     interiorDofIdx_ := interiorDofIdx_ q;
     exteriorDofIdx_ := exteriorDofIdx_ q;
     upstreamDofIdx_ := upstreamDofIdx_ q;
     downstreamDofIdx_ := downstreamDofIdx_ q;
     mobility_ := mobility_ q;
     filterVelocity_ := filterVelocity_ q;
     volumeFlux_ := <[p := v]> (volumeFlux_ q);
     potentialGrad_ := potentialGrad_ q |}.

(** [potentialGrad_[p] = v] *)
Definition set_potentialGrad_ (p : nat) (v : DimVector)
    (q : DarcyExtensiveQuantities) :=
  {| K_ := K_ q;
     interiorDofIdx_ := interiorDofIdx_ q;
     exteriorDofIdx_ := exteriorDofIdx_ q;
     upstreamDofIdx_ := upstreamDofIdx_ q;
     downstreamDofIdx_ := downstreamDofIdx_ q;
     mobility_ := mobility_ q;
     filterVelocity_ := filterVelocity_ q;
     volumeFlux_ := volumeFlux_ q;
     potentialGrad_ := <[p := v]> (potentialGrad_ q) |}.

(** [Valgrind::SetUndefined] marks memory for the memory checker and
    leaves the stored value as it is. *)
Definition Valgrind_SetUndefined {A : Type} (x : A) : A := x.

(** The arrays of the record have [numPhases] entries each. *)
Definition sized (n : nat) (q : DarcyExtensiveQuantities) : Prop :=
  length (upstreamDofIdx_ q) = n /\
  length (downstreamDofIdx_ q) = n /\
  length (mobility_ q) = n /\
  length (filterVelocity_ q) = n /\
  length (volumeFlux_ q) = n /\
  length (potentialGrad_ q) = n.

#[global] Instance Scalar_inhabited : Inhabited Scalar := populate 0%float.

(** ** The operations of [DarcyExtensiveQuantities] *)

Section Operations.

Context {MaterialLawParams ParameterCache : Type}.

#[local] Abbreviation ElemCtx := (ElementContext MaterialLawParams ParameterCache).

(** [calculateFilterVelocity_(phaseIdx)] *)
Definition calculateFilterVelocity_ (phaseIdx : nat)
    (q : DarcyExtensiveQuantities) : DarcyExtensiveQuantities :=
  (* K_.mv(potentialGrad_[phaseIdx], filterVelocity_[phaseIdx]); *)
  let q :=
    set_filterVelocity_ phaseIdx
      (Dune.mv (K_ q) (potentialGrad_ q !!! phaseIdx)) q in
  (* filterVelocity_[phaseIdx] *= - mobility_[phaseIdx]; *)
  set_filterVelocity_ phaseIdx
    (Dune.scale (filterVelocity_ q !!! phaseIdx)
                (- (mobility_ q !!! phaseIdx))%float) q.

(** The body of the phase loop shared by [calculateFluxes_] and
    [calculateBoundaryFluxes_]. *)
Definition fluxBody (elemCtx : ElemCtx) (normal : DimVector)
    (phaseIdx : nat) (q : DarcyExtensiveQuantities)
    : result DarcyExtensiveQuantities :=
  if negb (phaseIsConsidered elemCtx phaseIdx) then
    let q := set_filterVelocity_ phaseIdx (Dune.zeros (dimWorld elemCtx)) q in
    let q := set_volumeFlux_ phaseIdx 0%float q in
    Ok q
  else
    let q := calculateFilterVelocity_ phaseIdx q in
    Ok (set_volumeFlux_ phaseIdx
          (Dune.dot (filterVelocity_ q !!! phaseIdx) normal) q).

(** [calculateFluxes_(elemCtx, scvfIdx, timeIdx)] *)
Definition calculateFluxes_ (elemCtx : ElemCtx) (scvfIdx timeIdx : nat)
    (q : DarcyExtensiveQuantities) : result DarcyExtensiveQuantities :=
  let scvf := interiorFace (stencil elemCtx timeIdx) scvfIdx in
  let normal := normal scvf in
  for_each (fluxBody elemCtx normal) (seq 0 (numPhases elemCtx)) q.

(** [calculateBoundaryFluxes_(elemCtx, boundaryFaceIdx, timeIdx)] *)
Definition calculateBoundaryFluxes_ (elemCtx : ElemCtx)
    (boundaryFaceIdx timeIdx : nat)
    (q : DarcyExtensiveQuantities) : result DarcyExtensiveQuantities :=
  let scvf := boundaryFace (stencil elemCtx timeIdx) boundaryFaceIdx in
  let normal := normal scvf in
  for_each (fluxBody elemCtx normal) (seq 0 (numPhases elemCtx)) q.

(** The message of the exception thrown for a phase. *)
Definition nonFiniteMessage (elemCtx : ElemCtx) (phaseIdx : nat) : string :=
  ("Non finite potential gradient for phase '"
     ++ phaseName elemCtx phaseIdx ++ "'")%string.

(** [tmp = 0; for (i < faceNormal.size()) tmp += grad[i]*faceNormal[i]] *)
Definition upwindProjection (grad faceNormal : DimVector) : Scalar :=
  fold_left (fun tmp i => (tmp + (grad !!! i) * (faceNormal !!! i))%float)
            (seq 0 (length faceNormal)) 0%float.

(** First phase loop of [calculateGradients_]: the raw pressure
    gradient. *)
Definition rawGradientBody (elemCtx : ElemCtx) (faceIdx : nat)
    (phaseIdx : nat) (q : DarcyExtensiveQuantities)
    : result DarcyExtensiveQuantities :=
  if negb (phaseIsConsidered elemCtx phaseIdx) then
    Ok (Valgrind_SetUndefined q)
  else
    let pressureCallback := {| pc_phaseIdx := phaseIdx |} in
    Ok (set_potentialGrad_ phaseIdx
          (calculateGradient elemCtx faceIdx pressureCallback) q).

(** The hydrostatic gradient between the two control volumes, as
    [calculateGradients_] computes it for one phase. *)
Definition hydrostaticGradient
    (gIn gEx : DimVector) (intQuantsIn intQuantsEx : IntensiveQuantities)
    (distVecIn distVecEx distVecTotal : DimVector)
    (absDistTotalSquared : Scalar) (phaseIdx : nat) : DimVector :=
  let rhoIn := density (fluidState intQuantsIn) phaseIdx in
  let rhoEx := density (fluidState intQuantsEx) phaseIdx in
  let pStatIn := ((- rhoIn) * (Dune.dot gIn distVecIn))%float in
  let pStatEx := ((- rhoEx) * (Dune.dot gEx distVecEx))%float in
  Dune.scale distVecTotal ((pStatEx - pStatIn) / absDistTotalSquared)%float.

(** The phase loop of the gravity branch; the finiteness test is its
    last statement. *)
Definition gravityBody (elemCtx : ElemCtx) (f : nat -> DimVector)
    (phaseIdx : nat) (q : DarcyExtensiveQuantities)
    : result DarcyExtensiveQuantities :=
  if negb (phaseIsConsidered elemCtx phaseIdx) then
    Ok q
  else
    let q :=
      set_potentialGrad_ phaseIdx
        (Dune.add (potentialGrad_ q !!! phaseIdx) (f phaseIdx)) q in
    if negb (isfinite (Dune.two_norm (potentialGrad_ q !!! phaseIdx))) then
      Throw (Opm_NumericalProblem (nonFiniteMessage elemCtx phaseIdx))
    else
      Ok q.

(** The correction vector [f] of the interior gravity branch. *)
Definition interiorCorrection (elemCtx : ElemCtx)
    (scvf : SubControlVolumeFace) (timeIdx : nat)
    (interiorDofIdx exteriorDofIdx : Z) (phaseIdx : nat) : DimVector :=
  let gIn := gravity elemCtx interiorDofIdx timeIdx in
  let gEx := gravity elemCtx exteriorDofIdx timeIdx in
  let intQuantsIn := intensiveQuantities elemCtx interiorDofIdx timeIdx in
  let intQuantsEx := intensiveQuantities elemCtx exteriorDofIdx timeIdx in
  let posIn := pos elemCtx interiorDofIdx timeIdx in
  let posEx := pos elemCtx exteriorDofIdx timeIdx in
  let posFace := integrationPos scvf in
  let distVecIn := Dune.sub posIn posFace in
  let distVecEx := Dune.sub posEx posFace in
  let distVecTotal := Dune.sub posEx posIn in
  let absDistTotalSquared := Dune.two_norm2 distVecTotal in
  hydrostaticGradient gIn gEx intQuantsIn intQuantsEx
    distVecIn distVecEx distVecTotal absDistTotalSquared phaseIdx.

(** Last phase loop of [calculateGradients_]: upstream and downstream
    degrees of freedom, and the upstream mobility. *)
Definition upwindBody (elemCtx : ElemCtx) (faceNormal : DimVector)
    (timeIdx : nat) (phaseIdx : nat) (q : DarcyExtensiveQuantities)
    : result DarcyExtensiveQuantities :=
  if negb (phaseIsConsidered elemCtx phaseIdx) then
    Ok (Valgrind_SetUndefined q)
  else
    let tmp := upwindProjection (potentialGrad_ q !!! phaseIdx) faceNormal in
    let q :=
      if (0 <? tmp)%float then
        set_downstreamDofIdx_ phaseIdx (interiorDofIdx_ q)
          (set_upstreamDofIdx_ phaseIdx (exteriorDofIdx_ q) q)
      else
        set_downstreamDofIdx_ phaseIdx (exteriorDofIdx_ q)
          (set_upstreamDofIdx_ phaseIdx (interiorDofIdx_ q) q) in
    let up :=
      intensiveQuantities elemCtx (upstreamDofIdx_ q !!! phaseIdx) timeIdx in
    Ok (set_mobility_ phaseIdx (mobility up phaseIdx) q).

(** [calculateGradients_(elemCtx, faceIdx, timeIdx)] *)
Definition calculateGradients_ (elemCtx : ElemCtx) (faceIdx timeIdx : nat)
    (q : DarcyExtensiveQuantities) : result DarcyExtensiveQuantities :=
  let scvf := interiorFace (stencil elemCtx timeIdx) faceIdx in
  let faceNormal := normal scvf in
  let q :=
    set_dofIdx_ (to_short (interiorIndex scvf))
                (to_short (exteriorIndex scvf)) q in
  q ← for_each (rawGradientBody elemCtx faceIdx)
        (seq 0 (numPhases elemCtx)) q;
  q ← (if EnableGravity elemCtx then
         for_each
           (gravityBody elemCtx
              (interiorCorrection elemCtx scvf timeIdx
                 (interiorDofIdx_ q) (exteriorDofIdx_ q)))
           (seq 0 (numPhases elemCtx)) q
       else Ok q);
  let q :=
    set_K_ (intersectionIntrinsicPermeability elemCtx faceIdx timeIdx)
           (Valgrind_SetUndefined q) in
  for_each (upwindBody elemCtx faceNormal timeIdx)
    (seq 0 (numPhases elemCtx)) q.

(** First phase loop of [calculateBoundaryGradients_]. *)
Definition rawBoundaryGradientBody (elemCtx : ElemCtx)
    (boundaryFaceIdx : nat) (fs : FluidState)
    (phaseIdx : nat) (q : DarcyExtensiveQuantities)
    : result DarcyExtensiveQuantities :=
  if negb (phaseIsConsidered elemCtx phaseIdx) then
    Ok (Valgrind_SetUndefined q)
  else
    let pressureCallback :=
      {| bpc_fluidState := fs; bpc_phaseIdx := phaseIdx |} in
    Ok (set_potentialGrad_ phaseIdx
          (calculateBoundaryGradient elemCtx boundaryFaceIdx pressureCallback)
          q).

(** The correction vector [f] of the boundary gravity branch. *)
Definition boundaryCorrection (elemCtx : ElemCtx)
    (scvf : SubControlVolumeFace) (timeIdx : nat)
    (interiorDofIdx : Z) (phaseIdx : nat) : DimVector :=
  let intQuantsIn := intensiveQuantities elemCtx interiorDofIdx timeIdx in
  let gIn := gravity elemCtx interiorDofIdx timeIdx in
  let posIn := pos elemCtx interiorDofIdx timeIdx in
  let posFace := integrationPos scvf in
  let distVecIn := Dune.sub posIn posFace in
  let absDist := Dune.two_norm distVecIn in
  let rhoIn := density (fluidState intQuantsIn) phaseIdx in
  let pStatIn := ((- rhoIn) * (Dune.dot gIn distVecIn))%float in
  Dune.scale distVecIn ((0 - pStatIn) / absDist)%float.

(** Last phase loop of [calculateBoundaryGradients_]. *)
Definition boundaryUpwindBody (elemCtx : ElemCtx) (faceNormal : DimVector)
    (intQuantsIn : IntensiveQuantities) (kr : list Scalar)
    (fs : FluidState) (paramCache : ParameterCache)
    (phaseIdx : nat) (q : DarcyExtensiveQuantities)
    : result DarcyExtensiveQuantities :=
  if negb (phaseIsConsidered elemCtx phaseIdx) then
    Ok q
  else
    let tmp := upwindProjection (potentialGrad_ q !!! phaseIdx) faceNormal in
    let q :=
      if (0 <? tmp)%float then
        set_downstreamDofIdx_ phaseIdx (interiorDofIdx_ q)
          (set_upstreamDofIdx_ phaseIdx (exteriorDofIdx_ q) q)
      else
        set_downstreamDofIdx_ phaseIdx (exteriorDofIdx_ q)
          (set_upstreamDofIdx_ phaseIdx (interiorDofIdx_ q) q) in
    if (upstreamDofIdx_ q !!! phaseIdx <? 0)%Z then
      Ok (set_mobility_ phaseIdx
            ((kr !!! phaseIdx) / viscosity elemCtx fs paramCache phaseIdx)%float
            q)
    else
      Ok (set_mobility_ phaseIdx (mobility intQuantsIn phaseIdx) q).

(** [calculateBoundaryGradients_(elemCtx, boundaryFaceIdx, timeIdx,
    fluidState, paramCache)] *)
Definition calculateBoundaryGradients_ (elemCtx : ElemCtx)
    (boundaryFaceIdx timeIdx : nat) (fs : FluidState)
    (paramCache : ParameterCache)
    (q : DarcyExtensiveQuantities) : result DarcyExtensiveQuantities :=
  q ← for_each (rawBoundaryGradientBody elemCtx boundaryFaceIdx fs)
        (seq 0 (numPhases elemCtx)) q;
  let scvf := boundaryFace (stencil elemCtx timeIdx) boundaryFaceIdx in
  let q := set_dofIdx_ (to_short (interiorIndex scvf)) (-1) q in
  let intQuantsIn :=
    intensiveQuantities elemCtx (interiorDofIdx_ q) timeIdx in
  let q := set_K_ (intrinsicPermeability intQuantsIn) q in
  q ← (if EnableGravity elemCtx then
         for_each
           (gravityBody elemCtx
              (boundaryCorrection elemCtx scvf timeIdx (interiorDofIdx_ q)))
           (seq 0 (numPhases elemCtx)) q
       else Ok q);
  let faceNormal := normal scvf in
  let matParams := materialLawParams elemCtx (interiorDofIdx_ q) timeIdx in
  let kr := relativePermeabilities elemCtx matParams fs in
  for_each
    (boundaryUpwindBody elemCtx faceNormal intQuantsIn kr fs paramCache)
    (seq 0 (numPhases elemCtx)) q.

(** The potential gradient the interior variant computes for a
    considered phase: the gradient of the gradient calculator, plus the
    correction vector when gravity is enabled. *)
Definition interiorPotentialGrad (elemCtx : ElemCtx)
    (faceIdx timeIdx phaseIdx : nat) : DimVector :=
  let scvf := interiorFace (stencil elemCtx timeIdx) faceIdx in
  let raw := calculateGradient elemCtx faceIdx {| pc_phaseIdx := phaseIdx |} in
  if EnableGravity elemCtx then
    Dune.add raw
      (interiorCorrection elemCtx scvf timeIdx
         (to_short (interiorIndex scvf)) (to_short (exteriorIndex scvf))
         phaseIdx)
  else raw.

(** The same for the boundary variant. *)
Definition boundaryPotentialGrad (elemCtx : ElemCtx)
    (boundaryFaceIdx timeIdx : nat) (fs : FluidState) (phaseIdx : nat)
    : DimVector :=
  let scvf := boundaryFace (stencil elemCtx timeIdx) boundaryFaceIdx in
  let raw :=
    calculateBoundaryGradient elemCtx boundaryFaceIdx
      {| bpc_fluidState := fs; bpc_phaseIdx := phaseIdx |} in
  if EnableGravity elemCtx then
    Dune.add raw
      (boundaryCorrection elemCtx scvf timeIdx
         (to_short (interiorIndex scvf)) phaseIdx)
  else raw.

End Operations.

(** ** The hydrostatic correction as the specification words it *)

(** The gravitational acceleration at the face is the arithmetic mean
    of the values at the two control volumes; the hydrostatic pressure
    at each centre is [-rho * (g . d)]; the correction is the
    centre-to-centre vector scaled by the difference of the two
    pressures over the squared centre-to-centre distance. *)
Definition hydrostaticGradient_spec
    (gIn gEx : DimVector) (intQuantsIn intQuantsEx : IntensiveQuantities)
    (distVecIn distVecEx distVecTotal : DimVector)
    (absDistTotalSquared : Scalar) (phaseIdx : nat) : DimVector :=
  let g := map (fun x => (x / 2)%float) (Dune.add gIn gEx) in
  let rhoIn := density (fluidState intQuantsIn) phaseIdx in
  let rhoEx := density (fluidState intQuantsEx) phaseIdx in
  let pStatIn := ((- rhoIn) * (Dune.dot g distVecIn))%float in
  let pStatEx := ((- rhoEx) * (Dune.dot g distVecEx))%float in
  Dune.scale distVecTotal ((pStatEx - pStatIn) / absDistTotalSquared)%float.

(** The correction vector of an interior face as the specification
    words it: the hydrostatic gradient above, with [d] the displacement
    from the centre of the control volume to the integration point of
    the face, [posFace - posCentre]. *)
Definition interiorCorrection_spec {MaterialLawParams ParameterCache : Type}
    (elemCtx : ElementContext MaterialLawParams ParameterCache)
    (scvf : SubControlVolumeFace) (timeIdx : nat)
    (interiorDofIdx exteriorDofIdx : Z) (phaseIdx : nat) : DimVector :=
  let gIn := gravity elemCtx interiorDofIdx timeIdx in
  let gEx := gravity elemCtx exteriorDofIdx timeIdx in
  let intQuantsIn := intensiveQuantities elemCtx interiorDofIdx timeIdx in
  let intQuantsEx := intensiveQuantities elemCtx exteriorDofIdx timeIdx in
  let posIn := pos elemCtx interiorDofIdx timeIdx in
  let posEx := pos elemCtx exteriorDofIdx timeIdx in
  let posFace := integrationPos scvf in
  let distVecIn := Dune.sub posFace posIn in
  let distVecEx := Dune.sub posFace posEx in
  let distVecTotal := Dune.sub posEx posIn in
  let absDistTotalSquared := Dune.two_norm2 distVecTotal in
  hydrostaticGradient_spec gIn gEx intQuantsIn intQuantsEx
    distVecIn distVecEx distVecTotal absDistTotalSquared phaseIdx.

(** The same with the displacement the other way round, from the
    integration point of the face to the centre of the control volume,
    [posCentre - posFace], which is how the code measures it: the
    specification's hydrostatic gradient differs from the code's in the
    acceleration only. *)
Definition interiorCorrection_spec_reversed
    {MaterialLawParams ParameterCache : Type}
    (elemCtx : ElementContext MaterialLawParams ParameterCache)
    (scvf : SubControlVolumeFace) (timeIdx : nat)
    (interiorDofIdx exteriorDofIdx : Z) (phaseIdx : nat) : DimVector :=
  let gIn := gravity elemCtx interiorDofIdx timeIdx in
  let gEx := gravity elemCtx exteriorDofIdx timeIdx in
  let intQuantsIn := intensiveQuantities elemCtx interiorDofIdx timeIdx in
  let intQuantsEx := intensiveQuantities elemCtx exteriorDofIdx timeIdx in
  let posIn := pos elemCtx interiorDofIdx timeIdx in
  let posEx := pos elemCtx exteriorDofIdx timeIdx in
  let posFace := integrationPos scvf in
  let distVecIn := Dune.sub posIn posFace in
  let distVecEx := Dune.sub posEx posFace in
  let distVecTotal := Dune.sub posEx posIn in
  let absDistTotalSquared := Dune.two_norm2 distVecTotal in
  hydrostaticGradient_spec gIn gEx intQuantsIn intQuantsEx
    distVecIn distVecEx distVecTotal absDistTotalSquared phaseIdx.

(** ** [FvBasePrimaryVariables::makeEvaluation] *)

(** The files the process can read: the content of a path, if the file
    can be opened. *)
Definition FileSystem := string -> option string.

(** [getline]: the characters before the first newline. *)
Fixpoint firstLine (content : string) : string :=
  match content with
  | EmptyString => EmptyString
  | String c rest =>
      if Ascii.eqb c "010"%char then EmptyString
      else String c (firstLine rest)
  end.

(** [Opm::MathToolbox<Evaluation>], of which [makeEvaluation] uses the
    two constructors. *)
Record Toolbox (Evaluation : Type) : Type := {
  createVariable : Scalar -> nat -> Evaluation;
  createConstant : Scalar -> Evaluation
}.

Arguments createVariable {Evaluation} _ _ _.
Arguments createConstant {Evaluation} _ _.

(** [makeEvaluation(varIdx, timeIdx)], on the primary variables
    [self] and the file system the call reads. *)
Definition makeEvaluation {Evaluation : Type} (toolbox : Toolbox Evaluation)
    (files : FileSystem) (self : list Scalar) (varIdx timeIdx : nat)
    : Evaluation :=
  let wrtInitial := EmptyString in
  (* inputFile.open(...); getline(inputFile, wrtInitial); *)
  let wrtInitial :=
    match files "/home/joakimra/yesno.txt"%string with
    | Some content => firstLine content
    | None => wrtInitial
    end in
  let timeIdx :=
    if String.eqb wrtInitial "true" then
      (if Nat.eqb timeIdx 0 then 1%nat else 0%nat)
    else timeIdx in
  if Nat.eqb timeIdx 0 then
    createVariable toolbox (self !!! varIdx) varIdx
  else
    createConstant toolbox (self !!! varIdx).

(** What the documentation of [makeEvaluation] describes: the function
    [f = x_i] at time index zero, the constant [x_i] otherwise. *)
Definition makeEvaluation_documented {Evaluation : Type}
    (toolbox : Toolbox Evaluation)
    (self : list Scalar) (varIdx timeIdx : nat) : Evaluation :=
  if Nat.eqb timeIdx 0 then
    createVariable toolbox (self !!! varIdx) varIdx
  else
    createConstant toolbox (self !!! varIdx).

(** ** Concrete configurations *)

Module Examples.

(** A dense automatic-differentiation evaluation: a value and its
    derivatives with respect to the [numEq] primary variables. *)
Record DenseAd : Type := {
  value : Scalar;
  derivatives : list Scalar
}.

Definition denseAdToolbox (numEq : nat) : Toolbox DenseAd := {|
  createVariable := fun v varIdx =>
    {| value := v;
       derivatives := <[varIdx := 1%float]> (replicate numEq 0%float) |};
  createConstant := fun v =>
    {| value := v; derivatives := replicate numEq 0%float |}
|}.

Definition noFile : FileSystem := fun _ => None.

Definition yesFile : FileSystem := fun path =>
  if String.eqb path "/home/joakimra/yesno.txt" then Some "true"%string
  else None.

(** Water at the two degrees of freedom of a one-dimensional element:
    pressures [pIn] and [pEx], density 1000. *)
Definition stateAt (p0 : Scalar) : FluidState := {|
  pressure := fun _ => p0;
  density := fun _ => 1000%float
|}.

Definition face1D (xFace : Scalar) : SubControlVolumeFace := {|
  normal := [1%float];
  interiorIndex := 0;
  exteriorIndex := 1;
  integrationPos := [xFace]
|}.

Definition boundaryFace1D : SubControlVolumeFace := {|
  normal := [1%float];
  interiorIndex := 0;
  exteriorIndex := 0;
  integrationPos := [1%float]
|}.

(** An element of two cells on a line, centres at 0 and 1, the
    interior face at [xFace], phase 0 considered and phase 1 not.
    [grav] switches gravity on, [gIn] and [gEx] are the accelerations
    at the two centres, [pIn] and [pEx] the pressures.  The gradient
    calculator is the two-point one. *)
Definition lineAt (xFace : Scalar) (grav : bool) (gIn gEx pIn pEx : Scalar)
    : ElementContext unit unit := {|
  numPhases := 2;
  dimWorld := 1;
  EnableGravity := grav;
  phaseIsConsidered := fun p => Nat.eqb p 0;
  stencil := fun _ =>
    {| interiorFace := fun _ => face1D xFace;
       boundaryFace := fun _ => boundaryFace1D |};
  gravity := fun dof _ => if (dof =? 0)%Z then [gIn] else [gEx];
  intensiveQuantities := fun dof _ =>
    {| fluidState := stateAt (if (dof =? 0)%Z then pIn else pEx);
       mobility := fun _ => 2%float;
       intrinsicPermeability := [[3%float]] |};
  pos := fun dof _ => if (dof =? 0)%Z then [0%float] else [1%float];
  intersectionIntrinsicPermeability := fun _ _ => [[3%float]];
  materialLawParams := fun _ _ => tt;
  calculateGradient := fun _ cb => [((pEx - pIn) / 1)%float];
  calculateBoundaryGradient := fun _ cb =>
    let deltay :=
      (pressure (bpc_fluidState cb) (bpc_phaseIdx cb) - pIn)%float in
    Dune.scale [1%float] (deltay / 1)%float;
  relativePermeabilities := fun _ _ => [1%float; 1%float];
  viscosity := fun _ _ _ => 0.25%float;
  phaseName := fun p => if Nat.eqb p 0 then "water"%string else "oil"%string
|}.

(** The same with the face half-way between the centres. *)
Definition line := lineAt 0.5%float.

(** A record whose arrays have two entries and hold values no stage
    has written. *)
Definition fresh : DarcyExtensiveQuantities := {|
  K_ := [[7%float]];
  interiorDofIdx_ := 11;
  exteriorDofIdx_ := 12;
  upstreamDofIdx_ := [13; 14];
  downstreamDofIdx_ := [15; 16];
  mobility_ := [5%float; 5%float];
  filterVelocity_ := [[9%float]; [9%float]];
  volumeFlux_ := [9%float; 9%float];
  potentialGrad_ := [[4%float]; [4%float]]
|}.

End Examples.

(** ** [Dumux::VanGenuchtenParams] *)

Module VanGenuchten.

Record VanGenuchtenParams : Type := {
  vgAlpha_ : Scalar;
  vgM_ : Scalar;
  vgN_ : Scalar
}.

Definition vgAlpha (p : VanGenuchtenParams) : Scalar := vgAlpha_ p.
Definition vgM (p : VanGenuchtenParams) : Scalar := vgM_ p.
Definition vgN (p : VanGenuchtenParams) : Scalar := vgN_ p.

(** [setVgAlpha(v)] *)
Definition setVgAlpha (v : Scalar) (p : VanGenuchtenParams) :=
  {| vgAlpha_ := v; vgM_ := vgM_ p; vgN_ := vgN_ p |}.

(** [setVgM(m)]: [vgM_ = m; vgN_ = 1/(1 - vgM_);] *)
Definition setVgM (m : Scalar) (p : VanGenuchtenParams) :=
  let p := {| vgAlpha_ := vgAlpha_ p; vgM_ := m; vgN_ := vgN_ p |} in
  {| vgAlpha_ := vgAlpha_ p; vgM_ := vgM_ p;
     vgN_ := (1 / (1 - vgM_ p))%float |}.

(** [setVgN(n)]: [vgN_ = n; vgM_ = 1 - 1/vgN_;] *)
Definition setVgN (n : Scalar) (p : VanGenuchtenParams) :=
  let p := {| vgAlpha_ := vgAlpha_ p; vgM_ := vgM_ p; vgN_ := n |} in
  {| vgAlpha_ := vgAlpha_ p; vgM_ := (1 - 1 / vgN_ p)%float;
     vgN_ := vgN_ p |}.

(** [VanGenuchtenParams(vgAlpha, vgN)], on the storage [p0] the
    object is constructed in. *)
Definition construct (vgAlpha vgN : Scalar) (p0 : VanGenuchtenParams) :=
  setVgN vgN (setVgAlpha vgAlpha p0).

(** A call of one of the three setters, and a sequence of such calls
    on one object, first call first. *)
Inductive SetterCall : Type :=
| CallSetVgAlpha (v : Scalar)
| CallSetVgM (m : Scalar)
| CallSetVgN (n : Scalar).

Definition isShapeCall (c : SetterCall) : bool :=
  match c with
  | CallSetVgAlpha _ => false
  | CallSetVgM _ | CallSetVgN _ => true
  end.

Definition call (c : SetterCall) (p : VanGenuchtenParams)
    : VanGenuchtenParams :=
  match c with
  | CallSetVgAlpha v => setVgAlpha v p
  | CallSetVgM m => setVgM m p
  | CallSetVgN n => setVgN n p
  end.

Definition calls (cs : list SetterCall) (p : VanGenuchtenParams)
    : VanGenuchtenParams :=
  fold_left (fun p c => call c p) cs p.

End VanGenuchten.

(** ** [Dumux::TwoPFluidState] *)

Module TwoP.

Record TwoPFluidState : Type := {
  density_ : list Scalar;
  phasePressure_ : list Scalar;
  temperature_ : Scalar;
  Sn_ : Scalar
}.

(** The indices of [TwoPIndices] and the two functions of the fluid
    system the class calls. *)
Record TypeTag : Type := {
  wPhaseIdx : nat;
  nPhaseIdx : nat;
  phaseDensity : nat -> Scalar -> Scalar -> TwoPFluidState -> Scalar;
  molarMass : nat -> Scalar
}.

Definition set_Sn_ (v : Scalar) (s : TwoPFluidState) :=
  {| density_ := density_ s; phasePressure_ := phasePressure_ s;
     temperature_ := temperature_ s; Sn_ := v |}.

Definition set_phasePressure_ (i : nat) (v : Scalar) (s : TwoPFluidState) :=
  {| density_ := density_ s;
     phasePressure_ := <[i := v]> (phasePressure_ s);
     temperature_ := temperature_ s; Sn_ := Sn_ s |}.

Definition set_temperature_ (v : Scalar) (s : TwoPFluidState) :=
  {| density_ := density_ s; phasePressure_ := phasePressure_ s;
     temperature_ := v; Sn_ := Sn_ s |}.

Definition set_density_ (i : nat) (v : Scalar) (s : TwoPFluidState) :=
  {| density_ := <[i := v]> (density_ s);
     phasePressure_ := phasePressure_ s;
     temperature_ := temperature_ s; Sn_ := Sn_ s |}.

(** [update(Sn, pressW, pressN, temperature)] *)
Definition update (typeTag : TypeTag) (Sn pressW pressN temperature : Scalar)
    (s : TwoPFluidState) : TwoPFluidState :=
  let s := set_Sn_ Sn s in
  let s := set_phasePressure_ (wPhaseIdx typeTag) pressW s in
  let s := set_phasePressure_ (nPhaseIdx typeTag) pressN s in
  let s := set_temperature_ temperature s in
  let s :=
    set_density_ (wPhaseIdx typeTag)
      (phaseDensity typeTag (wPhaseIdx typeTag) temperature pressW s) s in
  set_density_ (nPhaseIdx typeTag)
    (phaseDensity typeTag (nPhaseIdx typeTag) temperature pressN s) s.

(** [saturation(phaseIdx)] *)
Definition saturation (typeTag : TypeTag) (s : TwoPFluidState) (phaseIdx : nat)
    : Scalar :=
  if Nat.eqb phaseIdx (wPhaseIdx typeTag) then (1 - Sn_ s)%float else Sn_ s.

(** [massFrac(phaseIdx, compIdx)] *)
Definition massFrac (phaseIdx compIdx : nat) : Scalar :=
  if Nat.eqb compIdx phaseIdx then 1%float else 0%float.

(** [moleFrac(phaseIdx, compIdx)] *)
Definition moleFrac (phaseIdx compIdx : nat) : Scalar :=
  massFrac phaseIdx compIdx.

(** [totalConcentration(phaseIdx)] *)
Definition totalConcentration (typeTag : TypeTag) (s : TwoPFluidState)
    (phaseIdx : nat) : Scalar :=
  ((density_ s !!! phaseIdx) / molarMass typeTag phaseIdx)%float.

(** [concentration(phaseIdx, compIdx)] *)
Definition concentration (typeTag : TypeTag) (s : TwoPFluidState)
    (phaseIdx compIdx : nat) : Scalar :=
  if Nat.eqb phaseIdx compIdx then totalConcentration typeTag s phaseIdx
  else 0%float.

(** [density(phaseIdx)] *)
Definition density (s : TwoPFluidState) (phaseIdx : nat) : Scalar :=
  density_ s !!! phaseIdx.

(** [averageMolarMass(phaseIdx)] *)
Definition averageMolarMass (typeTag : TypeTag) (phaseIdx : nat) : Scalar :=
  molarMass typeTag phaseIdx.

(** [partialPressure(compIdx)] *)
Definition partialPressure (typeTag : TypeTag) (s : TwoPFluidState)
    (compIdx : nat) : Scalar :=
  if Nat.eqb compIdx (wPhaseIdx typeTag) then 0%float
  else phasePressure_ s !!! nPhaseIdx typeTag.

(** [phasePressure(phaseIdx)] *)
Definition phasePressure (s : TwoPFluidState) (phaseIdx : nat) : Scalar :=
  phasePressure_ s !!! phaseIdx.

(** [capillaryPressure()] *)
Definition capillaryPressure (typeTag : TypeTag) (s : TwoPFluidState) : Scalar :=
  ((phasePressure_ s !!! nPhaseIdx typeTag)
   - (phasePressure_ s !!! wPhaseIdx typeTag))%float.

(** [temperature()] *)
Definition temperature (s : TwoPFluidState) : Scalar := temperature_ s.

End TwoP.

(** ** [Ewoms::CubeGridManager] *)

Module CubeGrid.

Inductive ParamType : Type :=
| param_unsigned
| param_Scalar
| param_int.

(** One entry of the parameter registry: what [EWOMS_REGISTER_PARAM]
    is given. *)
Record Registration : Type := {
  regType : ParamType;
  regName : string;
  regDescription : string
}.

(** Modelled from the spec: the macro [EWOMS_REGISTER_PARAM] of
    [ewoms/common/parametersystem.hh] is not among the sources, and the
    specification leaves parameter registration to the surrounding
    framework.  A registration is taken to record the type, the name
    and the description it is given, after the entries the registry
    holds. *)
Definition EWOMS_REGISTER_PARAM (ty : ParamType) (name description : string)
    (registry : list Registration) : list Registration :=
  registry ++
  [{| regType := ty; regName := name; regDescription := description |}].

(** [registerParameters()], for a grid of world dimension [dimWorld]. *)
Definition registerParameters (dimWorld : nat)
    (registry : list Registration) : list Registration :=
  let registry :=
    EWOMS_REGISTER_PARAM param_unsigned "GridGlobalRefinements"
      "The number of global refinements of the grid executed after it was loaded"
      registry in
  let registry :=
    EWOMS_REGISTER_PARAM param_Scalar "DomainSizeX"
      "The size of the domain in x direction" registry in
  let registry :=
    EWOMS_REGISTER_PARAM param_int "CellsX"
      "The number of intervalls in x direction" registry in
  let registry :=
    if (1 <? dimWorld)%nat then
      let registry :=
        EWOMS_REGISTER_PARAM param_Scalar "DomainSizeY"
          "The size of the domain in y direction" registry in
      EWOMS_REGISTER_PARAM param_int "CellsY"
        "The number of intervalls in y direction" registry
    else registry in
  if (2 <? dimWorld)%nat then
    let registry :=
      EWOMS_REGISTER_PARAM param_Scalar "DomainSizeZ"
        "The size of the domain in z direction" registry in
    EWOMS_REGISTER_PARAM param_int "CellsZ"
      "The number of intervalls in z direction" registry
  else registry.

(** The values [EWOMS_GET_PARAM] returns, by type and name. *)
Record ParameterValues : Type := {
  getUnsigned : string -> Z;
  getScalar : string -> Scalar;
  getInt : string -> Z
}.

(** Conversion of an [int] to [unsigned int] (32 bits). *)
Definition to_unsigned (z : Z) : Z := z mod 4294967296.

(** What the constructor hands to
    [Dune::StructuredGridFactory::createCubeGrid] and to
    [globalRefine]. *)
Record CubeGridArguments : Type := {
  lowerLeft : list Scalar;
  upperRight : list Scalar;
  cellRes : list Z;
  numRefinements : Z
}.

(** The constructor [CubeGridManager(simulator)], up to the calls into
    the grid library. *)
Definition CubeGridManager (dimWorld : nat) (params : ParameterValues)
    : CubeGridArguments :=
  let upperRight := replicate dimWorld 0%float in
  let lowerLeft := replicate dimWorld 0%float in
  (* for (i < dimWorld) cellRes[i] = 0; *)
  let cellRes := replicate dimWorld 0 in
  let upperRight := <[0%nat := getScalar params "DomainSizeX"]> upperRight in
  let cellRes :=
    <[0%nat := to_unsigned (getInt params "CellsX")]> cellRes in
  let '(upperRight, cellRes) :=
    if (1 <? dimWorld)%nat then
      (<[1%nat := getScalar params "DomainSizeY"]> upperRight,
       <[1%nat := to_unsigned (getInt params "CellsY")]> cellRes)
    else (upperRight, cellRes) in
  let '(upperRight, cellRes) :=
    if (2 <? dimWorld)%nat then
      (<[2%nat := getScalar params "DomainSizeZ"]> upperRight,
       <[2%nat := to_unsigned (getInt params "CellsZ")]> cellRes)
    else (upperRight, cellRes) in
  let numRefinements := getUnsigned params "GridGlobalRefinements" in
  {| lowerLeft := lowerLeft; upperRight := upperRight;
     cellRes := cellRes; numRefinements := numRefinements |}.

(** The value of a registered parameter, read with the getter of its
    registered type. *)
Inductive ParamValue : Type :=
| value_Z (z : Z)
| value_Scalar (x : Scalar).

Definition readAs (params : ParameterValues) (reg : Registration)
    : ParamValue :=
  match regType reg with
  | param_unsigned => value_Z (getUnsigned params (regName reg))
  | param_Scalar => value_Scalar (getScalar params (regName reg))
  | param_int => value_Z (getInt params (regName reg))
  end.

End CubeGrid.

(** ** More concrete configurations *)

Module MoreExamples.

(** Water is phase 0 and the non-wetting phase is phase 1; the density
    is a multiple of the pressure, the molar masses are fixed. *)
Definition twoPhase : TwoP.TypeTag := {|
  TwoP.wPhaseIdx := 0;
  TwoP.nPhaseIdx := 1;
  TwoP.phaseDensity := fun phaseIdx _ p _ =>
    if Nat.eqb phaseIdx 0 then (p * 2)%float else (p * 3)%float;
  TwoP.molarMass := fun _ => 0.5%float
|}.

Definition staleState : TwoP.TwoPFluidState := {|
  TwoP.density_ := [7%float; 7%float];
  TwoP.phasePressure_ := [7%float; 7%float];
  TwoP.temperature_ := 7%float;
  TwoP.Sn_ := 7%float
|}.

Definition staleParams : VanGenuchten.VanGenuchtenParams := {|
  VanGenuchten.vgAlpha_ := 7%float;
  VanGenuchten.vgM_ := 7%float;
  VanGenuchten.vgN_ := 7%float
|}.

(** Parameter values: the size and the cell count of the x axis, and
    one value for every other name. *)
Definition gridParams (sizeX : Scalar) (cellsX : Z) (others : Z)
    : CubeGrid.ParameterValues := {|
  CubeGrid.getUnsigned := fun name =>
    if String.eqb name "GridGlobalRefinements" then 1 else others;
  CubeGrid.getScalar := fun name =>
    if String.eqb name "DomainSizeX" then sizeX else 5%float;
  CubeGrid.getInt := fun name =>
    if String.eqb name "CellsX" then cellsX else others
|}.

(** The file [/home/joakimra/yesno.txt] with the given content. *)
Definition fileWith (content : string) : FileSystem := fun path =>
  if String.eqb path "/home/joakimra/yesno.txt" then Some content else None.

(** Plain scalars as evaluations: no derivatives are carried. *)
Definition scalarToolbox : Toolbox Scalar := {|
  createVariable := fun v _ => v;
  createConstant := fun v => v
|}.

End MoreExamples.

(** * Verification *)

(** ** Binary64 facts used below *)

Module FloatFacts.

(** Not-a-number and the two infinities, on the specification side. *)
Definition sf_nonfinite (x : spec_float) : bool :=
  match x with
  | S754_nan | S754_infinity _ => true
  | _ => false
  end.

Definition sf_zero (x : spec_float) : bool :=
  match x with
  | S754_zero _ => true
  | _ => false
  end.

Lemma is_finite_spec x : is_finite x = negb (sf_nonfinite (Prim2SF x)).
Proof.
  unfold is_finite, is_nan, is_infinity.
  rewrite !FloatAxioms.eqb_spec, FloatAxioms.abs_spec.
  change (Prim2SF infinity) with (S754_infinity false).
  destruct (Prim2SF x) as [s | s | | s m e]; unfold SFeqb; simpl.
  - reflexivity.
  - destruct s; reflexivity.
  - reflexivity.
  - destruct s; rewrite Z.compare_refl, Pos.compare_cont_refl; reflexivity.
Qed.

Lemma is_zero_spec x : is_zero x = sf_zero (Prim2SF x).
Proof.
  unfold is_zero. rewrite FloatAxioms.eqb_spec.
  change (Prim2SF zero) with (S754_zero false).
  destruct (Prim2SF x) as [s | s | | s m e]; unfold SFeqb; simpl;
    try reflexivity; destruct s; reflexivity.
Qed.

Lemma mul_self_nonfinite x :
  is_finite x = false -> is_finite (x * x) = false.
Proof.
  rewrite !is_finite_spec, FloatAxioms.mul_spec.
  destruct (Prim2SF x); simpl; try discriminate; reflexivity.
Qed.

Lemma add_nonfinite_l x y :
  is_finite x = false -> is_finite (x + y) = false.
Proof.
  rewrite !is_finite_spec, FloatAxioms.add_spec.
  destruct (Prim2SF x) as [s | s | | s m e]; simpl; try discriminate;
    destruct (Prim2SF y) as [s' | s' | | s' m' e']; simpl; try reflexivity.
  destruct s, s'; reflexivity.
Qed.

Lemma add_nonfinite_r x y :
  is_finite y = false -> is_finite (x + y) = false.
Proof.
  rewrite !is_finite_spec, FloatAxioms.add_spec.
  destruct (Prim2SF y) as [s | s | | s m e]; simpl; try discriminate;
    destruct (Prim2SF x) as [s' | s' | | s' m' e']; simpl; try reflexivity.
  destruct s, s'; reflexivity.
Qed.

Lemma sqrt_nonfinite x : is_finite x = false -> is_finite (sqrt x) = false.
Proof.
  rewrite !is_finite_spec, FloatAxioms.sqrt_spec.
  destruct (Prim2SF x) as [s | s | | s m e]; simpl;
    try discriminate; try reflexivity.
  destruct s; reflexivity.
Qed.

Lemma opp_finite x : is_finite (- x) = is_finite x.
Proof.
  rewrite !is_finite_spec, FloatAxioms.opp_spec. destruct (Prim2SF x); reflexivity.
Qed.

Lemma mul_finite_zero x y :
  is_finite x = true -> is_zero y = true -> is_zero (x * y) = true.
Proof.
  rewrite is_finite_spec, !is_zero_spec, FloatAxioms.mul_spec.
  destruct (Prim2SF x); simpl; try discriminate;
    destruct (Prim2SF y); simpl; try discriminate; reflexivity.
Qed.

Lemma mul_zero_finite x y :
  is_zero x = true -> is_finite y = true -> is_zero (x * y) = true.
Proof.
  rewrite is_finite_spec, !is_zero_spec, FloatAxioms.mul_spec.
  destruct (Prim2SF x); simpl; try discriminate;
    destruct (Prim2SF y); simpl; try discriminate; reflexivity.
Qed.

(** Adding a zero of either sign to [+0] gives [+0]. *)
Lemma add_pzero_zero y : is_zero y = true -> (0 + y = 0)%float.
Proof.
  intros H. rewrite is_zero_spec in H. apply Prim2SF_inj. rewrite FloatAxioms.add_spec.
  change (Prim2SF 0) with (S754_zero false).
  destruct (Prim2SF y) as [s | s | | s m e]; simpl in *; try discriminate.
  destruct s; reflexivity.
Qed.

End FloatFacts.

(** ** Vectors *)

Section VectorFacts.

Import FloatFacts.

(** A vector with a component that is not finite has a Euclidean norm
    that is not finite: the test of the gradient stage catches it. *)
Lemma two_norm2_acc_nonfinite (a : DimVector) (acc : Scalar) :
  isfinite acc = false ->
  isfinite (fold_left (fun result x => (result + x * x)%float) a acc)
    = false.
Proof.
  revert acc. induction a as [|x a IH]; intros acc Hacc; simpl; [done|].
  apply IH. by apply add_nonfinite_l.
Qed.

Lemma two_norm_nonfinite (a : DimVector) (c : Scalar) :
  c ∈ a -> isfinite c = false -> isfinite (Dune.two_norm a) = false.
Proof.
  intros Hin Hc. unfold Dune.two_norm, Dune.two_norm2, isfinite.
  apply sqrt_nonfinite. generalize 0%float as acc.
  induction Hin as [c a | c d a Hin IH]; intros acc; simpl.
  - apply two_norm2_acc_nonfinite.
    apply add_nonfinite_r. by apply mul_self_nonfinite.
  - by apply IH.
Qed.

(** The upwind loop computes the scalar product of vectors of equal
    dimension. *)
Lemma upwindProjection_acc (g n : DimVector) (pre_g pre_n : DimVector)
    (acc : Scalar) :
  length g = length n -> length pre_g = length pre_n ->
  fold_left (fun tmp i =>
               (tmp + ((pre_g ++ g) !!! i) * ((pre_n ++ n) !!! i))%float)
            (seq (length pre_n) (length n)) acc
  = fold_left (fun result xy => (result + fst xy * snd xy)%float)
              (zip g n) acc.
Proof.
  revert n pre_g pre_n acc.
  induction g as [|x g IH]; intros [|y n] pre_g pre_n acc Hl Hp;
    simpl in *; try done.
  rewrite !list_lookup_total_middle by done.
  specialize (IH n (pre_g ++ [x]) (pre_n ++ [y])
                (acc + x * y)%float).
  rewrite <- !(assoc_L (++)) in IH. simpl in IH.
  rewrite !length_app in IH. simpl in IH.
  replace (length pre_n + 1)%nat with (S (length pre_n)) in IH by lia.
  apply IH; lia.
Qed.

Lemma upwindProjection_dot (g n : DimVector) :
  length g = length n -> upwindProjection g n = Dune.dot g n.
Proof.
  intros Hl. unfold upwindProjection, Dune.dot.
  exact (upwindProjection_acc g n [] [] 0%float Hl eq_refl).
Qed.

End VectorFacts.

(** ** Phase loops *)

Section Loops.

Context {St : Type}.

Lemma bind_Ok_inv {A B : Type} (m : result A) (k : A -> result B) (b : B) :
  m ≫= k = Ok b -> exists a, m = Ok a /\ k a = Ok b.
Proof. destruct m as [a|e]; simpl; [eauto | discriminate]. Qed.

(** A loop whose body never throws completes. *)
Lemma for_each_total (body : nat -> St -> result St) :
  (forall i s, exists s', body i s = Ok s') ->
  forall idxs s, exists s', for_each body idxs s = Ok s'.
Proof.
  intros Hbody idxs. induction idxs as [|i rest IH]; intros s; simpl.
  - eauto.
  - destruct (Hbody i s) as [s1 ->]. apply IH.
Qed.

(** Invariant [P] of the whole state, per-index precondition [R] and
    postcondition [Q]: each iteration turns [R] into [Q] at its own
    index and keeps both at the other indices. *)
Lemma for_each_inv (body : nat -> St -> result St)
    (P : St -> Prop) (R Q : nat -> St -> Prop) (idxs : list nat) :
  NoDup idxs ->
  (forall i s s', i ∈ idxs -> P s -> R i s -> body i s = Ok s' ->
     P s' /\ Q i s' /\
     forall j, j <> i -> (R j s -> R j s') /\ (Q j s -> Q j s')) ->
  forall s s', P s -> (forall j, j ∈ idxs -> R j s) ->
    for_each body idxs s = Ok s' ->
    P s' /\ forall j, j ∈ idxs \/ Q j s -> Q j s'.
Proof.
  induction idxs as [|i rest IH]; intros Hnd Hbody s s' HP HR Hrun;
    simpl in Hrun.
  - inversion Hrun; subst. split; [done|].
    intros j [Hj|Hj]; [by apply elem_of_nil in Hj | done].
  - apply NoDup_cons in Hnd as [Hi Hnd].
    destruct (body i s) as [s1|e] eqn:Hbi; [|discriminate].
    destruct (Hbody i s s1) as (HP1 & HQ1 & Hframe);
      [left | done | apply HR; left | done |].
    destruct (IH Hnd
                (fun j t t' Hj => Hbody j t t' (list_elem_of_further _ _ _ Hj))
                s1 s' HP1) as (HP' & HQ'); [| done |].
    { intros j Hj. apply Hframe; [intros ->; done|].
      apply HR. by right. }
    split; [done|]. intros j Hj. apply HQ'.
    destruct (decide (j = i)) as [->|Hne]; [by right|].
    destruct Hj as [Hj|Hj].
    + apply elem_of_cons in Hj as [?|?]; [done | by left].
    + right. by apply Hframe.
Qed.

End Loops.

Ltac unfold_sized :=
  unfold sized in *; simpl in *; rewrite ?length_insert in *.

(** ** The flux stage *)

Section FluxStage.

Context {MaterialLawParams ParameterCache : Type}.

Implicit Types elemCtx : ElementContext MaterialLawParams ParameterCache.
Implicit Types q r : DarcyExtensiveQuantities.

Lemma fluxBody_total elemCtx nrm i q :
  exists r, fluxBody elemCtx nrm i q = Ok r.
Proof. unfold fluxBody. destruct (negb _); eauto. Qed.

(** One pass of the phase loop of the flux stage over a record with
    arrays of [n] entries: it completes, leaves the results of the
    gradient stage as they are, and fills the two flux arrays. *)
Lemma flux_loop elemCtx nrm n q :
  sized n q ->
  exists r,
    for_each (fluxBody elemCtx nrm) (seq 0 n) q = Ok r /\
    sized n r /\
    K_ r = K_ q /\ potentialGrad_ r = potentialGrad_ q /\
    mobility_ r = mobility_ q /\
    forall p, (p < n)%nat ->
      (phaseIsConsidered elemCtx p = true ->
         filterVelocity_ r !! p
           = Some (Dune.scale (Dune.mv (K_ q) (potentialGrad_ q !!! p))
                              (- (mobility_ q !!! p))%float) /\
         volumeFlux_ r !! p
           = Some (Dune.dot
                     (Dune.scale (Dune.mv (K_ q) (potentialGrad_ q !!! p))
                                 (- (mobility_ q !!! p))%float) nrm)) /\
      (phaseIsConsidered elemCtx p = false ->
         filterVelocity_ r !! p = Some (Dune.zeros (dimWorld elemCtx)) /\
         volumeFlux_ r !! p = Some 0%float).
Proof.
  intros Hq.
  destruct (for_each_total (fluxBody elemCtx nrm)
              (fluxBody_total elemCtx nrm) (seq 0 n) q) as [r Hr].
  exists r. split; [done|].
  pose (P := fun s : DarcyExtensiveQuantities =>
               sized n s /\ K_ s = K_ q /\
               potentialGrad_ s = potentialGrad_ q /\
               mobility_ s = mobility_ q).
  pose (Q := fun (p : nat) (s : DarcyExtensiveQuantities) =>
      (phaseIsConsidered elemCtx p = true ->
         filterVelocity_ s !! p
           = Some (Dune.scale (Dune.mv (K_ q) (potentialGrad_ q !!! p))
                              (- (mobility_ q !!! p))%float) /\
         volumeFlux_ s !! p
           = Some (Dune.dot
                     (Dune.scale (Dune.mv (K_ q) (potentialGrad_ q !!! p))
                                 (- (mobility_ q !!! p))%float) nrm)) /\
      (phaseIsConsidered elemCtx p = false ->
         filterVelocity_ s !! p = Some (Dune.zeros (dimWorld elemCtx)) /\
         volumeFlux_ s !! p = Some 0%float)).
  destruct (for_each_inv (fluxBody elemCtx nrm) P (fun _ _ => True) Q
              (seq 0 n)) with (s := q) (s' := r)
    as ((Hs & HK & HG & HM) & HQ);
    [apply NoDup_seq | | by unfold P | done | done |].
  - intros i s s' Hi (Hs & HK & HG & HM) _ Hbody.
    apply elem_of_seq in Hi. unfold fluxBody in Hbody.
    assert (Hlen : (i < length (filterVelocity_ s))%nat /\
                   (i < length (volumeFlux_ s))%nat)
      by (unfold sized in Hs; lia).
    destruct Hlen as [Hlf Hlv].
    destruct (phaseIsConsidered elemCtx i) eqn:Hc; simpl in Hbody;
      injection Hbody; intros <-; clear Hbody.
    + split; [|split].
      * unfold P. unfold_sized. intuition.
      * unfold Q. split; [intros _ | congruence]. simpl.
        rewrite !list_lookup_insert_eq
          by (rewrite ?length_insert; done).
        rewrite !list_lookup_total_insert_eq
          by (rewrite ?length_insert; done).
        rewrite HK, HG, HM. done.
      * intros j Hne. split; [done|]. unfold Q. simpl.
        rewrite !list_lookup_insert_ne by done. done.
    + split; [|split].
      * unfold P. unfold_sized. intuition.
      * unfold Q. split; [congruence | intros _]. simpl.
        rewrite !list_lookup_insert_eq by done. done.
      * intros j Hne. split; [done|]. unfold Q. simpl.
        rewrite !list_lookup_insert_ne by done. done.
  - repeat (split; [done|]). intros p Hp. apply HQ. left.
    apply elem_of_seq. lia.
Qed.

(** C1.  For a considered phase the flux stage, on an interior face
    as on a boundary face, run on a record holding the permeability
    tensor [K_ q], the potential gradient [potentialGrad_ q !!! p] and
    the mobility [mobility_ q !!! p], stores as filter velocity that
    tensor applied to that gradient, scaled by minus that mobility, and
    as volumetric flux the scalar product of that filter velocity with
    the normal of the face.  The tensor, the gradients and the
    mobilities are still in the record afterwards. *)
Theorem flux_stage_darcy_relation elemCtx (faceIdx timeIdx p : nat) q :
  sized (numPhases elemCtx) q ->
  (p < numPhases elemCtx)%nat ->
  phaseIsConsidered elemCtx p = true ->
  let velocity :=
    Dune.scale (Dune.mv (K_ q) (potentialGrad_ q !!! p))
               (- (mobility_ q !!! p))%float in
  (exists r,
     calculateFluxes_ elemCtx faceIdx timeIdx q = Ok r /\
     filterVelocity_ r !! p = Some velocity /\
     volumeFlux_ r !! p
       = Some (Dune.dot velocity
                 (normal (interiorFace (stencil elemCtx timeIdx) faceIdx))) /\
     K_ r = K_ q /\
     potentialGrad_ r = potentialGrad_ q /\
     mobility_ r = mobility_ q) /\
  (exists r,
     calculateBoundaryFluxes_ elemCtx faceIdx timeIdx q = Ok r /\
     filterVelocity_ r !! p = Some velocity /\
     volumeFlux_ r !! p
       = Some (Dune.dot velocity
                 (normal (boundaryFace (stencil elemCtx timeIdx) faceIdx))) /\
     K_ r = K_ q /\
     potentialGrad_ r = potentialGrad_ q /\
     mobility_ r = mobility_ q).
Proof.
  intros Hq Hp Hc velocity. unfold calculateFluxes_, calculateBoundaryFluxes_.
  split.
  - destruct (flux_loop elemCtx
                (normal (interiorFace (stencil elemCtx timeIdx) faceIdx))
                _ q Hq) as (r & Hr & _ & HK & HG & HM & Hphase).
    exists r. split; [done|].
    destruct (Hphase p Hp) as [Hcons _].
    destruct (Hcons Hc) as [Hfv Hvf]. done.
  - destruct (flux_loop elemCtx
                (normal (boundaryFace (stencil elemCtx timeIdx) faceIdx))
                _ q Hq) as (r & Hr & _ & HK & HG & HM & Hphase).
    exists r. split; [done|].
    destruct (Hphase p Hp) as [Hcons _].
    destruct (Hcons Hc) as [Hfv Hvf]. done.
Qed.

(** C3.  For a phase the model does not consider the flux stage, on
    an interior face as on a boundary face, stores a filter velocity
    all of whose components are [0.0] and the volumetric flux [0.0]. *)
Theorem flux_stage_unconsidered_phase_zero elemCtx
    (faceIdx timeIdx p : nat) q :
  sized (numPhases elemCtx) q ->
  (p < numPhases elemCtx)%nat ->
  phaseIsConsidered elemCtx p = false ->
  (exists r,
     calculateFluxes_ elemCtx faceIdx timeIdx q = Ok r /\
     filterVelocity_ r !! p = Some (replicate (dimWorld elemCtx) 0%float) /\
     volumeFlux_ r !! p = Some 0%float) /\
  (exists r,
     calculateBoundaryFluxes_ elemCtx faceIdx timeIdx q = Ok r /\
     filterVelocity_ r !! p = Some (replicate (dimWorld elemCtx) 0%float) /\
     volumeFlux_ r !! p = Some 0%float).
Proof.
  intros Hq Hp Hc. unfold calculateFluxes_, calculateBoundaryFluxes_.
  split.
  - destruct (flux_loop elemCtx
                (normal (interiorFace (stencil elemCtx timeIdx) faceIdx))
                _ q Hq) as (r & Hr & _ & _ & _ & _ & Hphase).
    exists r. split; [done|]. by apply (Hphase p Hp).
  - destruct (flux_loop elemCtx
                (normal (boundaryFace (stencil elemCtx timeIdx) faceIdx))
                _ q Hq) as (r & Hr & _ & _ & _ & _ & Hphase).
    exists r. split; [done|]. by apply (Hphase p Hp).
Qed.

End FluxStage.

(** ** The gradient stage *)

Section GradientStage.

Context {MaterialLawParams ParameterCache : Type}.

Implicit Types elemCtx : ElementContext MaterialLawParams ParameterCache.
Implicit Types q r : DarcyExtensiveQuantities.

(** The first loop of either variant: a considered phase receives the
    gradient [g] of the gradient calculator, the entry of any other
    phase stays as it is. *)
Lemma raw_loop elemCtx (g : nat -> DimVector)
    (body : nat -> DarcyExtensiveQuantities
            -> result DarcyExtensiveQuantities) n q :
  (forall i s, body i s =
     if negb (phaseIsConsidered elemCtx i) then Ok s
     else Ok (set_potentialGrad_ i (g i) s)) ->
  sized n q ->
  exists q1,
    for_each body (seq 0 n) q = Ok q1 /\
    sized n q1 /\
    interiorDofIdx_ q1 = interiorDofIdx_ q /\
    exteriorDofIdx_ q1 = exteriorDofIdx_ q /\
    forall p, (p < n)%nat ->
      (phaseIsConsidered elemCtx p = true ->
         potentialGrad_ q1 !! p = Some (g p)) /\
      (phaseIsConsidered elemCtx p = false ->
         potentialGrad_ q1 !! p = potentialGrad_ q !! p).
Proof.
  intros Hbody Hq.
  destruct (for_each_total body) with (idxs := seq 0 n) (s := q)
    as [q1 Hq1].
  { intros i s. rewrite Hbody. destruct (negb _); eauto. }
  exists q1. split; [done|].
  pose (Q := fun (p : nat) (s : DarcyExtensiveQuantities) =>
      (phaseIsConsidered elemCtx p = true ->
         potentialGrad_ s !! p = Some (g p)) /\
      (phaseIsConsidered elemCtx p = false ->
         potentialGrad_ s !! p = potentialGrad_ q !! p)).
  pose (R := fun (p : nat) (s : DarcyExtensiveQuantities) =>
      potentialGrad_ s !! p = potentialGrad_ q !! p).
  pose (P := fun s : DarcyExtensiveQuantities =>
      sized n s /\
      interiorDofIdx_ s = interiorDofIdx_ q /\
      exteriorDofIdx_ s = exteriorDofIdx_ q).
  destruct (for_each_inv body P R Q (seq 0 n)) with (s := q) (s' := q1)
    as ((Hs & Hin' & Hex') & HQ);
    [apply NoDup_seq | | by unfold P | done | done |].
  - intros i s s' Hi (Hs & Hin & Hex) HR Hi_body. apply elem_of_seq in Hi.
    rewrite Hbody in Hi_body.
    assert (Hl : (i < length (potentialGrad_ s))%nat)
      by (unfold sized in Hs; lia).
    destruct (phaseIsConsidered elemCtx i) eqn:Hc; simpl in Hi_body;
      injection Hi_body as <-.
    + split; [unfold P; unfold_sized; intuition|]. split.
      * unfold Q. split; [intros _ | congruence]. simpl.
        by rewrite list_lookup_insert_eq.
      * intros j Hne. unfold R, Q. simpl.
        rewrite !list_lookup_insert_ne by done. done.
    + split; [by unfold P|]. split; [|done].
      unfold Q. split; [congruence | intros _]. apply HR.
  - repeat (split; [done|]). intros p Hp. apply HQ. left.
    apply elem_of_seq. lia.
Qed.

(** The gravity loop, when it completes: every considered phase has
    received its correction and passed the finiteness test. *)
Lemma gravity_loop_ok elemCtx (f : nat -> DimVector) n q1 q2 :
  sized n q1 ->
  for_each (gravityBody elemCtx f) (seq 0 n) q1 = Ok q2 ->
  sized n q2 /\
  K_ q2 = K_ q1 /\
  interiorDofIdx_ q2 = interiorDofIdx_ q1 /\
  exteriorDofIdx_ q2 = exteriorDofIdx_ q1 /\
  forall p, (p < n)%nat ->
    (phaseIsConsidered elemCtx p = true ->
       potentialGrad_ q2 !! p
         = Some (Dune.add (potentialGrad_ q1 !!! p) (f p)) /\
       isfinite (Dune.two_norm (Dune.add (potentialGrad_ q1 !!! p) (f p)))
         = true) /\
    (phaseIsConsidered elemCtx p = false ->
       potentialGrad_ q2 !! p = potentialGrad_ q1 !! p).
Proof.
  intros Hq Hrun.
  pose (P := fun s : DarcyExtensiveQuantities =>
      sized n s /\ K_ s = K_ q1 /\
      interiorDofIdx_ s = interiorDofIdx_ q1 /\
      exteriorDofIdx_ s = exteriorDofIdx_ q1).
  pose (R := fun (p : nat) (s : DarcyExtensiveQuantities) =>
      potentialGrad_ s !! p = potentialGrad_ q1 !! p).
  pose (Q := fun (p : nat) (s : DarcyExtensiveQuantities) =>
      (phaseIsConsidered elemCtx p = true ->
         potentialGrad_ s !! p
           = Some (Dune.add (potentialGrad_ q1 !!! p) (f p)) /\
         isfinite (Dune.two_norm (Dune.add (potentialGrad_ q1 !!! p) (f p)))
           = true) /\
      (phaseIsConsidered elemCtx p = false ->
         potentialGrad_ s !! p = potentialGrad_ q1 !! p)).
  destruct (for_each_inv (gravityBody elemCtx f) P R Q (seq 0 n))
    with (s := q1) (s' := q2)
    as ((Hs & HK & Hi & He) & HQ);
    [apply NoDup_seq | | by unfold P | done | done |].
  - intros i s s' Hi (Hs & HK & Hin & Hex) HR Hbody.
    apply elem_of_seq in Hi. unfold gravityBody in Hbody.
    assert (Hl : (i < length (potentialGrad_ s))%nat)
      by (unfold sized in Hs; lia).
    assert (Hsame : potentialGrad_ s !!! i = potentialGrad_ q1 !!! i)
      by (rewrite !list_lookup_total_alt; unfold R in HR; by rewrite HR).
    destruct (phaseIsConsidered elemCtx i) eqn:Hc; simpl in Hbody.
    + rewrite list_lookup_total_insert_eq in Hbody by done.
      rewrite Hsame in Hbody.
      destruct (isfinite _) eqn:Hfin; simpl in Hbody; [|discriminate].
      injection Hbody as <-.
      split; [unfold P; unfold_sized; intuition|]. split.
      * unfold Q. split; [intros _ | congruence]. simpl.
        rewrite list_lookup_insert_eq by done. done.
      * intros j Hne. unfold R, Q. simpl.
        rewrite !list_lookup_insert_ne by done. done.
    + injection Hbody as <-.
      split; [by unfold P|]. split; [|done].
      unfold Q. split; [congruence | intros _]. apply HR.
  - repeat (split; [done|]). intros p Hp. apply HQ. left.
    apply elem_of_seq. lia.
Qed.

(** The gravity loop throws at the first considered phase whose
    corrected gradient fails the finiteness test. *)
Lemma gravity_loop_throw elemCtx (f : nat -> DimVector) n m :
  forall a s p,
    sized n s -> (a + m <= n)%nat -> (a <= p < a + m)%nat ->
    phaseIsConsidered elemCtx p = true ->
    isfinite (Dune.two_norm (Dune.add (potentialGrad_ s !!! p) (f p)))
      = false ->
    exists k, (a <= k <= p)%nat /\
      phaseIsConsidered elemCtx k = true /\
      isfinite (Dune.two_norm (Dune.add (potentialGrad_ s !!! k) (f k)))
        = false /\
      (forall j, (a <= j < k)%nat -> phaseIsConsidered elemCtx j = true ->
         isfinite (Dune.two_norm (Dune.add (potentialGrad_ s !!! j) (f j)))
           = true) /\
      for_each (gravityBody elemCtx f) (seq a m) s
        = Throw (Opm_NumericalProblem (nonFiniteMessage elemCtx k)).
Proof.
  induction m as [|m IH]; intros a s p Hs Ham Hp Hc Hbad; [lia|].
  simpl. unfold gravityBody at 1.
  assert (Hl : (a < length (potentialGrad_ s))%nat)
    by (unfold sized in Hs; lia).
  destruct (phaseIsConsidered elemCtx a) eqn:Hca; simpl.
  - rewrite list_lookup_total_insert_eq by done.
    destruct (isfinite
                (Dune.two_norm (Dune.add (potentialGrad_ s !!! a) (f a))))
      eqn:Hfa; simpl.
    + assert (Hne : p <> a) by (intros ->; congruence).
      destruct (IH (S a)
                  (set_potentialGrad_ a
                     (Dune.add (potentialGrad_ s !!! a) (f a)) s) p)
        as (k & Hk & Hck & Hbk & Hmin & Hrun);
        [unfold_sized; intuition | lia | lia | done | |].
      { simpl. rewrite list_lookup_total_insert_ne by done. done. }
      exists k. split; [lia|]. split; [done|].
      simpl in Hbk. rewrite list_lookup_total_insert_ne in Hbk by lia.
      split; [done|]. split; [|done].
      intros j Hj Hcj. destruct (decide (j = a)) as [->|Hja]; [done|].
      specialize (Hmin j). simpl in Hmin.
      rewrite list_lookup_total_insert_ne in Hmin by done.
      apply Hmin; [lia | done].
    + exists a. split; [lia|]. repeat (split; [done|]).
      split; [|done]. intros j Hj. lia.
  - assert (Hne : p <> a) by (intros ->; congruence).
    destruct (IH (S a) s p) as (k & Hk & Hck & Hbk & Hmin & Hrun);
      [done | lia | lia | done | done |].
    exists k. split; [lia|]. repeat (split; [done|]). split; [|done].
    intros j Hj Hcj. destruct (decide (j = a)) as [->|Hja]; [congruence|].
    apply Hmin; [lia | done].
Qed.

(** The last loop of the interior variant. *)
Lemma upwind_loop elemCtx (nrm : DimVector) (timeIdx n : nat) q :
  sized n q ->
  exists r,
    for_each (upwindBody elemCtx nrm timeIdx) (seq 0 n) q = Ok r /\
    sized n r /\
    K_ r = K_ q /\
    interiorDofIdx_ r = interiorDofIdx_ q /\
    exteriorDofIdx_ r = exteriorDofIdx_ q /\
    potentialGrad_ r = potentialGrad_ q /\
    forall p, (p < n)%nat -> phaseIsConsidered elemCtx p = true ->
      let up :=
        if (0 <? upwindProjection (potentialGrad_ q !!! p) nrm)%float
        then exteriorDofIdx_ q else interiorDofIdx_ q in
      let down :=
        if (0 <? upwindProjection (potentialGrad_ q !!! p) nrm)%float
        then interiorDofIdx_ q else exteriorDofIdx_ q in
      upstreamDofIdx_ r !! p = Some up /\
      downstreamDofIdx_ r !! p = Some down /\
      mobility_ r !! p
        = Some (mobility (intensiveQuantities elemCtx up timeIdx) p).
Proof.
  intros Hq.
  destruct (for_each_total (upwindBody elemCtx nrm timeIdx))
    with (idxs := seq 0 n) (s := q) as [r Hr].
  { intros i s. unfold upwindBody. destruct (negb _); eauto. }
  exists r. split; [done|].
  pose (P := fun s : DarcyExtensiveQuantities =>
      sized n s /\ K_ s = K_ q /\
      interiorDofIdx_ s = interiorDofIdx_ q /\
      exteriorDofIdx_ s = exteriorDofIdx_ q /\
      potentialGrad_ s = potentialGrad_ q).
  pose (Q := fun (p : nat) (s : DarcyExtensiveQuantities) =>
      phaseIsConsidered elemCtx p = true ->
      let up :=
        if (0 <? upwindProjection (potentialGrad_ q !!! p) nrm)%float
        then exteriorDofIdx_ q else interiorDofIdx_ q in
      let down :=
        if (0 <? upwindProjection (potentialGrad_ q !!! p) nrm)%float
        then interiorDofIdx_ q else exteriorDofIdx_ q in
      upstreamDofIdx_ s !! p = Some up /\
      downstreamDofIdx_ s !! p = Some down /\
      mobility_ s !! p
        = Some (mobility (intensiveQuantities elemCtx up timeIdx) p)).
  destruct (for_each_inv (upwindBody elemCtx nrm timeIdx) P
              (fun _ _ => True) Q (seq 0 n)) with (s := q) (s' := r)
    as ((Hs & HK & Hi & He & HG) & HQ);
    [apply NoDup_seq | | by unfold P | done | done |].
  - intros i s s' Hi (Hs & HK & Hin & Hex & HG) _ Hbody.
    apply elem_of_seq in Hi. unfold upwindBody in Hbody.
    assert (Hl : (i < length (upstreamDofIdx_ s))%nat /\
                 (i < length (downstreamDofIdx_ s))%nat /\
                 (i < length (mobility_ s))%nat)
      by (unfold sized in Hs; lia).
    destruct Hl as (Hlu & Hld & Hlm).
    destruct (phaseIsConsidered elemCtx i) eqn:Hc; simpl in Hbody.
    + rewrite HG, Hin, Hex in Hbody.
      destruct (0 <? upwindProjection (potentialGrad_ q !!! i) nrm)%float
        eqn:Htmp; simpl in Hbody;
        rewrite list_lookup_total_insert_eq in Hbody by done;
        injection Hbody as <-.
      * split; [unfold P; unfold_sized; intuition|]. split.
        -- unfold Q. intros _. rewrite Htmp. simpl.
           rewrite !list_lookup_insert_eq by done. done.
        -- intros j Hne. split; [done|]. unfold Q. simpl.
           rewrite !list_lookup_insert_ne by done. done.
      * split; [unfold P; unfold_sized; intuition|]. split.
        -- unfold Q. intros _. rewrite Htmp. simpl.
           rewrite !list_lookup_insert_eq by done. done.
        -- intros j Hne. split; [done|]. unfold Q. simpl.
           rewrite !list_lookup_insert_ne by done. done.
    + injection Hbody as <-. split; [by unfold P|].
      split; [unfold Q; congruence | done].
  - repeat (split; [done|]). intros p Hp. apply HQ. left.
    apply elem_of_seq. lia.
Qed.

(** The last loop of the boundary variant. *)
Lemma boundary_upwind_loop elemCtx (nrm : DimVector)
    (intQuantsIn : IntensiveQuantities) (kr : list Scalar)
    (fs : FluidState) (paramCache : ParameterCache) (n : nat) q :
  sized n q ->
  exists r,
    for_each (boundaryUpwindBody elemCtx nrm intQuantsIn kr fs paramCache)
      (seq 0 n) q = Ok r /\
    sized n r /\
    K_ r = K_ q /\
    interiorDofIdx_ r = interiorDofIdx_ q /\
    exteriorDofIdx_ r = exteriorDofIdx_ q /\
    potentialGrad_ r = potentialGrad_ q /\
    forall p, (p < n)%nat -> phaseIsConsidered elemCtx p = true ->
      let up :=
        if (0 <? upwindProjection (potentialGrad_ q !!! p) nrm)%float
        then exteriorDofIdx_ q else interiorDofIdx_ q in
      let down :=
        if (0 <? upwindProjection (potentialGrad_ q !!! p) nrm)%float
        then interiorDofIdx_ q else exteriorDofIdx_ q in
      upstreamDofIdx_ r !! p = Some up /\
      downstreamDofIdx_ r !! p = Some down /\
      mobility_ r !! p
        = Some (if (up <? 0)%Z
                then ((kr !!! p) / viscosity elemCtx fs paramCache p)%float
                else mobility intQuantsIn p).
Proof.
  intros Hq.
  destruct (for_each_total
              (boundaryUpwindBody elemCtx nrm intQuantsIn kr fs paramCache))
    with (idxs := seq 0 n) (s := q) as [r Hr].
  { intros i s. unfold boundaryUpwindBody.
    destruct (negb _); [eauto|]. destruct (_ <? _)%Z; eauto. }
  exists r. split; [done|].
  pose (P := fun s : DarcyExtensiveQuantities =>
      sized n s /\ K_ s = K_ q /\
      interiorDofIdx_ s = interiorDofIdx_ q /\
      exteriorDofIdx_ s = exteriorDofIdx_ q /\
      potentialGrad_ s = potentialGrad_ q).
  pose (Q := fun (p : nat) (s : DarcyExtensiveQuantities) =>
      phaseIsConsidered elemCtx p = true ->
      let up :=
        if (0 <? upwindProjection (potentialGrad_ q !!! p) nrm)%float
        then exteriorDofIdx_ q else interiorDofIdx_ q in
      let down :=
        if (0 <? upwindProjection (potentialGrad_ q !!! p) nrm)%float
        then interiorDofIdx_ q else exteriorDofIdx_ q in
      upstreamDofIdx_ s !! p = Some up /\
      downstreamDofIdx_ s !! p = Some down /\
      mobility_ s !! p
        = Some (if (up <? 0)%Z
                then ((kr !!! p) / viscosity elemCtx fs paramCache p)%float
                else mobility intQuantsIn p)).
  destruct (for_each_inv
              (boundaryUpwindBody elemCtx nrm intQuantsIn kr fs paramCache)
              P (fun _ _ => True) Q (seq 0 n)) with (s := q) (s' := r)
    as ((Hs & HK & Hi & He & HG) & HQ);
    [apply NoDup_seq | | by unfold P | done | done |].
  - intros i s s' Hi (Hs & HK & Hin & Hex & HG) _ Hbody.
    apply elem_of_seq in Hi. unfold boundaryUpwindBody in Hbody.
    assert (Hl : (i < length (upstreamDofIdx_ s))%nat /\
                 (i < length (downstreamDofIdx_ s))%nat /\
                 (i < length (mobility_ s))%nat)
      by (unfold sized in Hs; lia).
    destruct Hl as (Hlu & Hld & Hlm).
    destruct (phaseIsConsidered elemCtx i) eqn:Hc; simpl in Hbody.
    + rewrite HG, Hin, Hex in Hbody.
      destruct (0 <? upwindProjection (potentialGrad_ q !!! i) nrm)%float
        eqn:Htmp; simpl in Hbody;
        rewrite list_lookup_total_insert_eq in Hbody by done.
      * destruct (exteriorDofIdx_ q <? 0)%Z eqn:Hneg;
          injection Hbody as <-;
          (split; [unfold P; unfold_sized; intuition|]); split.
        -- unfold Q. intros _. rewrite Htmp. simpl. rewrite Hneg.
           rewrite !list_lookup_insert_eq by done. done.
        -- intros j Hne. split; [done|]. unfold Q. simpl.
           rewrite !list_lookup_insert_ne by done. done.
        -- unfold Q. intros _. rewrite Htmp. simpl. rewrite Hneg.
           rewrite !list_lookup_insert_eq by done. done.
        -- intros j Hne. split; [done|]. unfold Q. simpl.
           rewrite !list_lookup_insert_ne by done. done.
      * destruct (interiorDofIdx_ q <? 0)%Z eqn:Hneg;
          injection Hbody as <-;
          (split; [unfold P; unfold_sized; intuition|]); split.
        -- unfold Q. intros _. rewrite Htmp. simpl. rewrite Hneg.
           rewrite !list_lookup_insert_eq by done. done.
        -- intros j Hne. split; [done|]. unfold Q. simpl.
           rewrite !list_lookup_insert_ne by done. done.
        -- unfold Q. intros _. rewrite Htmp. simpl. rewrite Hneg.
           rewrite !list_lookup_insert_eq by done. done.
        -- intros j Hne. split; [done|]. unfold Q. simpl.
           rewrite !list_lookup_insert_ne by done. done.
    + injection Hbody as <-. split; [by unfold P|].
      split; [unfold Q; congruence | done].
  - repeat (split; [done|]). intros p Hp. apply HQ. left.
    apply elem_of_seq. lia.
Qed.

(** What a completed run of [calculateGradients_] leaves in the
    record. *)
Lemma calculateGradients_spec elemCtx (faceIdx timeIdx : nat) q r :
  sized (numPhases elemCtx) q ->
  calculateGradients_ elemCtx faceIdx timeIdx q = Ok r ->
  let scvf := interiorFace (stencil elemCtx timeIdx) faceIdx in
  sized (numPhases elemCtx) r /\
  interiorDofIdx_ r = to_short (interiorIndex scvf) /\
  exteriorDofIdx_ r = to_short (exteriorIndex scvf) /\
  K_ r = intersectionIntrinsicPermeability elemCtx faceIdx timeIdx /\
  forall p, (p < numPhases elemCtx)%nat ->
    phaseIsConsidered elemCtx p = true ->
    potentialGrad_ r !! p
      = Some (interiorPotentialGrad elemCtx faceIdx timeIdx p) /\
    (EnableGravity elemCtx = true ->
       isfinite (Dune.two_norm
                   (interiorPotentialGrad elemCtx faceIdx timeIdx p))
         = true) /\
    let up :=
      if (0 <? upwindProjection (potentialGrad_ r !!! p) (normal scvf))%float
      then exteriorDofIdx_ r else interiorDofIdx_ r in
    let down :=
      if (0 <? upwindProjection (potentialGrad_ r !!! p) (normal scvf))%float
      then interiorDofIdx_ r else exteriorDofIdx_ r in
    upstreamDofIdx_ r !! p = Some up /\
    downstreamDofIdx_ r !! p = Some down /\
    mobility_ r !! p
      = Some (mobility (intensiveQuantities elemCtx up timeIdx) p).
Proof.
  intros Hq Hrun scvf. unfold calculateGradients_ in Hrun.
  fold scvf in Hrun.
  apply bind_Ok_inv in Hrun as (q1 & Hraw & Hrun).
  apply bind_Ok_inv in Hrun as (q2 & Hgrav & Hrun).
  set (q0 := set_dofIdx_ (to_short (interiorIndex scvf))
                         (to_short (exteriorIndex scvf)) q) in *.
  assert (Hq0 : sized (numPhases elemCtx) q0) by (by unfold_sized).
  destruct (raw_loop elemCtx
              (fun p => calculateGradient elemCtx faceIdx
                          {| pc_phaseIdx := p |})
              (rawGradientBody elemCtx faceIdx) (numPhases elemCtx) q0)
    as (q1' & Hraw' & Hs1 & Hin1 & Hex1 & Hg1); [done | done |].
  rewrite Hraw in Hraw'. injection Hraw' as <-.
  assert (Hstage2 :
    sized (numPhases elemCtx) q2 /\
    interiorDofIdx_ q2 = to_short (interiorIndex scvf) /\
    exteriorDofIdx_ q2 = to_short (exteriorIndex scvf) /\
    forall p, (p < numPhases elemCtx)%nat ->
      phaseIsConsidered elemCtx p = true ->
      potentialGrad_ q2 !! p
        = Some (interiorPotentialGrad elemCtx faceIdx timeIdx p) /\
      (EnableGravity elemCtx = true ->
         isfinite (Dune.two_norm
                     (interiorPotentialGrad elemCtx faceIdx timeIdx p))
           = true)).
  { unfold interiorPotentialGrad. fold scvf.
    destruct (EnableGravity elemCtx) eqn:Hgr.
    - apply gravity_loop_ok in Hgrav as (Hs2 & _ & Hin2 & Hex2 & Hg2);
        [|done].
      rewrite Hin1, Hex1 in *. simpl in *.
      repeat (split; [done|]). intros p Hp Hc.
      destruct (Hg2 p Hp) as [Hcons _]. destruct (Hcons Hc) as [Hv Hfin].
      destruct (Hg1 p Hp) as [Hraw1 _].
      rewrite (list_lookup_total_correct _ _ _ (Hraw1 Hc)) in Hv, Hfin.
      done.
    - injection Hgrav as <-. rewrite Hin1, Hex1. simpl.
      repeat (split; [done|]). intros p Hp Hc.
      split; [by apply (Hg1 p Hp) | discriminate]. }
  destruct Hstage2 as (Hs2 & Hin2 & Hex2 & Hg2).
  unfold Valgrind_SetUndefined in Hrun.
  set (q3 := set_K_ (intersectionIntrinsicPermeability elemCtx faceIdx timeIdx)
                    q2) in *.
  destruct (upwind_loop elemCtx (normal scvf) timeIdx (numPhases elemCtx) q3)
    as (r' & Hup & Hs3 & HK3 & Hin3 & Hex3 & HG3 & Hphase);
    [by unfold_sized|].
  rewrite Hrun in Hup. injection Hup as <-.
  split; [done|]. rewrite Hin3, Hex3, HK3, HG3. simpl.
  repeat (split; [done|]). intros p Hp Hc.
  destruct (Hg2 p Hp Hc) as [Hv Hfin].
  split; [done|]. split; [done|].
  apply (Hphase p Hp Hc).
Qed.

(** What a completed run of [calculateBoundaryGradients_] leaves in
    the record. *)
Lemma calculateBoundaryGradients_spec elemCtx (faceIdx timeIdx : nat)
    (fs : FluidState) (paramCache : ParameterCache) q r :
  sized (numPhases elemCtx) q ->
  calculateBoundaryGradients_ elemCtx faceIdx timeIdx fs paramCache q = Ok r ->
  let scvf := boundaryFace (stencil elemCtx timeIdx) faceIdx in
  let intQuantsIn :=
    intensiveQuantities elemCtx (to_short (interiorIndex scvf)) timeIdx in
  let kr :=
    relativePermeabilities elemCtx
      (materialLawParams elemCtx (to_short (interiorIndex scvf)) timeIdx)
      fs in
  sized (numPhases elemCtx) r /\
  interiorDofIdx_ r = to_short (interiorIndex scvf) /\
  exteriorDofIdx_ r = (-1)%Z /\
  K_ r = intrinsicPermeability intQuantsIn /\
  forall p, (p < numPhases elemCtx)%nat ->
    phaseIsConsidered elemCtx p = true ->
    potentialGrad_ r !! p
      = Some (boundaryPotentialGrad elemCtx faceIdx timeIdx fs p) /\
    (EnableGravity elemCtx = true ->
       isfinite (Dune.two_norm
                   (boundaryPotentialGrad elemCtx faceIdx timeIdx fs p))
         = true) /\
    let up :=
      if (0 <? upwindProjection (potentialGrad_ r !!! p) (normal scvf))%float
      then exteriorDofIdx_ r else interiorDofIdx_ r in
    let down :=
      if (0 <? upwindProjection (potentialGrad_ r !!! p) (normal scvf))%float
      then interiorDofIdx_ r else exteriorDofIdx_ r in
    upstreamDofIdx_ r !! p = Some up /\
    downstreamDofIdx_ r !! p = Some down /\
    mobility_ r !! p
      = Some (if (up <? 0)%Z
              then ((kr !!! p) / viscosity elemCtx fs paramCache p)%float
              else mobility intQuantsIn p).
Proof.
  intros Hq Hrun scvf intQuantsIn kr.
  unfold calculateBoundaryGradients_ in Hrun. fold scvf in Hrun.
  apply bind_Ok_inv in Hrun as (q1 & Hraw & Hrun).
  apply bind_Ok_inv in Hrun as (q2 & Hgrav & Hrun).
  destruct (raw_loop elemCtx
              (fun p => calculateBoundaryGradient elemCtx faceIdx
                          {| bpc_fluidState := fs; bpc_phaseIdx := p |})
              (rawBoundaryGradientBody elemCtx faceIdx fs)
              (numPhases elemCtx) q)
    as (q1' & Hraw' & Hs1 & _ & _ & Hg1); [done | done |].
  rewrite Hraw in Hraw'. injection Hraw' as <-.
  simpl in Hgrav, Hrun. fold intQuantsIn in Hgrav, Hrun.
  set (q1b := set_K_ (intrinsicPermeability intQuantsIn)
                (set_dofIdx_ (to_short (interiorIndex scvf)) (-1) q1)) in *.
  assert (Hs1b : sized (numPhases elemCtx) q1b) by (by unfold_sized).
  assert (Hstage2 :
    sized (numPhases elemCtx) q2 /\
    K_ q2 = intrinsicPermeability intQuantsIn /\
    interiorDofIdx_ q2 = to_short (interiorIndex scvf) /\
    exteriorDofIdx_ q2 = (-1)%Z /\
    forall p, (p < numPhases elemCtx)%nat ->
      phaseIsConsidered elemCtx p = true ->
      potentialGrad_ q2 !! p
        = Some (boundaryPotentialGrad elemCtx faceIdx timeIdx fs p) /\
      (EnableGravity elemCtx = true ->
         isfinite (Dune.two_norm
                     (boundaryPotentialGrad elemCtx faceIdx timeIdx fs p))
           = true)).
  { unfold boundaryPotentialGrad. fold scvf.
    destruct (EnableGravity elemCtx) eqn:Hgr.
    - apply gravity_loop_ok in Hgrav as (Hs2 & HK2 & Hin2 & Hex2 & Hg2);
        [|done].
      simpl in *.
      repeat (split; [done|]). intros p Hp Hc.
      destruct (Hg2 p Hp) as [Hcons _]. destruct (Hcons Hc) as [Hv Hfin].
      destruct (Hg1 p Hp) as [Hraw1 _].
      rewrite (list_lookup_total_correct _ _ _ (Hraw1 Hc)) in Hv, Hfin.
      done.
    - injection Hgrav as <-. simpl.
      repeat (split; [done|]). intros p Hp Hc.
      split; [by apply (Hg1 p Hp) | discriminate]. }
  destruct Hstage2 as (Hs2 & HK2 & Hin2 & Hex2 & Hg2).
  destruct (boundary_upwind_loop elemCtx (normal scvf) intQuantsIn
              (relativePermeabilities elemCtx
                 (materialLawParams elemCtx (interiorDofIdx_ q2) timeIdx) fs)
              fs paramCache (numPhases elemCtx) q2)
    as (r' & Hup & Hs3 & HK3 & Hin3 & Hex3 & HG3 & Hphase); [done|].
  rewrite Hrun in Hup. injection Hup as <-.
  split; [done|]. rewrite Hin3, Hex3, HK3, HG3, HK2, Hin2, Hex2.
  repeat (split; [done|]). intros p Hp Hc.
  destruct (Hg2 p Hp Hc) as [Hv Hfin].
  split; [done|]. split; [done|].
  specialize (Hphase p Hp Hc). rewrite Hin2, Hex2 in Hphase.
  apply Hphase.
Qed.

End GradientStage.

(** ** Upwinding, mobilities and the finiteness test *)

Section UpwindProperties.

Context {MaterialLawParams ParameterCache : Type}.

Implicit Types elemCtx : ElementContext MaterialLawParams ParameterCache.
Implicit Types q r : DarcyExtensiveQuantities.

(** C2.  After the gradient stage, for a considered phase, the stored
    potential gradient is the gradient of the gradient calculator with
    the gravity correction added when gravity is enabled
    ([interiorPotentialGrad], [boundaryPotentialGrad]).  That gradient
    and the normal of the face are vectors of the world dimension.
    When the scalar product [Dune.dot] of that gradient with the normal
    is strictly positive, the exterior degree of freedom is upstream
    and the interior one downstream; otherwise, an exact zero included,
    the interior one is upstream and the exterior one downstream.  The
    interior variant and the boundary variant, whose exterior index is
    [-1], apply the same rule. *)
Theorem upwind_direction_rule elemCtx (faceIdx timeIdx p : nat)
    (fs : FluidState) (paramCache : ParameterCache) q :
  sized (numPhases elemCtx) q ->
  (p < numPhases elemCtx)%nat ->
  phaseIsConsidered elemCtx p = true ->
  (forall r,
     calculateGradients_ elemCtx faceIdx timeIdx q = Ok r ->
     let scvf := interiorFace (stencil elemCtx timeIdx) faceIdx in
     let grad := interiorPotentialGrad elemCtx faceIdx timeIdx p in
     let proj := Dune.dot grad (normal scvf) in
     length (normal scvf) = dimWorld elemCtx ->
     length grad = dimWorld elemCtx ->
     potentialGrad_ r !! p = Some grad /\
     interiorDofIdx_ r = to_short (interiorIndex scvf) /\
     exteriorDofIdx_ r = to_short (exteriorIndex scvf) /\
     ((0 <? proj)%float = true ->
        upstreamDofIdx_ r !! p = Some (exteriorDofIdx_ r) /\
        downstreamDofIdx_ r !! p = Some (interiorDofIdx_ r)) /\
     ((0 <? proj)%float = false ->
        upstreamDofIdx_ r !! p = Some (interiorDofIdx_ r) /\
        downstreamDofIdx_ r !! p = Some (exteriorDofIdx_ r)) /\
     (proj = 0%float ->
        upstreamDofIdx_ r !! p = Some (interiorDofIdx_ r) /\
        downstreamDofIdx_ r !! p = Some (exteriorDofIdx_ r))) /\
  (forall r,
     calculateBoundaryGradients_ elemCtx faceIdx timeIdx fs paramCache q
       = Ok r ->
     let scvf := boundaryFace (stencil elemCtx timeIdx) faceIdx in
     let grad := boundaryPotentialGrad elemCtx faceIdx timeIdx fs p in
     let proj := Dune.dot grad (normal scvf) in
     length (normal scvf) = dimWorld elemCtx ->
     length grad = dimWorld elemCtx ->
     potentialGrad_ r !! p = Some grad /\
     interiorDofIdx_ r = to_short (interiorIndex scvf) /\
     exteriorDofIdx_ r = (-1)%Z /\
     ((0 <? proj)%float = true ->
        upstreamDofIdx_ r !! p = Some (exteriorDofIdx_ r) /\
        downstreamDofIdx_ r !! p = Some (interiorDofIdx_ r)) /\
     ((0 <? proj)%float = false ->
        upstreamDofIdx_ r !! p = Some (interiorDofIdx_ r) /\
        downstreamDofIdx_ r !! p = Some (exteriorDofIdx_ r)) /\
     (proj = 0%float ->
        upstreamDofIdx_ r !! p = Some (interiorDofIdx_ r) /\
        downstreamDofIdx_ r !! p = Some (exteriorDofIdx_ r))).
Proof.
  intros Hq Hp Hc. split; intros r Hrun scvf grad proj Hn Hg.
  - destruct (calculateGradients_spec elemCtx faceIdx timeIdx q r Hq Hrun)
      as (_ & Hin & Hex & _ & Hphase).
    destruct (Hphase p Hp Hc) as (Hgrad & _ & Hup & Hdown & _).
    fold scvf in Hin, Hex, Hup, Hdown. fold grad in Hgrad.
    rewrite (list_lookup_total_correct _ _ _ Hgrad) in Hup, Hdown.
    rewrite upwindProjection_dot in Hup, Hdown by congruence.
    fold proj in Hup, Hdown.
    repeat (split; [done|]).
    split; [|split].
    + intros Hpos. rewrite Hpos in Hup, Hdown. done.
    + intros Hpos. rewrite Hpos in Hup, Hdown. done.
    + intros Hzero. rewrite Hzero in Hup, Hdown. done.
  - destruct (calculateBoundaryGradients_spec elemCtx faceIdx timeIdx
                fs paramCache q r Hq Hrun)
      as (_ & Hin & Hex & _ & Hphase).
    destruct (Hphase p Hp Hc) as (Hgrad & _ & Hup & Hdown & _).
    fold scvf in Hin, Hex, Hup, Hdown. fold grad in Hgrad.
    rewrite (list_lookup_total_correct _ _ _ Hgrad) in Hup, Hdown.
    rewrite upwindProjection_dot in Hup, Hdown by congruence.
    fold proj in Hup, Hdown.
    repeat (split; [done|]).
    split; [|split].
    + intros Hpos. rewrite Hpos in Hup, Hdown. done.
    + intros Hpos. rewrite Hpos in Hup, Hdown. done.
    + intros Hzero. rewrite Hzero in Hup, Hdown. done.
Qed.


(** C7.  On a boundary face whose interior index is a valid
    (non-negative) index, for a considered phase: when the upstream
    side is the exterior sentinel [-1], the recorded mobility is the
    relative permeability of the prescribed fluid state divided by the
    viscosity of that state; when the upstream side is the interior
    degree of freedom, it is the mobility of the interior intensive
    quantities.  One of the two is always the case. *)
Theorem boundary_mobility_by_upstream_side elemCtx (faceIdx timeIdx p : nat)
    (fs : FluidState) (paramCache : ParameterCache) q r :
  let scvf := boundaryFace (stencil elemCtx timeIdx) faceIdx in
  let intQuantsIn :=
    intensiveQuantities elemCtx (to_short (interiorIndex scvf)) timeIdx in
  let kr :=
    relativePermeabilities elemCtx
      (materialLawParams elemCtx (to_short (interiorIndex scvf)) timeIdx)
      fs in
  sized (numPhases elemCtx) q ->
  (p < numPhases elemCtx)%nat ->
  phaseIsConsidered elemCtx p = true ->
  (0 <= to_short (interiorIndex scvf))%Z ->
  calculateBoundaryGradients_ elemCtx faceIdx timeIdx fs paramCache q = Ok r ->
  (upstreamDofIdx_ r !! p = Some (-1)%Z ->
     mobility_ r !! p
       = Some ((kr !!! p) / viscosity elemCtx fs paramCache p)%float) /\
  (upstreamDofIdx_ r !! p = Some (interiorDofIdx_ r) ->
     mobility_ r !! p = Some (mobility intQuantsIn p)) /\
  (upstreamDofIdx_ r !! p = Some (-1)%Z \/
   upstreamDofIdx_ r !! p = Some (interiorDofIdx_ r)).
Proof.
  intros scvf intQuantsIn kr Hq Hp Hc Hnonneg Hrun.
  destruct (calculateBoundaryGradients_spec elemCtx faceIdx timeIdx
              fs paramCache q r Hq Hrun)
    as (_ & Hin & Hex & _ & Hphase).
  destruct (Hphase p Hp Hc) as (_ & _ & Hup & _ & Hmob).
  fold scvf in Hin, Hup, Hmob. fold intQuantsIn kr in Hmob.
  rewrite Hin, Hex in *.
  destruct (0 <? upwindProjection (potentialGrad_ r !!! p) (normal scvf))%float.
  - change (-1 <? 0)%Z with true in Hmob.
    split; [done|]. split; [|by left].
    rewrite Hup. intros [= Heq]. lia.
  - assert (Hsign : (to_short (interiorIndex scvf) <? 0)%Z = false)
      by (apply Z.ltb_ge; lia).
    rewrite Hsign in Hmob.
    split; [|split; [done | by right]].
    rewrite Hup. intros [= Heq]. lia.
Qed.

Lemma bind_Throw_l {A B : Type} (e : Exception) (k : A -> result B) :
  Throw e ≫= k = Throw e.
Proof. reflexivity. Qed.

Lemma bind_Ok_l {A B : Type} (a : A) (k : A -> result B) :
  Ok a ≫= k = k a.
Proof. reflexivity. Qed.

(** C5, as the code has it.  With gravity enabled, when the corrected
    potential gradient of a considered phase has a component that is
    not finite, the gradient stage of either variant throws
    [Opm::NumericalProblem] with the message
    [Non finite potential gradient for phase '<name>'], where [<name>]
    is the name of the first considered phase whose corrected gradient
    fails the finiteness test: the given phase when no considered
    phase before it fails, a failing phase before it otherwise.  The
    exception leaves the gradient stage, so the flux stage that follows
    it is not run and no record reaches it. *)
Theorem nonfinite_gradient_throws elemCtx (faceIdx timeIdx p : nat)
    (fs : FluidState) (paramCache : ParameterCache) q (c : Scalar) :
  EnableGravity elemCtx = true ->
  sized (numPhases elemCtx) q ->
  (p < numPhases elemCtx)%nat ->
  phaseIsConsidered elemCtx p = true ->
  isfinite c = false ->
  (c ∈ interiorPotentialGrad elemCtx faceIdx timeIdx p ->
   exists k, (k <= p)%nat /\
     phaseIsConsidered elemCtx k = true /\
     isfinite (Dune.two_norm (interiorPotentialGrad elemCtx faceIdx timeIdx k))
       = false /\
     (forall j, (j < k)%nat -> phaseIsConsidered elemCtx j = true ->
        isfinite
          (Dune.two_norm (interiorPotentialGrad elemCtx faceIdx timeIdx j))
          = true) /\
     calculateGradients_ elemCtx faceIdx timeIdx q
       = Throw (Opm_NumericalProblem
                  ("Non finite potential gradient for phase '"
                     ++ phaseName elemCtx k ++ "'")%string) /\
     calculateGradients_ elemCtx faceIdx timeIdx q
       ≫= calculateFluxes_ elemCtx faceIdx timeIdx
       = Throw (Opm_NumericalProblem
                  ("Non finite potential gradient for phase '"
                     ++ phaseName elemCtx k ++ "'")%string) /\
     ((forall j, (j < p)%nat -> phaseIsConsidered elemCtx j = true ->
         isfinite
           (Dune.two_norm (interiorPotentialGrad elemCtx faceIdx timeIdx j))
           = true) ->
      k = p)) /\
  (c ∈ boundaryPotentialGrad elemCtx faceIdx timeIdx fs p ->
   exists k, (k <= p)%nat /\
     phaseIsConsidered elemCtx k = true /\
     isfinite
       (Dune.two_norm (boundaryPotentialGrad elemCtx faceIdx timeIdx fs k))
       = false /\
     (forall j, (j < k)%nat -> phaseIsConsidered elemCtx j = true ->
        isfinite
          (Dune.two_norm (boundaryPotentialGrad elemCtx faceIdx timeIdx fs j))
          = true) /\
     calculateBoundaryGradients_ elemCtx faceIdx timeIdx fs paramCache q
       = Throw (Opm_NumericalProblem
                  ("Non finite potential gradient for phase '"
                     ++ phaseName elemCtx k ++ "'")%string) /\
     calculateBoundaryGradients_ elemCtx faceIdx timeIdx fs paramCache q
       ≫= calculateBoundaryFluxes_ elemCtx faceIdx timeIdx
       = Throw (Opm_NumericalProblem
                  ("Non finite potential gradient for phase '"
                     ++ phaseName elemCtx k ++ "'")%string) /\
     ((forall j, (j < p)%nat -> phaseIsConsidered elemCtx j = true ->
         isfinite
           (Dune.two_norm (boundaryPotentialGrad elemCtx faceIdx timeIdx fs j))
           = true) ->
      k = p)).
Proof.
  intros Hgr Hq Hp Hc Hnf. split; intros Hin.
  - pose proof (two_norm_nonfinite _ _ Hin Hnf) as Hbad.
    unfold interiorPotentialGrad in *. rewrite Hgr in *.
    unfold calculateGradients_.
    set (scvf := interiorFace (stencil elemCtx timeIdx) faceIdx) in *.
    set (q0 := set_dofIdx_ (to_short (interiorIndex scvf))
                           (to_short (exteriorIndex scvf)) q).
    assert (Hq0 : sized (numPhases elemCtx) q0) by (by unfold_sized).
    destruct (raw_loop elemCtx
                (fun p => calculateGradient elemCtx faceIdx
                            {| pc_phaseIdx := p |})
                (rawGradientBody elemCtx faceIdx) (numPhases elemCtx) q0)
      as (q1 & Hraw & Hs1 & Hin1 & Hex1 & Hg1); [done | done |].
    rewrite Hraw, bind_Ok_l, Hgr, Hin1, Hex1. simpl interiorDofIdx_.
    simpl exteriorDofIdx_.
    assert (Hval : forall j, (j < numPhases elemCtx)%nat ->
              phaseIsConsidered elemCtx j = true ->
              potentialGrad_ q1 !!! j
                = calculateGradient elemCtx faceIdx {| pc_phaseIdx := j |}).
    { intros j Hj Hcj. apply list_lookup_total_correct.
      by apply (Hg1 j Hj). }
    destruct (gravity_loop_throw elemCtx
                (interiorCorrection elemCtx scvf timeIdx
                   (to_short (interiorIndex scvf))
                   (to_short (exteriorIndex scvf)))
                (numPhases elemCtx) (numPhases elemCtx) 0%nat q1 p)
      as (k & Hk & Hck & Hbk & Hmin & Hthrow);
      [done | lia | lia | done | by rewrite Hval |].
    exists k. split; [lia|]. split; [done|].
    rewrite Hval in Hbk by (done || lia). split; [done|].
    split.
    { intros j Hj Hcj. rewrite <- (Hval j) by (done || lia).
      apply Hmin; [lia | done]. }
    rewrite Hthrow. split; [done|]. split; [done|].
    intros Hfirst. destruct (decide (k = p)) as [|Hne]; [done|].
    rewrite Hfirst in Hbk by (done || lia). discriminate Hbk.
  - pose proof (two_norm_nonfinite _ _ Hin Hnf) as Hbad.
    unfold boundaryPotentialGrad in *. rewrite Hgr in *.
    unfold calculateBoundaryGradients_.
    set (scvf := boundaryFace (stencil elemCtx timeIdx) faceIdx) in *.
    destruct (raw_loop elemCtx
                (fun p => calculateBoundaryGradient elemCtx faceIdx
                            {| bpc_fluidState := fs; bpc_phaseIdx := p |})
                (rawBoundaryGradientBody elemCtx faceIdx fs)
                (numPhases elemCtx) q)
      as (q1 & Hraw & Hs1 & _ & _ & Hg1); [done | done |].
    rewrite Hraw, bind_Ok_l, Hgr. simpl interiorDofIdx_.
    assert (Hval : forall j, (j < numPhases elemCtx)%nat ->
              phaseIsConsidered elemCtx j = true ->
              potentialGrad_ q1 !!! j
                = calculateBoundaryGradient elemCtx faceIdx
                    {| bpc_fluidState := fs; bpc_phaseIdx := j |}).
    { intros j Hj Hcj. apply list_lookup_total_correct.
      by apply (Hg1 j Hj). }
    set (q1b := set_K_ _ _).
    assert (Hs1b : sized (numPhases elemCtx) q1b) by (by unfold_sized).
    destruct (gravity_loop_throw elemCtx
                (boundaryCorrection elemCtx scvf timeIdx
                   (to_short (interiorIndex scvf)))
                (numPhases elemCtx) (numPhases elemCtx) 0%nat q1b p)
      as (k & Hk & Hck & Hbk & Hmin & Hthrow);
      [done | lia | lia | done | simpl; by rewrite Hval |].
    simpl potentialGrad_ in Hbk, Hmin.
    exists k. split; [lia|]. split; [done|].
    rewrite Hval in Hbk by (done || lia). split; [done|].
    split.
    { intros j Hj Hcj. rewrite <- (Hval j) by (done || lia).
      apply Hmin; [lia | done]. }
    rewrite Hthrow. split; [done|]. split; [done|].
    intros Hfirst. destruct (decide (k = p)) as [|Hne]; [done|].
    rewrite Hfirst in Hbk by (done || lia). discriminate Hbk.
Qed.

End UpwindProperties.

(** ** Zero gradients *)

Section ZeroGradient.

Import FloatFacts.

(** Summing products that are all zeros, from [+0], gives [+0]. *)
Lemma dot_acc_zero (a b : DimVector) :
  Forall (fun xy => is_zero (fst xy * snd xy)%float = true) (zip a b) ->
  Dune.dot a b = 0%float.
Proof.
  unfold Dune.dot. generalize (zip a b) as l. intros l Hl.
  induction Hl as [|xy l Hxy Hl IH]; simpl; [done|].
  rewrite add_pzero_zero by done. apply IH.
Qed.

Lemma Forall_zip_l (P : Scalar -> Prop) (Q : Scalar -> Prop)
    (a b : DimVector) :
  Forall P a -> Forall Q b ->
  Forall (fun xy => P (fst xy) /\ Q (snd xy)) (zip a b).
Proof.
  intros Ha. revert b. induction Ha as [|x a Hx Ha IH]; intros b Hb; simpl.
  - constructor.
  - destruct Hb as [|y b Hy Hb]; constructor; [done | by apply IH].
Qed.

(** A finite row applied to a vector of zeros. *)
Lemma dot_finite_zero (row x : DimVector) :
  Forall (fun c => isfinite c = true) row ->
  Forall (fun c => is_zero c = true) x ->
  Dune.dot row x = 0%float.
Proof.
  intros Hrow Hx. apply dot_acc_zero.
  eapply Forall_impl; [exact (Forall_zip_l _ _ _ _ Hrow Hx)|].
  intros [a b] [Ha Hb]. simpl in *. by apply mul_finite_zero.
Qed.

(** A vector of zeros against a finite vector. *)
Lemma dot_zero_finite (x nrm : DimVector) :
  Forall (fun c => is_zero c = true) x ->
  Forall (fun c => isfinite c = true) nrm ->
  Dune.dot x nrm = 0%float.
Proof.
  intros Hx Hn. apply dot_acc_zero.
  eapply Forall_impl; [exact (Forall_zip_l _ _ _ _ Hx Hn)|].
  intros [a b] [Ha Hb]. simpl in *. by apply mul_zero_finite.
Qed.

Lemma mv_finite_zero (K : DimMatrix) (x : DimVector) :
  Forall (Forall (fun c => isfinite c = true)) K ->
  Forall (fun c => is_zero c = true) x ->
  Forall (fun c => is_zero c = true) (Dune.mv K x).
Proof.
  intros HK Hx. unfold Dune.mv. apply Forall_map.
  eapply Forall_impl; [exact HK|]. intros row Hrow. simpl.
  by rewrite dot_finite_zero.
Qed.

Lemma scale_zero_finite (x : DimVector) (k : Scalar) :
  Forall (fun c => is_zero c = true) x ->
  isfinite k = true ->
  Forall (fun c => is_zero c = true) (Dune.scale x k).
Proof.
  intros Hx Hk. unfold Dune.scale. apply Forall_map.
  eapply Forall_impl; [exact Hx|]. intros c Hc. simpl.
  by apply mul_zero_finite.
Qed.

Lemma lookup_total_zero (x : DimVector) (i : nat) :
  Forall (fun c => is_zero c = true) x -> is_zero (x !!! i) = true.
Proof.
  unfold DimVector, Scalar in *.
  intros Hx. rewrite list_lookup_total_alt.
  destruct (x !! i) as [c|] eqn:Hi; simpl; [|done].
  by apply (Forall_lookup_1 _ _ _ _ Hx Hi).
Qed.

(** The upwind loop on a gradient of zeros: the projection is [+0]. *)
Lemma upwindProjection_zero (g nrm : DimVector) :
  Forall (fun c => is_zero c = true) g ->
  Forall (fun c => isfinite c = true) nrm ->
  upwindProjection g nrm = 0%float.
Proof.
  intros Hg Hn. unfold upwindProjection.
  assert (Hall : Forall (fun i => is_zero ((g !!! i) * (nrm !!! i))%float
                                  = true) (seq 0 (length nrm))).
  { apply Forall_forall. intros i Hi. apply elem_of_seq in Hi.
    apply mul_zero_finite; [by apply lookup_total_zero|].
    destruct (lookup_lt_is_Some_2 nrm i) as [c Hc]; [lia|].
    rewrite (list_lookup_total_correct _ _ _ Hc).
    by apply (Forall_lookup_1 _ _ _ _ Hn Hc). }
  induction Hall as [|i l Hi Hl IH]; simpl; [done|].
  rewrite add_pzero_zero by done. apply IH.
Qed.

End ZeroGradient.

(** ** The two stages in sequence *)

Section Protocol.

Context {MaterialLawParams ParameterCache : Type}.

Implicit Types elemCtx : ElementContext MaterialLawParams ParameterCache.
Implicit Types q r : DarcyExtensiveQuantities.

(** The phase loop of the flux stage writes the two flux arrays and
    nothing else, whatever the record holds. *)
Lemma flux_loop_frame elemCtx (nrm : DimVector) (idxs : list nat) :
  forall q r,
    for_each (fluxBody elemCtx nrm) idxs q = Ok r ->
    K_ r = K_ q /\ potentialGrad_ r = potentialGrad_ q /\
    mobility_ r = mobility_ q.
Proof.
  induction idxs as [|i rest IH]; intros q r Hrun; simpl in Hrun.
  - by injection Hrun as <-.
  - unfold fluxBody at 1 in Hrun.
    destruct (negb (phaseIsConsidered elemCtx i));
      apply IH in Hrun; simpl in Hrun; done.
Qed.

(** The last loop of the interior gradient stage keeps the
    permeability tensor. *)
Lemma upwind_loop_K elemCtx (nrm : DimVector) (timeIdx : nat)
    (idxs : list nat) :
  forall q r,
    for_each (upwindBody elemCtx nrm timeIdx) idxs q = Ok r -> K_ r = K_ q.
Proof.
  induction idxs as [|i rest IH]; intros q r Hrun; simpl in Hrun.
  - by injection Hrun as <-.
  - unfold upwindBody at 1 in Hrun.
    destruct (negb (phaseIsConsidered elemCtx i)); [by apply IH in Hrun|].
    destruct (0 <? _)%float; apply IH in Hrun; simpl in Hrun; done.
Qed.

(** Every record the interior gradient stage returns holds the
    permeability tensor of the face. *)
Lemma calculateGradients_K elemCtx (faceIdx timeIdx : nat) q r :
  calculateGradients_ elemCtx faceIdx timeIdx q = Ok r ->
  K_ r = intersectionIntrinsicPermeability elemCtx faceIdx timeIdx.
Proof.
  intros Hrun. unfold calculateGradients_ in Hrun.
  apply bind_Ok_inv in Hrun as (q1 & _ & Hrun).
  apply bind_Ok_inv in Hrun as (q2 & _ & Hrun).
  by apply upwind_loop_K in Hrun.
Qed.

(** Without gravity the boundary gradient stage completes. *)
Lemma calculateBoundaryGradients_no_gravity elemCtx (faceIdx timeIdx : nat)
    (fs : FluidState) (paramCache : ParameterCache) q :
  EnableGravity elemCtx = false ->
  sized (numPhases elemCtx) q ->
  exists r,
    calculateBoundaryGradients_ elemCtx faceIdx timeIdx fs paramCache q = Ok r.
Proof.
  intros Hgr Hq. unfold calculateBoundaryGradients_.
  destruct (raw_loop elemCtx
              (fun p => calculateBoundaryGradient elemCtx faceIdx
                          {| bpc_fluidState := fs; bpc_phaseIdx := p |})
              (rawBoundaryGradientBody elemCtx faceIdx fs)
              (numPhases elemCtx) q)
    as (q1 & Hraw & Hs1 & _); [done | done |].
  rewrite Hraw, bind_Ok_l, Hgr, bind_Ok_l.
  match goal with
  | |- exists r, for_each ?body ?idxs ?s = Ok r =>
      apply (for_each_total body)
  end.
  intros i s. unfold boundaryUpwindBody.
  destruct (negb _); [eauto|]. destruct (_ <? _)%Z; eauto.
Qed.

(** C6, as the code has it.  The flux stage tests no precondition: on
    any record [q], one the gradient stage has never written included,
    it completes without an exception, on an interior face as on a
    boundary face.  It computes from what the record holds: for a
    considered phase the filter velocity is the tensor [K_ q] applied
    to the gradient [potentialGrad_ q !!! p], scaled by minus the
    mobility [mobility_ q !!! p], and the volumetric flux is the scalar
    product of that velocity with the normal of the face; for a phase
    not considered both are zero.  The tensor, the gradients and the
    mobilities are left as they were. *)
Theorem flux_stage_tests_no_precondition elemCtx (faceIdx timeIdx : nat) q :
  let velocity (p : nat) :=
    Dune.scale (Dune.mv (K_ q) (potentialGrad_ q !!! p))
               (- (mobility_ q !!! p))%float in
  (exists r,
     calculateFluxes_ elemCtx faceIdx timeIdx q = Ok r /\
     K_ r = K_ q /\ potentialGrad_ r = potentialGrad_ q /\
     mobility_ r = mobility_ q /\
     (sized (numPhases elemCtx) q ->
      forall p, (p < numPhases elemCtx)%nat ->
        (phaseIsConsidered elemCtx p = true ->
           filterVelocity_ r !! p = Some (velocity p) /\
           volumeFlux_ r !! p
             = Some (Dune.dot (velocity p)
                       (normal (interiorFace (stencil elemCtx timeIdx)
                                  faceIdx)))) /\
        (phaseIsConsidered elemCtx p = false ->
           filterVelocity_ r !! p = Some (Dune.zeros (dimWorld elemCtx)) /\
           volumeFlux_ r !! p = Some 0%float))) /\
  (exists r,
     calculateBoundaryFluxes_ elemCtx faceIdx timeIdx q = Ok r /\
     K_ r = K_ q /\ potentialGrad_ r = potentialGrad_ q /\
     mobility_ r = mobility_ q /\
     (sized (numPhases elemCtx) q ->
      forall p, (p < numPhases elemCtx)%nat ->
        (phaseIsConsidered elemCtx p = true ->
           filterVelocity_ r !! p = Some (velocity p) /\
           volumeFlux_ r !! p
             = Some (Dune.dot (velocity p)
                       (normal (boundaryFace (stencil elemCtx timeIdx)
                                  faceIdx)))) /\
        (phaseIsConsidered elemCtx p = false ->
           filterVelocity_ r !! p = Some (Dune.zeros (dimWorld elemCtx)) /\
           volumeFlux_ r !! p = Some 0%float))).
Proof.
  intros velocity. unfold calculateFluxes_, calculateBoundaryFluxes_. split.
  - destruct (for_each_total
                (fluxBody elemCtx
                   (normal (interiorFace (stencil elemCtx timeIdx) faceIdx)))
                (fluxBody_total elemCtx _) (seq 0 (numPhases elemCtx)) q)
      as [r Hr].
    exists r. split; [done|].
    destruct (flux_loop_frame _ _ _ _ _ Hr) as (HK & HG & HM).
    do 3 (split; [done|]). intros Hq.
    destruct (flux_loop elemCtx
                (normal (interiorFace (stencil elemCtx timeIdx) faceIdx))
                (numPhases elemCtx) q Hq)
      as (r' & Hr' & _ & _ & _ & _ & Hphase).
    rewrite Hr in Hr'. injection Hr' as <-. exact Hphase.
  - destruct (for_each_total
                (fluxBody elemCtx
                   (normal (boundaryFace (stencil elemCtx timeIdx) faceIdx)))
                (fluxBody_total elemCtx _) (seq 0 (numPhases elemCtx)) q)
      as [r Hr].
    exists r. split; [done|].
    destruct (flux_loop_frame _ _ _ _ _ Hr) as (HK & HG & HM).
    do 3 (split; [done|]). intros Hq.
    destruct (flux_loop elemCtx
                (normal (boundaryFace (stencil elemCtx timeIdx) faceIdx))
                (numPhases elemCtx) q Hq)
      as (r' & Hr' & _ & _ & _ & _ & Hphase).
    rewrite Hr in Hr'. injection Hr' as <-. exact Hphase.
Qed.

(** C8, as the code has it.  On a boundary face with a valid interior
    index, with gravity disabled, when the gradient calculator
    answers the prescribed state with a gradient of zeros for every
    considered phase, and the permeability tensor, the interior
    mobilities and the normal are finite, the two stages complete and
    the volumetric flux of every phase is [0.0]. *)
Theorem boundary_zero_gradient_zero_flux elemCtx (faceIdx timeIdx : nat)
    (fs : FluidState) (paramCache : ParameterCache) q :
  let scvf := boundaryFace (stencil elemCtx timeIdx) faceIdx in
  let intQuantsIn :=
    intensiveQuantities elemCtx (to_short (interiorIndex scvf)) timeIdx in
  EnableGravity elemCtx = false ->
  sized (numPhases elemCtx) q ->
  (0 <= to_short (interiorIndex scvf))%Z ->
  Forall (Forall (fun c => isfinite c = true))
         (intrinsicPermeability intQuantsIn) ->
  Forall (fun c => isfinite c = true) (normal scvf) ->
  (forall p, (p < numPhases elemCtx)%nat ->
     phaseIsConsidered elemCtx p = true ->
     Forall (fun c => is_zero c = true)
            (calculateBoundaryGradient elemCtx faceIdx
               {| bpc_fluidState := fs; bpc_phaseIdx := p |}) /\
     isfinite (mobility intQuantsIn p) = true) ->
  exists r1 r,
    calculateBoundaryGradients_ elemCtx faceIdx timeIdx fs paramCache q
      = Ok r1 /\
    calculateBoundaryFluxes_ elemCtx faceIdx timeIdx r1 = Ok r /\
    forall p, (p < numPhases elemCtx)%nat ->
      volumeFlux_ r !! p = Some 0%float.
Proof.
  intros scvf intQuantsIn Hgr Hq Hidx HK Hn Hphases.
  destruct (calculateBoundaryGradients_no_gravity elemCtx faceIdx timeIdx
              fs paramCache q Hgr Hq) as [r1 Hr1].
  destruct (calculateBoundaryGradients_spec elemCtx faceIdx timeIdx
              fs paramCache q r1 Hq Hr1)
    as (Hs1 & Hin & Hex & HK1 & Hspec).
  fold scvf in Hin, HK1, Hspec. fold intQuantsIn in HK1, Hspec.
  unfold calculateBoundaryFluxes_. fold scvf.
  destruct (flux_loop elemCtx (normal scvf) (numPhases elemCtx) r1 Hs1)
    as (r & Hr & _ & _ & _ & _ & Hflux).
  exists r1, r. repeat (split; [done|]). intros p Hp.
  destruct (Hflux p Hp) as [Hcons Hnot].
  destruct (phaseIsConsidered elemCtx p) eqn:Hc; [|by apply Hnot].
  destruct (Hcons eq_refl) as [_ Hvf].
  etransitivity; [exact Hvf|]. f_equal.
  destruct (Hphases p Hp Hc) as [Hzero Hmfin].
  destruct (Hspec p Hp Hc) as (Hgrad & _ & _ & _ & Hmob).
  unfold boundaryPotentialGrad in Hgrad. rewrite Hgr in Hgrad.
  rewrite (list_lookup_total_correct _ _ _ Hgrad) in Hmob |- *.
  rewrite upwindProjection_zero in Hmob by done.
  change (0 <? 0)%float with false in Hmob.
  rewrite Hin in Hmob.
  assert (Hsign : (to_short (interiorIndex scvf) <? 0)%Z = false)
    by (apply Z.ltb_ge; lia).
  rewrite Hsign in Hmob.
  rewrite (list_lookup_total_correct _ _ _ Hmob), HK1.
  apply dot_zero_finite; [|done].
  apply scale_zero_finite; [by apply mv_finite_zero|].
  unfold isfinite. by rewrite FloatFacts.opp_finite.
Qed.

End Protocol.

(** ** Evaluations at concrete inputs *)

(** Two lists of binary64 numbers that differ at a comparable entry
    are different: [H] equates them, [probe] computes a boolean that
    tells them apart. *)
Ltac lists_differ H probe :=
  let Hb := fresh "Hb" in
  pose proof (f_equal probe H) as Hb; vm_compute in Hb; discriminate Hb.

(** C6, as the specification words it, fails.  On the two-cell line
    the record [Examples.fresh] is no result of the gradient stage, and
    the flux stage run on it returns a record instead of failing. *)
Lemma flux_before_gradients_returns :
  let elemCtx :=
    Examples.line false 0%float 0%float 10%float 4%float in
  ~ (forall q,
       (forall q0, calculateGradients_ elemCtx 0 0 q0 <> Ok q) ->
       exists e, calculateFluxes_ elemCtx 0 0 q = Throw e).
Proof.
  intros elemCtx Hall.
  destruct (Hall Examples.fresh) as [e He].
  - intros q0 Hrun. apply calculateGradients_K in Hrun.
    lists_differ Hrun
      (fun K : DimMatrix =>
         match K with
         | [[k]] => PrimFloat.eqb k 7%float
         | _ => false
         end).
  - vm_compute in He. discriminate He.
Qed.

(** C8, as the specification words it, fails.  On the two-cell line
    with gravity enabled the prescribed state is the interior state,
    and the volumetric flux of phase 0 across the boundary face is
    60000. *)
Lemma matching_boundary_state_nonzero_flux :
  let elemCtx :=
    Examples.line true (-10)%float (-10)%float 10%float 10%float in
  ~ (forall (fs : FluidState) q r1 r (p : nat),
       fs = fluidState (intensiveQuantities elemCtx 0 0) ->
       calculateBoundaryGradients_ elemCtx 0 0 fs tt q = Ok r1 ->
       calculateBoundaryFluxes_ elemCtx 0 0 r1 = Ok r ->
       (p < numPhases elemCtx)%nat ->
       exists v, volumeFlux_ r !! p = Some v /\ is_zero v = true).
Proof.
  intros elemCtx Hall.
  destruct (Hall (fluidState (intensiveQuantities elemCtx 0 0))
              Examples.fresh
              {| K_ := [[3%float]];
                 interiorDofIdx_ := 0;
                 exteriorDofIdx_ := -1;
                 upstreamDofIdx_ := [0; 14];
                 downstreamDofIdx_ := [-1; 16];
                 mobility_ := [2%float; 5%float];
                 filterVelocity_ := [[9%float]; [9%float]];
                 volumeFlux_ := [9%float; 9%float];
                 potentialGrad_ := [[(-10000)%float]; [4%float]] |}
              {| K_ := [[3%float]];
                 interiorDofIdx_ := 0;
                 exteriorDofIdx_ := -1;
                 upstreamDofIdx_ := [0; 14];
                 downstreamDofIdx_ := [-1; 16];
                 mobility_ := [2%float; 5%float];
                 filterVelocity_ := [[60000%float]; [0%float]];
                 volumeFlux_ := [60000%float; 0%float];
                 potentialGrad_ := [[(-10000)%float]; [4%float]] |}
              0%nat)
    as (v & Hv & Hzero).
  - reflexivity.
  - vm_compute. reflexivity.
  - vm_compute. reflexivity.
  - vm_compute. lia.
  - vm_compute in Hv. injection Hv as <-. vm_compute in Hzero.
    discriminate Hzero.
Qed.

(** C4.  On a two-cell line with the face a quarter of the way from
    the interior centre and accelerations [-10] and [-9] at the two
    centres, the correction the code adds is 9250: each hydrostatic
    pressure uses the acceleration of its own control volume.  With
    the arithmetic mean of the two accelerations it would be 9500 when
    the displacement is measured as the code measures it, from the
    integration point to the centre, and -9500 when it is measured
    from the centre to the integration point, as the specification
    words it.  The code gives neither. *)
Theorem hydrostatic_correction_uses_each_side_gravity :
  let elemCtx :=
    Examples.lineAt 0.25%float true (-10)%float (-9)%float
      10%float 10%float in
  let scvf := interiorFace (stencil elemCtx 0) 0 in
  interiorCorrection elemCtx scvf 0 0 1 0 = [9250%float] /\
  interiorCorrection_spec_reversed elemCtx scvf 0 0 1 0 = [9500%float] /\
  interiorCorrection_spec elemCtx scvf 0 0 1 0 = [(-9500)%float] /\
  interiorCorrection elemCtx scvf 0 0 1 0
    <> interiorCorrection_spec_reversed elemCtx scvf 0 0 1 0 /\
  interiorCorrection elemCtx scvf 0 0 1 0
    <> interiorCorrection_spec elemCtx scvf 0 0 1 0 /\
  exists r,
    calculateGradients_ elemCtx 0 0 Examples.fresh = Ok r /\
    potentialGrad_ r !! 0%nat = Some [9250%float].
Proof.
  intros elemCtx scvf. split; [vm_compute; reflexivity|].
  split; [vm_compute; reflexivity|].
  split; [vm_compute; reflexivity|].
  split.
  { intros Heq. vm_compute in Heq.
    lists_differ Heq
      (fun v : DimVector =>
         match v with
         | [x] => PrimFloat.eqb x 9250%float
         | _ => false
         end). }
  split.
  { intros Heq. vm_compute in Heq.
    lists_differ Heq
      (fun v : DimVector =>
         match v with
         | [x] => PrimFloat.eqb x 9250%float
         | _ => false
         end). }
  eexists. split; vm_compute; reflexivity.
Qed.

(** Without the file, or with a first line other than [true],
    [makeEvaluation] does what its documentation says. *)
Lemma makeEvaluation_without_flag {Evaluation : Type}
    (toolbox : Toolbox Evaluation) (files : FileSystem)
    (self : list Scalar) (varIdx timeIdx : nat) :
  match files "/home/joakimra/yesno.txt"%string with
  | Some content => String.eqb (firstLine content) "true" = false
  | None => True
  end ->
  makeEvaluation toolbox files self varIdx timeIdx
    = makeEvaluation_documented toolbox self varIdx timeIdx.
Proof.
  unfold makeEvaluation, makeEvaluation_documented.
  destruct (files _) as [content|]; [intros -> | intros _]; reflexivity.
Qed.

(** C10.  The same primary variables, variable index and time index
    give two different evaluations under two file systems: with
    [/home/joakimra/yesno.txt] holding [true], [makeEvaluation] at time
    index 0 returns the constant, with all derivatives zero, where its
    documentation and the run without the file give the variable. *)
Theorem makeEvaluation_depends_on_file :
  let toolbox := Examples.denseAdToolbox 2 in
  let priVars := [3%float; 4%float] in
  makeEvaluation toolbox Examples.noFile priVars 1 0
    = {| Examples.value := 4%float;
         Examples.derivatives := [0%float; 1%float] |} /\
  makeEvaluation toolbox Examples.yesFile priVars 1 0
    = {| Examples.value := 4%float;
         Examples.derivatives := [0%float; 0%float] |} /\
  makeEvaluation_documented toolbox priVars 1 0
    = {| Examples.value := 4%float;
         Examples.derivatives := [0%float; 1%float] |} /\
  makeEvaluation toolbox Examples.noFile priVars 1 0
    <> makeEvaluation toolbox Examples.yesFile priVars 1 0 /\
  makeEvaluation toolbox Examples.yesFile priVars 1 0
    <> makeEvaluation_documented toolbox priVars 1 0.
Proof.
  intros toolbox priVars.
  repeat (split; [vm_compute; reflexivity|]).
  split; intros Heq; vm_compute in Heq;
    lists_differ Heq
      (fun e : Examples.DenseAd =>
         match Examples.derivatives e with
         | [_; d] => PrimFloat.eqb d 1%float
         | _ => false
         end).
Qed.

(** The finiteness test belongs to the gravity branch: with gravity
    disabled a gradient that is not finite passes the gradient stage
    and reaches the flux. *)
Lemma gravity_disabled_skips_finiteness_test :
  let elemCtx :=
    Examples.line false 0%float 0%float infinity 4%float in
  exists r,
    calculateGradients_ elemCtx 0 0 Examples.fresh
      ≫= calculateFluxes_ elemCtx 0 0 = Ok r /\
    potentialGrad_ r !! 0%nat = Some [neg_infinity] /\
    volumeFlux_ r !! 0%nat = Some infinity.
Proof.
  intros elemCtx. eexists. split; [vm_compute; reflexivity|].
  split; reflexivity.
Qed.

(** C5, as the specification words it, fails.  On the two-cell line
    with gravity disabled the potential gradient of phase 0 is minus
    infinity, and the gradient stage returns a record instead of
    failing. *)
Lemma nonfinite_gradient_passes_without_gravity :
  let elemCtx :=
    Examples.line false 0%float 0%float infinity 4%float in
  ~ (forall q (p : nat) (c : Scalar),
       sized (numPhases elemCtx) q ->
       (p < numPhases elemCtx)%nat ->
       phaseIsConsidered elemCtx p = true ->
       c ∈ interiorPotentialGrad elemCtx 0 0 p ->
       isfinite c = false ->
       exists e, calculateGradients_ elemCtx 0 0 q = Throw e).
Proof.
  intros elemCtx Hall.
  destruct (Hall Examples.fresh 0%nat neg_infinity) as [e He].
  - repeat split.
  - simpl. lia.
  - reflexivity.
  - exact (list_elem_of_here neg_infinity []).
  - reflexivity.
  - vm_compute in He. discriminate He.
Qed.

(** ** The theorems at the two-cell line *)

Lemma sized_fresh : sized 2 Examples.fresh.
Proof. repeat split. Defined.

Lemma flux_stage_darcy_relation_witness :
  let elemCtx := Examples.line false 0%float 0%float 10%float 4%float in
  K_ Examples.fresh = [[7%float]] /\
  potentialGrad_ Examples.fresh !! 0%nat = Some [4%float] /\
  mobility_ Examples.fresh !! 0%nat = Some 5%float /\
  exists r,
    calculateFluxes_ elemCtx 0 0 Examples.fresh = Ok r /\
    filterVelocity_ r !! 0%nat = Some [(-140)%float] /\
    volumeFlux_ r !! 0%nat = Some (-140)%float /\
    K_ r = [[7%float]] /\
    potentialGrad_ r = potentialGrad_ Examples.fresh /\
    mobility_ r = mobility_ Examples.fresh.
Proof.
  intros elemCtx. do 3 (split; [reflexivity|]).
  refine (proj1 (flux_stage_darcy_relation elemCtx 0 0 0 Examples.fresh
                   sized_fresh _ _)).
  - simpl. lia.
  - reflexivity.
Defined.

Lemma flux_stage_unconsidered_phase_zero_witness :
  let elemCtx := Examples.line false 0%float 0%float 10%float 4%float in
  exists r,
    calculateBoundaryFluxes_ elemCtx 0 0 Examples.fresh = Ok r /\
    filterVelocity_ r !! 1%nat = Some [0%float] /\
    volumeFlux_ r !! 1%nat = Some 0%float.
Proof.
  intros elemCtx.
  refine (proj2 (flux_stage_unconsidered_phase_zero elemCtx 0 0 1
                   Examples.fresh sized_fresh _ _)).
  - simpl. lia.
  - reflexivity.
Defined.

Lemma upwind_direction_rule_witness :
  let elemCtx := Examples.line false 0%float 0%float 10%float 4%float in
  (exists r,
     calculateGradients_ elemCtx 0 0 Examples.fresh = Ok r /\
     potentialGrad_ r !! 0%nat = Some [(-6)%float] /\
     Dune.dot [(-6)%float] (normal (interiorFace (stencil elemCtx 0) 0))
       = (-6)%float /\
     upstreamDofIdx_ r !! 0%nat = Some 0 /\
     downstreamDofIdx_ r !! 0%nat = Some 1) /\
  (exists r,
     calculateBoundaryGradients_ elemCtx 0 0 (Examples.stateAt 12%float) tt
       Examples.fresh = Ok r /\
     potentialGrad_ r !! 0%nat = Some [2%float] /\
     Dune.dot [2%float] (normal (boundaryFace (stencil elemCtx 0) 0))
       = 2%float /\
     upstreamDofIdx_ r !! 0%nat = Some (-1) /\
     downstreamDofIdx_ r !! 0%nat = Some 0).
Proof.
  intros elemCtx.
  destruct (upwind_direction_rule elemCtx 0 0 0 (Examples.stateAt 12%float)
              tt Examples.fresh sized_fresh)
    as [Hinterior Hboundary]; [simpl; lia | reflexivity |].
  split.
  - eexists. split; [vm_compute; reflexivity|].
    split; [reflexivity|]. split; [reflexivity|].
    refine (proj1 (proj2 (proj2 (proj2 (proj2
              (Hinterior _ _ eq_refl eq_refl)))))  _);
      vm_compute; reflexivity.
  - eexists. split; [vm_compute; reflexivity|].
    split; [reflexivity|]. split; [reflexivity|].
    refine (proj1 (proj2 (proj2 (proj2 (Hboundary _ _ eq_refl eq_refl)))) _);
      vm_compute; reflexivity.
Defined.


Lemma boundary_mobility_by_upstream_side_witness :
  let elemCtx := Examples.line false 0%float 0%float 10%float 4%float in
  (exists r,
     calculateBoundaryGradients_ elemCtx 0 0 (Examples.stateAt 12%float) tt
       Examples.fresh = Ok r /\
     upstreamDofIdx_ r !! 0%nat = Some (-1) /\
     mobility_ r !! 0%nat = Some 4%float) /\
  (exists r,
     calculateBoundaryGradients_ elemCtx 0 0 (Examples.stateAt 8%float) tt
       Examples.fresh = Ok r /\
     upstreamDofIdx_ r !! 0%nat = Some 0 /\
     mobility_ r !! 0%nat = Some 2%float).
Proof.
  intros elemCtx. split.
  - eexists. split; [vm_compute; reflexivity|].
    split; [reflexivity|].
    refine (proj1 (boundary_mobility_by_upstream_side elemCtx 0 0 0
                     (Examples.stateAt 12%float) tt Examples.fresh _
                     sized_fresh _ _ _ _) _).
    + simpl. lia.
    + reflexivity.
    + vm_compute. discriminate.
    + vm_compute. reflexivity.
    + reflexivity.
  - eexists. split; [vm_compute; reflexivity|].
    split; [reflexivity|].
    refine (proj1 (proj2 (boundary_mobility_by_upstream_side elemCtx 0 0 0
                     (Examples.stateAt 8%float) tt Examples.fresh _
                     sized_fresh _ _ _ _)) _).
    + simpl. lia.
    + reflexivity.
    + vm_compute. discriminate.
    + vm_compute. reflexivity.
    + reflexivity.
Defined.

Lemma nonfinite_gradient_throws_witness :
  let elemCtx :=
    Examples.line true (-10)%float (-9)%float infinity 4%float in
  isfinite neg_infinity = false /\
  neg_infinity ∈ interiorPotentialGrad elemCtx 0 0 0 /\
  calculateGradients_ elemCtx 0 0 Examples.fresh
    = Throw (Opm_NumericalProblem
               "Non finite potential gradient for phase 'water'") /\
  calculateGradients_ elemCtx 0 0 Examples.fresh
    ≫= calculateFluxes_ elemCtx 0 0
    = Throw (Opm_NumericalProblem
               "Non finite potential gradient for phase 'water'").
Proof.
  intros elemCtx.
  assert (Hin : neg_infinity ∈ interiorPotentialGrad elemCtx 0 0 0)
    by exact (list_elem_of_here neg_infinity []).
  split; [reflexivity|]. split; [exact Hin|].
  destruct (proj1 (nonfinite_gradient_throws elemCtx 0 0 0
                     (Examples.stateAt 10%float) tt Examples.fresh
                     neg_infinity eq_refl sized_fresh
                     (le_S 1 1 (le_n 1)) eq_refl eq_refl) Hin)
    as (k & Hk & _ & _ & _ & Hthrow & Hseq & _).
  assert (Hk0 : k = 0%nat) by lia. subst k.
  split; [exact Hthrow | exact Hseq].
Defined.

Lemma flux_stage_tests_no_precondition_witness :
  let elemCtx := Examples.line false 0%float 0%float 10%float 4%float in
  exists r,
    calculateFluxes_ elemCtx 0 0 Examples.fresh = Ok r /\
    filterVelocity_ r = [[(-140)%float]; [0%float]] /\
    volumeFlux_ r = [(-140)%float; 0%float] /\
    filterVelocity_ r !! 0%nat
      = Some (Dune.scale
                (Dune.mv (K_ Examples.fresh)
                   (potentialGrad_ Examples.fresh !!! 0%nat))
                (- (mobility_ Examples.fresh !!! 0%nat))%float) /\
    filterVelocity_ r !! 1%nat = Some [0%float].
Proof.
  intros elemCtx.
  destruct (proj1 (flux_stage_tests_no_precondition elemCtx 0 0
                     Examples.fresh))
    as (r & Hr & _ & _ & _ & Hvalues).
  exists r. split; [exact Hr|].
  assert (Hrun : Ok r
                 = Ok {| K_ := [[7%float]];
                         interiorDofIdx_ := 11;
                         exteriorDofIdx_ := 12;
                         upstreamDofIdx_ := [13; 14];
                         downstreamDofIdx_ := [15; 16];
                         mobility_ := [5%float; 5%float];
                         filterVelocity_ := [[(-140)%float]; [0%float]];
                         volumeFlux_ := [(-140)%float; 0%float];
                         potentialGrad_ := [[4%float]; [4%float]] |})
    by (rewrite <- Hr; vm_compute; reflexivity).
  injection Hrun as ->.
  split; [reflexivity|]. split; [reflexivity|].
  split.
  - exact (proj1 (proj1 (Hvalues sized_fresh 0%nat (le_S 1 1 (le_n 1)))
                    eq_refl)).
  - exact (proj1 (proj2 (Hvalues sized_fresh 1%nat (le_n 2)) eq_refl)).
Defined.

Lemma boundary_zero_gradient_zero_flux_witness :
  let elemCtx :=
    Examples.line false (-10)%float (-10)%float 10%float 10%float in
  Examples.stateAt 10%float = fluidState (intensiveQuantities elemCtx 0 0) /\
  exists r1 r,
    calculateBoundaryGradients_ elemCtx 0 0 (Examples.stateAt 10%float) tt
      Examples.fresh = Ok r1 /\
    calculateBoundaryFluxes_ elemCtx 0 0 r1 = Ok r /\
    forall p, (p < 2)%nat -> volumeFlux_ r !! p = Some 0%float.
Proof.
  intros elemCtx. split; [reflexivity|].
  refine (boundary_zero_gradient_zero_flux elemCtx 0 0
            (Examples.stateAt 10%float) tt Examples.fresh
            eq_refl sized_fresh _ _ _ _).
  - vm_compute. discriminate.
  - repeat constructor.
  - repeat constructor.
  - intros p Hp Hc. destruct p as [|[|p]].
    + split; [|reflexivity]. vm_compute. repeat constructor.
    + discriminate Hc.
    + simpl in Hp. lia.
Defined.

(** * Further properties of the flux module *)

(** ** When the gradient stage completes and when it throws *)

Section GradientOutcome.

Context {MaterialLawParams ParameterCache : Type}.

Implicit Types elemCtx : ElementContext MaterialLawParams ParameterCache.
Implicit Types q r : DarcyExtensiveQuantities.

(** An exception of the gravity loop comes from the first considered
    phase that fails the finiteness test. *)
Lemma gravity_loop_throw_inv elemCtx (f : nat -> DimVector) n m :
  forall a s e,
    sized n s -> (a + m <= n)%nat ->
    for_each (gravityBody elemCtx f) (seq a m) s = Throw e ->
    exists k, (a <= k < a + m)%nat /\
      phaseIsConsidered elemCtx k = true /\
      isfinite (Dune.two_norm (Dune.add (potentialGrad_ s !!! k) (f k)))
        = false /\
      (forall j, (a <= j < k)%nat -> phaseIsConsidered elemCtx j = true ->
         isfinite (Dune.two_norm (Dune.add (potentialGrad_ s !!! j) (f j)))
           = true) /\
      e = Opm_NumericalProblem (nonFiniteMessage elemCtx k).
Proof.
  induction m as [|m IH]; intros a s e Hs Ham Hrun; simpl in Hrun;
    [discriminate|].
  unfold gravityBody at 1 in Hrun.
  assert (Hl : (a < length (potentialGrad_ s))%nat)
    by (unfold sized in Hs; lia).
  destruct (phaseIsConsidered elemCtx a) eqn:Hca; simpl in Hrun.
  - rewrite list_lookup_total_insert_eq in Hrun by done.
    destruct (isfinite
                (Dune.two_norm (Dune.add (potentialGrad_ s !!! a) (f a))))
      eqn:Hfa; simpl in Hrun.
    + apply IH in Hrun as (k & Hk & Hck & Hbk & Hmin & He);
        [| unfold_sized; intuition | lia].
      simpl in Hbk, Hmin.
      rewrite list_lookup_total_insert_ne in Hbk by lia.
      exists k. split; [lia|]. repeat (split; [done|]). split; [|done].
      intros j Hj Hcj. destruct (decide (j = a)) as [->|Hja]; [done|].
      specialize (Hmin j).
      rewrite list_lookup_total_insert_ne in Hmin by done.
      apply Hmin; [lia | done].
    + injection Hrun as <-. exists a. split; [lia|].
      repeat (split; [done|]). split; [|done]. intros j Hj. lia.
  - apply IH in Hrun as (k & Hk & Hck & Hbk & Hmin & He); [| done | lia].
    exists k. split; [lia|]. repeat (split; [done|]). split; [|done].
    intros j Hj Hcj. destruct (decide (j = a)) as [->|Hja]; [congruence|].
    apply Hmin; [lia | done].
Qed.

(** The gravity loop followed by a part that cannot fail: the three
    facts about its outcome shared by the two variants. *)
Lemma gravity_then_total elemCtx (f : nat -> DimVector) (n : nat)
    (tail : DarcyExtensiveQuantities -> result DarcyExtensiveQuantities)
    (g : bool) q1 :
  (forall s, sized n s -> exists r, tail s = Ok r) ->
  sized n q1 ->
  let passes := fun p =>
    isfinite (Dune.two_norm (Dune.add (potentialGrad_ q1 !!! p) (f p))) in
  let stage :=
    (if g then for_each (gravityBody elemCtx f) (seq 0 n) q1 else Ok q1)
      ≫= tail in
  (forall e, stage = Throw e ->
     g = true /\
     exists k, (k < n)%nat /\ phaseIsConsidered elemCtx k = true /\
       passes k = false /\
       (forall j, (j < k)%nat -> phaseIsConsidered elemCtx j = true ->
          passes j = true) /\
       e = Opm_NumericalProblem (nonFiniteMessage elemCtx k)) /\
  ((exists r, stage = Ok r) <->
   g = false \/
   forall p, (p < n)%nat -> phaseIsConsidered elemCtx p = true ->
     passes p = true).
Proof.
  intros Htail Hq1 passes stage. subst stage. destruct g.
  - destruct (for_each (gravityBody elemCtx f) (seq 0 n) q1) as [q2|e']
      eqn:Hloop.
    + pose proof (gravity_loop_ok _ _ _ _ _ Hq1 Hloop)
        as (Hs2 & _ & _ & _ & Hg2).
      destruct (Htail q2 Hs2) as [r Hr]. rewrite bind_Ok_l.
      split.
      * intros e He. congruence.
      * split; [intros _; right | intros _; eauto].
        intros p Hp Hc. destruct (Hg2 p Hp) as [Hcons _].
        by destruct (Hcons Hc).
    + apply gravity_loop_throw_inv with (n := n) in Hloop
        as (k & Hk & Hck & Hbk & Hmin & ->); [| done | lia].
      rewrite bind_Throw_l. split.
      * intros e [= <-]. split; [done|]. exists k.
        split; [lia|]. repeat (split; [done|]). split; [|done].
        intros j Hj. apply Hmin. lia.
      * split; [intros [r Hr]; discriminate|].
        intros [Hg|Hall]; [discriminate|].
        unfold passes in Hall. rewrite Hall in Hbk by (done || lia).
        discriminate.
  - destruct (Htail q1 Hq1) as [r Hr]. rewrite bind_Ok_l. split.
    + intros e He. congruence.
    + split; [by left | eauto].
Qed.

(** The interior gradient stage as its first loop followed by the
    gravity loop and the upwind loop. *)
Lemma calculateGradients_stages elemCtx (faceIdx timeIdx : nat) q :
  sized (numPhases elemCtx) q ->
  let scvf := interiorFace (stencil elemCtx timeIdx) faceIdx in
  exists q1,
    sized (numPhases elemCtx) q1 /\
    (forall p, (p < numPhases elemCtx)%nat ->
       phaseIsConsidered elemCtx p = true ->
       potentialGrad_ q1 !!! p
         = calculateGradient elemCtx faceIdx {| pc_phaseIdx := p |}) /\
    calculateGradients_ elemCtx faceIdx timeIdx q
      = (if EnableGravity elemCtx then
           for_each
             (gravityBody elemCtx
                (interiorCorrection elemCtx scvf timeIdx
                   (to_short (interiorIndex scvf))
                   (to_short (exteriorIndex scvf))))
             (seq 0 (numPhases elemCtx)) q1
         else Ok q1)
        ≫= (fun q2 =>
              for_each (upwindBody elemCtx (normal scvf) timeIdx)
                (seq 0 (numPhases elemCtx))
                (set_K_
                   (intersectionIntrinsicPermeability elemCtx faceIdx timeIdx)
                   q2)).
Proof.
  intros Hq scvf. unfold calculateGradients_. fold scvf.
  set (q0 := set_dofIdx_ (to_short (interiorIndex scvf))
                         (to_short (exteriorIndex scvf)) q).
  assert (Hq0 : sized (numPhases elemCtx) q0) by (by unfold_sized).
  destruct (raw_loop elemCtx
              (fun p => calculateGradient elemCtx faceIdx
                          {| pc_phaseIdx := p |})
              (rawGradientBody elemCtx faceIdx) (numPhases elemCtx) q0)
    as (q1 & Hraw & Hs1 & Hin1 & Hex1 & Hg1); [done | done |].
  exists q1. split; [done|]. split.
  - intros p Hp Hc. apply list_lookup_total_correct. by apply (Hg1 p Hp).
  - rewrite Hraw, bind_Ok_l, Hin1, Hex1. reflexivity.
Qed.

(** The same for the boundary gradient stage. *)
Lemma calculateBoundaryGradients_stages elemCtx (faceIdx timeIdx : nat)
    (fs : FluidState) (paramCache : ParameterCache) q :
  sized (numPhases elemCtx) q ->
  let scvf := boundaryFace (stencil elemCtx timeIdx) faceIdx in
  let intQuantsIn :=
    intensiveQuantities elemCtx (to_short (interiorIndex scvf)) timeIdx in
  exists q1,
    sized (numPhases elemCtx) q1 /\
    (forall p, (p < numPhases elemCtx)%nat ->
       phaseIsConsidered elemCtx p = true ->
       potentialGrad_ q1 !!! p
         = calculateBoundaryGradient elemCtx faceIdx
             {| bpc_fluidState := fs; bpc_phaseIdx := p |}) /\
    calculateBoundaryGradients_ elemCtx faceIdx timeIdx fs paramCache q
      = (if EnableGravity elemCtx then
           for_each
             (gravityBody elemCtx
                (boundaryCorrection elemCtx scvf timeIdx
                   (to_short (interiorIndex scvf))))
             (seq 0 (numPhases elemCtx)) q1
         else Ok q1)
        ≫= (fun q2 =>
              for_each
                (boundaryUpwindBody elemCtx (normal scvf) intQuantsIn
                   (relativePermeabilities elemCtx
                      (materialLawParams elemCtx (interiorDofIdx_ q2) timeIdx)
                      fs)
                   fs paramCache)
                (seq 0 (numPhases elemCtx)) q2).
Proof.
  intros Hq scvf intQuantsIn. unfold calculateBoundaryGradients_. fold scvf.
  destruct (raw_loop elemCtx
              (fun p => calculateBoundaryGradient elemCtx faceIdx
                          {| bpc_fluidState := fs; bpc_phaseIdx := p |})
              (rawBoundaryGradientBody elemCtx faceIdx fs)
              (numPhases elemCtx) q)
    as (q1 & Hraw & Hs1 & _ & _ & Hg1); [done | done |].
  exists (set_K_ (intrinsicPermeability intQuantsIn)
            (set_dofIdx_ (to_short (interiorIndex scvf)) (-1) q1)).
  split; [by unfold_sized|]. split.
  - intros p Hp Hc. simpl. apply list_lookup_total_correct.
    by apply (Hg1 p Hp).
  - rewrite Hraw, bind_Ok_l. reflexivity.
Qed.

Lemma upwind_tail_total elemCtx (nrm : DimVector) (timeIdx : nat)
    (K : DimMatrix) (n : nat) :
  forall s, sized n s ->
    exists r,
      for_each (upwindBody elemCtx nrm timeIdx) (seq 0 n) (set_K_ K s) = Ok r.
Proof.
  intros s Hs.
  destruct (upwind_loop elemCtx nrm timeIdx n (set_K_ K s)) as (r & Hr & _);
    [by unfold_sized | eauto].
Qed.

Lemma boundary_upwind_tail_total elemCtx (nrm : DimVector) (timeIdx : nat)
    (intQuantsIn : IntensiveQuantities) (fs : FluidState)
    (paramCache : ParameterCache) (n : nat) :
  forall s, sized n s ->
    exists r,
      for_each
        (boundaryUpwindBody elemCtx nrm intQuantsIn
           (relativePermeabilities elemCtx
              (materialLawParams elemCtx (interiorDofIdx_ s) timeIdx) fs)
           fs paramCache)
        (seq 0 n) s = Ok r.
Proof.
  intros s Hs.
  destruct (boundary_upwind_loop elemCtx nrm intQuantsIn
              (relativePermeabilities elemCtx
                 (materialLawParams elemCtx (interiorDofIdx_ s) timeIdx) fs)
              fs paramCache n s) as (r & Hr & _); [done | eauto].
Qed.

End GradientOutcome.

Section GradientOutcomeTheorems.

Context {MaterialLawParams ParameterCache : Type}.

Implicit Types elemCtx : ElementContext MaterialLawParams ParameterCache.
Implicit Types q r : DarcyExtensiveQuantities.

(** A component whose square is not finite, be it infinite, not a
    number, or finite and too large to square, makes the Euclidean
    norm not finite. *)
Lemma two_norm_square_nonfinite (a : DimVector) (c : Scalar) :
  c ∈ a -> isfinite (c * c)%float = false ->
  isfinite (Dune.two_norm a) = false.
Proof.
  intros Hin Hc. unfold Dune.two_norm, Dune.two_norm2, isfinite.
  apply FloatFacts.sqrt_nonfinite. generalize 0%float as acc.
  induction Hin as [c a | c d a Hin IH]; intros acc; simpl.
  - apply two_norm2_acc_nonfinite. by apply FloatFacts.add_nonfinite_r.
  - by apply IH.
Qed.

(** Outcome of the interior gradient stage. *)
Lemma calculateGradients_outcome elemCtx (faceIdx timeIdx : nat) q :
  sized (numPhases elemCtx) q ->
  let passes := fun p =>
    isfinite (Dune.two_norm (interiorPotentialGrad elemCtx faceIdx timeIdx p))
  in
  (forall e, calculateGradients_ elemCtx faceIdx timeIdx q = Throw e ->
     EnableGravity elemCtx = true /\
     exists k, (k < numPhases elemCtx)%nat /\
       phaseIsConsidered elemCtx k = true /\
       passes k = false /\
       (forall j, (j < k)%nat -> phaseIsConsidered elemCtx j = true ->
          passes j = true) /\
       e = Opm_NumericalProblem (nonFiniteMessage elemCtx k)) /\
  ((exists r, calculateGradients_ elemCtx faceIdx timeIdx q = Ok r) <->
   EnableGravity elemCtx = false \/
   forall p, (p < numPhases elemCtx)%nat ->
     phaseIsConsidered elemCtx p = true -> passes p = true).
Proof.
  intros Hq passes.
  destruct (calculateGradients_stages elemCtx faceIdx timeIdx q Hq)
    as (q1 & Hs1 & Hval & ->).
  set (scvf := interiorFace (stencil elemCtx timeIdx) faceIdx) in *.
  pose proof (gravity_then_total elemCtx
                (interiorCorrection elemCtx scvf timeIdx
                   (to_short (interiorIndex scvf))
                   (to_short (exteriorIndex scvf)))
                (numPhases elemCtx)
                (fun q2 =>
                   for_each (upwindBody elemCtx (normal scvf) timeIdx)
                     (seq 0 (numPhases elemCtx))
                     (set_K_
                        (intersectionIntrinsicPermeability elemCtx faceIdx
                           timeIdx) q2))
                (EnableGravity elemCtx) q1
                (upwind_tail_total elemCtx _ _ _ _) Hs1) as [Hthrow Hiff].
  assert (Hpass : EnableGravity elemCtx = true ->
            forall p, (p < numPhases elemCtx)%nat ->
              phaseIsConsidered elemCtx p = true ->
              passes p
              = isfinite
                  (Dune.two_norm
                     (Dune.add (potentialGrad_ q1 !!! p)
                        (interiorCorrection elemCtx scvf timeIdx
                           (to_short (interiorIndex scvf))
                           (to_short (exteriorIndex scvf)) p)))).
  { intros Hgr p Hp Hc. unfold passes, interiorPotentialGrad.
    fold scvf. rewrite Hgr, Hval by done. done. }
  split.
  - intros e He. destruct (Hthrow e He)
      as (Hgr & k & Hk & Hck & Hbk & Hmin & ->).
    split; [done|]. exists k. split; [done|]. split; [done|].
    split; [by rewrite Hpass|]. split; [|done].
    intros j Hj Hcj. rewrite Hpass by (done || lia). by apply Hmin.
  - rewrite Hiff. split; (intros [Hg|Hall]; [by left|]).
    + destruct (EnableGravity elemCtx) eqn:Hgr; [|by left].
      right. intros p Hp Hc. rewrite Hpass by done. by apply Hall.
    + destruct (EnableGravity elemCtx) eqn:Hgr; [|by left].
      right. intros p Hp Hc. rewrite <- Hpass by done. by apply Hall.
Qed.

(** Outcome of the boundary gradient stage. *)
Lemma calculateBoundaryGradients_outcome elemCtx (faceIdx timeIdx : nat)
    (fs : FluidState) (paramCache : ParameterCache) q :
  sized (numPhases elemCtx) q ->
  let passes := fun p =>
    isfinite
      (Dune.two_norm (boundaryPotentialGrad elemCtx faceIdx timeIdx fs p))
  in
  (forall e,
     calculateBoundaryGradients_ elemCtx faceIdx timeIdx fs paramCache q
       = Throw e ->
     EnableGravity elemCtx = true /\
     exists k, (k < numPhases elemCtx)%nat /\
       phaseIsConsidered elemCtx k = true /\
       passes k = false /\
       (forall j, (j < k)%nat -> phaseIsConsidered elemCtx j = true ->
          passes j = true) /\
       e = Opm_NumericalProblem (nonFiniteMessage elemCtx k)) /\
  ((exists r,
      calculateBoundaryGradients_ elemCtx faceIdx timeIdx fs paramCache q
        = Ok r) <->
   EnableGravity elemCtx = false \/
   forall p, (p < numPhases elemCtx)%nat ->
     phaseIsConsidered elemCtx p = true -> passes p = true).
Proof.
  intros Hq passes.
  destruct (calculateBoundaryGradients_stages elemCtx faceIdx timeIdx
              fs paramCache q Hq) as (q1 & Hs1 & Hval & ->).
  set (scvf := boundaryFace (stencil elemCtx timeIdx) faceIdx) in *.
  set (intQuantsIn :=
         intensiveQuantities elemCtx (to_short (interiorIndex scvf)) timeIdx)
    in *.
  pose proof (gravity_then_total elemCtx
                (boundaryCorrection elemCtx scvf timeIdx
                   (to_short (interiorIndex scvf)))
                (numPhases elemCtx)
                (fun q2 =>
                   for_each
                     (boundaryUpwindBody elemCtx (normal scvf) intQuantsIn
                        (relativePermeabilities elemCtx
                           (materialLawParams elemCtx (interiorDofIdx_ q2)
                              timeIdx) fs)
                        fs paramCache)
                     (seq 0 (numPhases elemCtx)) q2)
                (EnableGravity elemCtx) q1
                (boundary_upwind_tail_total elemCtx _ _ _ _ _ _) Hs1)
    as [Hthrow Hiff].
  assert (Hpass : EnableGravity elemCtx = true ->
            forall p, (p < numPhases elemCtx)%nat ->
              phaseIsConsidered elemCtx p = true ->
              passes p
              = isfinite
                  (Dune.two_norm
                     (Dune.add (potentialGrad_ q1 !!! p)
                        (boundaryCorrection elemCtx scvf timeIdx
                           (to_short (interiorIndex scvf)) p)))).
  { intros Hgr p Hp Hc. unfold passes, boundaryPotentialGrad.
    fold scvf. rewrite Hgr, Hval by done. done. }
  split.
  - intros e He. destruct (Hthrow e He)
      as (Hgr & k & Hk & Hck & Hbk & Hmin & ->).
    split; [done|]. exists k. split; [done|]. split; [done|].
    split; [by rewrite Hpass|]. split; [|done].
    intros j Hj Hcj. rewrite Hpass by (done || lia). by apply Hmin.
  - rewrite Hiff. split; (intros [Hg|Hall]; [by left|]).
    + destruct (EnableGravity elemCtx) eqn:Hgr; [|by left].
      right. intros p Hp Hc. rewrite Hpass by done. by apply Hall.
    + destruct (EnableGravity elemCtx) eqn:Hgr; [|by left].
      right. intros p Hp Hc. rewrite <- Hpass by done. by apply Hall.
Qed.

(** X1.  With gravity disabled neither variant of the gradient stage
    can throw, and the potential gradient stored for a considered
    phase is the gradient of the gradient calculator, unchanged. *)
Theorem gradient_stage_without_gravity elemCtx (faceIdx timeIdx : nat)
    (fs : FluidState) (paramCache : ParameterCache) q :
  EnableGravity elemCtx = false ->
  sized (numPhases elemCtx) q ->
  (exists r,
     calculateGradients_ elemCtx faceIdx timeIdx q = Ok r /\
     forall p, (p < numPhases elemCtx)%nat ->
       phaseIsConsidered elemCtx p = true ->
       potentialGrad_ r !! p
         = Some (calculateGradient elemCtx faceIdx {| pc_phaseIdx := p |})) /\
  (exists r,
     calculateBoundaryGradients_ elemCtx faceIdx timeIdx fs paramCache q
       = Ok r /\
     forall p, (p < numPhases elemCtx)%nat ->
       phaseIsConsidered elemCtx p = true ->
       potentialGrad_ r !! p
         = Some (calculateBoundaryGradient elemCtx faceIdx
                   {| bpc_fluidState := fs; bpc_phaseIdx := p |})).
Proof.
  intros Hgr Hq. split.
  - destruct (proj2 (proj2 (calculateGradients_outcome elemCtx faceIdx
                              timeIdx q Hq)) (or_introl Hgr)) as [r Hr].
    exists r. split; [done|]. intros p Hp Hc.
    destruct (calculateGradients_spec elemCtx faceIdx timeIdx q r Hq Hr)
      as (_ & _ & _ & _ & Hphase).
    destruct (Hphase p Hp Hc) as [Hgrad _].
    unfold interiorPotentialGrad in Hgrad. by rewrite Hgr in Hgrad.
  - destruct (proj2 (proj2 (calculateBoundaryGradients_outcome elemCtx
                              faceIdx timeIdx fs paramCache q Hq))
                (or_introl Hgr)) as [r Hr].
    exists r. split; [done|]. intros p Hp Hc.
    destruct (calculateBoundaryGradients_spec elemCtx faceIdx timeIdx
                fs paramCache q r Hq Hr) as (_ & _ & _ & _ & Hphase).
    destruct (Hphase p Hp Hc) as [Hgrad _].
    unfold boundaryPotentialGrad in Hgrad. by rewrite Hgr in Hgrad.
Qed.

(** X2.  Either variant of the gradient stage completes exactly when
    gravity is disabled or the corrected gradient of every considered
    phase has a finite Euclidean norm. *)
Theorem gradient_stage_completes_iff elemCtx (faceIdx timeIdx : nat)
    (fs : FluidState) (paramCache : ParameterCache) q :
  sized (numPhases elemCtx) q ->
  ((exists r, calculateGradients_ elemCtx faceIdx timeIdx q = Ok r) <->
   EnableGravity elemCtx = false \/
   forall p, (p < numPhases elemCtx)%nat ->
     phaseIsConsidered elemCtx p = true ->
     isfinite (Dune.two_norm (interiorPotentialGrad elemCtx faceIdx timeIdx p))
       = true) /\
  ((exists r,
      calculateBoundaryGradients_ elemCtx faceIdx timeIdx fs paramCache q
        = Ok r) <->
   EnableGravity elemCtx = false \/
   forall p, (p < numPhases elemCtx)%nat ->
     phaseIsConsidered elemCtx p = true ->
     isfinite
       (Dune.two_norm (boundaryPotentialGrad elemCtx faceIdx timeIdx fs p))
       = true).
Proof.
  intros Hq. split.
  - apply (calculateGradients_outcome elemCtx faceIdx timeIdx q Hq).
  - apply (calculateBoundaryGradients_outcome elemCtx faceIdx timeIdx
             fs paramCache q Hq).
Qed.

(** X3.  Whenever a variant of the gradient stage throws, gravity is
    enabled and the exception is the numerical problem whose message
    names the first considered phase, in index order, whose corrected
    gradient has a Euclidean norm that is not finite. *)
Theorem gradient_stage_exception_names_first_failure elemCtx
    (faceIdx timeIdx : nat) (fs : FluidState) (paramCache : ParameterCache)
    q (e : Exception) :
  sized (numPhases elemCtx) q ->
  (calculateGradients_ elemCtx faceIdx timeIdx q = Throw e ->
   EnableGravity elemCtx = true /\
   exists k, (k < numPhases elemCtx)%nat /\
     phaseIsConsidered elemCtx k = true /\
     isfinite (Dune.two_norm (interiorPotentialGrad elemCtx faceIdx timeIdx k))
       = false /\
     (forall j, (j < k)%nat -> phaseIsConsidered elemCtx j = true ->
        isfinite
          (Dune.two_norm (interiorPotentialGrad elemCtx faceIdx timeIdx j))
          = true) /\
     e = Opm_NumericalProblem
           ("Non finite potential gradient for phase '"
              ++ phaseName elemCtx k ++ "'")%string) /\
  (calculateBoundaryGradients_ elemCtx faceIdx timeIdx fs paramCache q
     = Throw e ->
   EnableGravity elemCtx = true /\
   exists k, (k < numPhases elemCtx)%nat /\
     phaseIsConsidered elemCtx k = true /\
     isfinite
       (Dune.two_norm (boundaryPotentialGrad elemCtx faceIdx timeIdx fs k))
       = false /\
     (forall j, (j < k)%nat -> phaseIsConsidered elemCtx j = true ->
        isfinite
          (Dune.two_norm (boundaryPotentialGrad elemCtx faceIdx timeIdx fs j))
          = true) /\
     e = Opm_NumericalProblem
           ("Non finite potential gradient for phase '"
              ++ phaseName elemCtx k ++ "'")%string).
Proof.
  intros Hq. split; intros He.
  - exact (proj1 (calculateGradients_outcome elemCtx faceIdx timeIdx q Hq)
             e He).
  - exact (proj1 (calculateBoundaryGradients_outcome elemCtx faceIdx timeIdx
                    fs paramCache q Hq) e He).
Qed.

(** X4.  The finiteness test is on the Euclidean norm: with gravity
    enabled, a component of the corrected gradient of a considered
    phase whose square is not finite makes the stage throw, also when
    the component itself is finite.  The phase named is the given one
    or an earlier one. *)
Theorem gradient_norm_overflow_throws elemCtx (faceIdx timeIdx p : nat)
    (fs : FluidState) (paramCache : ParameterCache) q (c : Scalar) :
  EnableGravity elemCtx = true ->
  sized (numPhases elemCtx) q ->
  (p < numPhases elemCtx)%nat ->
  phaseIsConsidered elemCtx p = true ->
  isfinite (c * c)%float = false ->
  (c ∈ interiorPotentialGrad elemCtx faceIdx timeIdx p ->
   exists k, (k <= p)%nat /\ phaseIsConsidered elemCtx k = true /\
     calculateGradients_ elemCtx faceIdx timeIdx q
       = Throw (Opm_NumericalProblem (nonFiniteMessage elemCtx k))) /\
  (c ∈ boundaryPotentialGrad elemCtx faceIdx timeIdx fs p ->
   exists k, (k <= p)%nat /\ phaseIsConsidered elemCtx k = true /\
     calculateBoundaryGradients_ elemCtx faceIdx timeIdx fs paramCache q
       = Throw (Opm_NumericalProblem (nonFiniteMessage elemCtx k))).
Proof.
  intros Hgr Hq Hp Hc Hsq. split; intros Hin.
  - pose proof (two_norm_square_nonfinite _ _ Hin Hsq) as Hbad.
    destruct (calculateGradients_outcome elemCtx faceIdx timeIdx q Hq)
      as [Hthrow Hiff].
    destruct (calculateGradients_ elemCtx faceIdx timeIdx q) as [r|e] eqn:Hrun.
    + destruct (proj1 Hiff (ex_intro _ r eq_refl)) as [Hg|Hall];
        [congruence|].
      rewrite Hall in Hbad by done. discriminate.
    + destruct (Hthrow e eq_refl) as (_ & k & Hk & Hck & Hbk & Hmin & ->).
      exists k. split; [|done].
      destruct (decide (k <= p)%nat) as [Hle|Hgt]; [done|].
      rewrite Hmin in Hbad by (done || lia). discriminate.
  - pose proof (two_norm_square_nonfinite _ _ Hin Hsq) as Hbad.
    destruct (calculateBoundaryGradients_outcome elemCtx faceIdx timeIdx
                fs paramCache q Hq) as [Hthrow Hiff].
    destruct (calculateBoundaryGradients_ elemCtx faceIdx timeIdx fs
                paramCache q) as [r|e] eqn:Hrun.
    + destruct (proj1 Hiff (ex_intro _ r eq_refl)) as [Hg|Hall];
        [congruence|].
      rewrite Hall in Hbad by done. discriminate.
    + destruct (Hthrow e eq_refl) as (_ & k & Hk & Hck & Hbk & Hmin & ->).
      exists k. split; [|done].
      destruct (decide (k <= p)%nat) as [Hle|Hgt]; [done|].
      rewrite Hmin in Hbad by (done || lia). discriminate.
Qed.


(** X6.  The permeability tensor of the record after the gradient
    stage: on an interior face the tensor the problem gives for the
    face, on a boundary face the tensor of the intensive quantities of
    the interior degree of freedom. *)
Theorem permeability_tensor_source elemCtx (faceIdx timeIdx : nat)
    (fs : FluidState) (paramCache : ParameterCache) q :
  sized (numPhases elemCtx) q ->
  (forall r,
     calculateGradients_ elemCtx faceIdx timeIdx q = Ok r ->
     K_ r = intersectionIntrinsicPermeability elemCtx faceIdx timeIdx) /\
  (forall r,
     calculateBoundaryGradients_ elemCtx faceIdx timeIdx fs paramCache q
       = Ok r ->
     K_ r
     = intrinsicPermeability
         (intensiveQuantities elemCtx
            (to_short
               (interiorIndex
                  (boundaryFace (stencil elemCtx timeIdx) faceIdx)))
            timeIdx)).
Proof.
  intros Hq. split; intros r Hrun.
  - by destruct (calculateGradients_spec elemCtx faceIdx timeIdx q r Hq Hrun)
      as (_ & _ & _ & HK & _).
  - by destruct (calculateBoundaryGradients_spec elemCtx faceIdx timeIdx
                   fs paramCache q r Hq Hrun) as (_ & _ & _ & HK & _).
Qed.

End GradientOutcomeTheorems.

(** ** What the stages leave alone, and running them again *)

Section Frames.

Context {MaterialLawParams ParameterCache : Type}.

Implicit Types elemCtx : ElementContext MaterialLawParams ParameterCache.
Implicit Types q r : DarcyExtensiveQuantities.

(** A loop whose every iteration is within a preorder stays within
    it. *)
Lemma for_each_preserves {St : Type} (body : nat -> St -> result St)
    (Rel : St -> St -> Prop) :
  (forall s, Rel s s) ->
  (forall s1 s2 s3, Rel s1 s2 -> Rel s2 s3 -> Rel s1 s3) ->
  (forall i s s', body i s = Ok s' -> Rel s s') ->
  forall idxs s s', for_each body idxs s = Ok s' -> Rel s s'.
Proof.
  intros Hrefl Htrans Hbody idxs.
  induction idxs as [|i rest IH]; intros s s' Hrun; simpl in Hrun.
  - injection Hrun as <-. apply Hrefl.
  - destruct (body i s) as [s1|e] eqn:Hi; [|discriminate].
    eapply Htrans; [by apply Hbody in Hi | by apply IH].
Qed.

(** The flux arrays are as before, and so is every entry of a phase
    that is not considered. *)
#[local] Abbreviation untouched elemCtx s s' :=
  (filterVelocity_ s' = filterVelocity_ s /\
   volumeFlux_ s' = volumeFlux_ s /\
   forall p : nat, phaseIsConsidered elemCtx p = false ->
     potentialGrad_ s' !! p = potentialGrad_ s !! p /\
     upstreamDofIdx_ s' !! p = upstreamDofIdx_ s !! p /\
     downstreamDofIdx_ s' !! p = downstreamDofIdx_ s !! p /\
     mobility_ s' !! p = mobility_ s !! p).

Lemma untouched_refl elemCtx s : untouched elemCtx s s.
Proof. done. Qed.

Lemma untouched_trans elemCtx s1 s2 s3 :
  untouched elemCtx s1 s2 -> untouched elemCtx s2 s3 ->
  untouched elemCtx s1 s3.
Proof.
  intros (Hf1 & Hv1 & H1) (Hf2 & Hv2 & H2).
  split; [congruence|]. split; [congruence|]. intros p Hp.
  destruct (H1 p Hp) as (? & ? & ? & ?).
  destruct (H2 p Hp) as (? & ? & ? & ?).
  repeat split; congruence.
Qed.

Ltac untouched_step i :=
  split; [done|]; split; [done|];
  let p := fresh "p" in
  let Hp := fresh "Hp" in
  intros p Hp; simpl;
  assert (i <> p) by (intros ->; congruence);
  rewrite ?list_lookup_insert_ne by done; done.

Lemma raw_body_untouched elemCtx (g : nat -> DimVector)
    (body : nat -> DarcyExtensiveQuantities
            -> result DarcyExtensiveQuantities) :
  (forall i s, body i s =
     if negb (phaseIsConsidered elemCtx i) then Ok s
     else Ok (set_potentialGrad_ i (g i) s)) ->
  forall i s s', body i s = Ok s' -> untouched elemCtx s s'.
Proof.
  intros Hbody i s s' Hrun. rewrite Hbody in Hrun.
  destruct (phaseIsConsidered elemCtx i) eqn:Hc; simpl in Hrun;
    injection Hrun as <-; [untouched_step i | done].
Qed.

Lemma gravityBody_untouched elemCtx (f : nat -> DimVector) i s s' :
  gravityBody elemCtx f i s = Ok s' -> untouched elemCtx s s'.
Proof.
  unfold gravityBody. intros Hrun.
  destruct (phaseIsConsidered elemCtx i) eqn:Hc; simpl in Hrun.
  - destruct (negb _); [discriminate|]. injection Hrun as <-.
    untouched_step i.
  - by injection Hrun as <-.
Qed.

Lemma upwindBody_untouched elemCtx (nrm : DimVector) (timeIdx : nat) i s s' :
  upwindBody elemCtx nrm timeIdx i s = Ok s' -> untouched elemCtx s s'.
Proof.
  unfold upwindBody. intros Hrun.
  destruct (phaseIsConsidered elemCtx i) eqn:Hc; simpl in Hrun.
  - destruct (0 <? _)%float; injection Hrun as <-; untouched_step i.
  - by injection Hrun as <-.
Qed.

Lemma boundaryUpwindBody_untouched elemCtx (nrm : DimVector)
    (intQuantsIn : IntensiveQuantities) (kr : list Scalar)
    (fs : FluidState) (paramCache : ParameterCache) i s s' :
  boundaryUpwindBody elemCtx nrm intQuantsIn kr fs paramCache i s = Ok s' ->
  untouched elemCtx s s'.
Proof.
  unfold boundaryUpwindBody. intros Hrun.
  destruct (phaseIsConsidered elemCtx i) eqn:Hc; simpl in Hrun.
  - destruct (0 <? _)%float; destruct (_ <? _)%Z;
      injection Hrun as <-; untouched_step i.
  - by injection Hrun as <-.
Qed.

Lemma calculateGradients_untouched elemCtx (faceIdx timeIdx : nat) q r :
  calculateGradients_ elemCtx faceIdx timeIdx q = Ok r ->
  untouched elemCtx q r.
Proof.
  intros Hrun. unfold calculateGradients_ in Hrun.
  apply bind_Ok_inv in Hrun as (q1 & Hraw & Hrun).
  apply bind_Ok_inv in Hrun as (q2 & Hgrav & Hrun).
  apply (for_each_preserves _ (fun s s' => untouched elemCtx s s')
           (untouched_refl elemCtx) (untouched_trans elemCtx)
           (raw_body_untouched elemCtx _ _ (fun i s => eq_refl))) in Hraw.
  apply (for_each_preserves _ (fun s s' => untouched elemCtx s s')
           (untouched_refl elemCtx) (untouched_trans elemCtx)
           (upwindBody_untouched elemCtx _ _)) in Hrun.
  assert (Hg : untouched elemCtx q1 q2).
  { destruct (EnableGravity elemCtx); [|by injection Hgrav as <-].
    exact (for_each_preserves _ (fun s s' => untouched elemCtx s s')
             (untouched_refl elemCtx) (untouched_trans elemCtx)
             (gravityBody_untouched elemCtx _) _ _ _ Hgrav). }
  apply (untouched_trans elemCtx q q1 r); [exact Hraw|].
  apply (untouched_trans elemCtx q1 q2 r); [exact Hg | exact Hrun].
Qed.

Lemma calculateBoundaryGradients_untouched elemCtx (faceIdx timeIdx : nat)
    (fs : FluidState) (paramCache : ParameterCache) q r :
  calculateBoundaryGradients_ elemCtx faceIdx timeIdx fs paramCache q = Ok r ->
  untouched elemCtx q r.
Proof.
  intros Hrun. unfold calculateBoundaryGradients_ in Hrun.
  apply bind_Ok_inv in Hrun as (q1 & Hraw & Hrun).
  apply bind_Ok_inv in Hrun as (q2 & Hgrav & Hrun).
  apply (for_each_preserves _ (fun s s' => untouched elemCtx s s')
           (untouched_refl elemCtx) (untouched_trans elemCtx)
           (raw_body_untouched elemCtx _ _ (fun i s => eq_refl))) in Hraw.
  apply (for_each_preserves _ (fun s s' => untouched elemCtx s s')
           (untouched_refl elemCtx) (untouched_trans elemCtx)
           (boundaryUpwindBody_untouched elemCtx _ _ _ _ _)) in Hrun.
  match type of Hgrav with
  | (if _ then _ else Ok ?s) = _ =>
      assert (Hg : untouched elemCtx s q2)
  end.
  { destruct (EnableGravity elemCtx); [|by injection Hgrav as <-].
    exact (for_each_preserves _ (fun s s' => untouched elemCtx s s')
             (untouched_refl elemCtx) (untouched_trans elemCtx)
             (gravityBody_untouched elemCtx _) _ _ _ Hgrav). }
  apply (untouched_trans elemCtx q q1 r); [exact Hraw|].
  eapply (untouched_trans elemCtx q1 _ r); [|exact Hrun].
  eapply (untouched_trans elemCtx q1 _ q2); [|exact Hg]. done.
Qed.

(** X7.  Neither variant of the gradient stage writes the filter
    velocities or the volumetric fluxes, and for a phase that is not
    considered it leaves the stored potential gradient, upstream and
    downstream index and mobility as they were: such entries are never
    reset. *)
Theorem gradient_stage_leaves_unconsidered_phases elemCtx
    (faceIdx timeIdx : nat) (fs : FluidState) (paramCache : ParameterCache)
    q r :
  calculateGradients_ elemCtx faceIdx timeIdx q = Ok r \/
  calculateBoundaryGradients_ elemCtx faceIdx timeIdx fs paramCache q = Ok r ->
  filterVelocity_ r = filterVelocity_ q /\
  volumeFlux_ r = volumeFlux_ q /\
  forall p : nat, phaseIsConsidered elemCtx p = false ->
    potentialGrad_ r !! p = potentialGrad_ q !! p /\
    upstreamDofIdx_ r !! p = upstreamDofIdx_ q !! p /\
    downstreamDofIdx_ r !! p = downstreamDofIdx_ q !! p /\
    mobility_ r !! p = mobility_ q !! p.
Proof.
  intros [Hrun|Hrun].
  - by apply calculateGradients_untouched in Hrun.
  - by apply calculateBoundaryGradients_untouched in Hrun.
Qed.

(** The flux loop keeps the indices. *)
Lemma flux_loop_frame_indices elemCtx (nrm : DimVector) (idxs : list nat) :
  forall q r,
    for_each (fluxBody elemCtx nrm) idxs q = Ok r ->
    interiorDofIdx_ r = interiorDofIdx_ q /\
    exteriorDofIdx_ r = exteriorDofIdx_ q /\
    upstreamDofIdx_ r = upstreamDofIdx_ q /\
    downstreamDofIdx_ r = downstreamDofIdx_ q.
Proof.
  induction idxs as [|i rest IH]; intros q r Hrun; simpl in Hrun.
  - by injection Hrun as <-.
  - unfold fluxBody at 1 in Hrun.
    destruct (negb (phaseIsConsidered elemCtx i));
      apply IH in Hrun; simpl in Hrun; done.
Qed.

(** Two lists of the same length are equal when their entries agree
    below that length. *)
Lemma list_eq_below {A : Type} (l1 l2 : list A) (n : nat) :
  length l1 = n -> length l2 = n ->
  (forall i, (i < n)%nat -> l1 !! i = l2 !! i) -> l1 = l2.
Proof.
  intros H1 H2 Hlt. apply list_eq. intros i.
  destruct (decide (i < n)%nat) as [Hi|Hi]; [by apply Hlt|].
  rewrite !lookup_ge_None_2 by lia. done.
Qed.

Lemma record_eq q r :
  K_ r = K_ q -> interiorDofIdx_ r = interiorDofIdx_ q ->
  exteriorDofIdx_ r = exteriorDofIdx_ q ->
  upstreamDofIdx_ r = upstreamDofIdx_ q ->
  downstreamDofIdx_ r = downstreamDofIdx_ q ->
  mobility_ r = mobility_ q ->
  filterVelocity_ r = filterVelocity_ q ->
  volumeFlux_ r = volumeFlux_ q ->
  potentialGrad_ r = potentialGrad_ q -> r = q.
Proof. destruct q, r; simpl; intros; subst; reflexivity. Qed.

(** The flux loop run on its own result returns that result. *)
Lemma flux_loop_idempotent elemCtx (nrm : DimVector) (n : nat) q r :
  sized n q ->
  for_each (fluxBody elemCtx nrm) (seq 0 n) q = Ok r ->
  for_each (fluxBody elemCtx nrm) (seq 0 n) r = Ok r.
Proof.
  intros Hq Hr.
  destruct (flux_loop elemCtx nrm n q Hq)
    as (r' & Hr' & Hsr & HK & HG & HM & Hphase).
  rewrite Hr in Hr'. injection Hr' as <-.
  destruct (flux_loop elemCtx nrm n r Hsr)
    as (r2 & Hr2 & Hsr2 & HK2 & HG2 & HM2 & Hphase2).
  rewrite Hr2. f_equal.
  destruct (flux_loop_frame_indices _ _ _ _ _ Hr2) as (Hi & He & Hu & Hd).
  apply record_eq; try done.
  - apply (list_eq_below _ _ n);
      [unfold sized in *; tauto | unfold sized in *; tauto |].
    intros i Hi'. destruct (Hphase i Hi') as [Hc1 Hn1].
    destruct (Hphase2 i Hi') as [Hc2 Hn2].
    destruct (phaseIsConsidered elemCtx i).
    + destruct (Hc1 eq_refl) as [-> _]. destruct (Hc2 eq_refl) as [-> _].
      by rewrite HK, HG, HM.
    + destruct (Hn1 eq_refl) as [-> _]. by destruct (Hn2 eq_refl) as [-> _].
  - apply (list_eq_below _ _ n);
      [unfold sized in *; tauto | unfold sized in *; tauto |].
    intros i Hi'. destruct (Hphase i Hi') as [Hc1 Hn1].
    destruct (Hphase2 i Hi') as [Hc2 Hn2].
    destruct (phaseIsConsidered elemCtx i).
    + destruct (Hc1 eq_refl) as [_ H1]. destruct (Hc2 eq_refl) as [_ H2].
      rewrite HK, HG, HM in H2. exact (eq_trans H2 (eq_sym H1)).
    + destruct (Hn1 eq_refl) as [_ H1]. destruct (Hn2 eq_refl) as [_ H2].
      exact (eq_trans H2 (eq_sym H1)).
Qed.

(** X8.  The flux stage is idempotent: run on the record it has
    produced, on an interior face as on a boundary face, it returns
    that record again. *)
Theorem flux_stage_idempotent elemCtx (faceIdx timeIdx : nat) q r :
  sized (numPhases elemCtx) q ->
  (calculateFluxes_ elemCtx faceIdx timeIdx q = Ok r ->
   calculateFluxes_ elemCtx faceIdx timeIdx r = Ok r) /\
  (calculateBoundaryFluxes_ elemCtx faceIdx timeIdx q = Ok r ->
   calculateBoundaryFluxes_ elemCtx faceIdx timeIdx r = Ok r).
Proof.
  intros Hq. unfold calculateFluxes_, calculateBoundaryFluxes_.
  split; intros Hr; by apply flux_loop_idempotent with (q := q).
Qed.

End Frames.

Section RunningAgain.

Context {MaterialLawParams ParameterCache : Type}.

Implicit Types elemCtx : ElementContext MaterialLawParams ParameterCache.
Implicit Types q r : DarcyExtensiveQuantities.

Ltac sized_lengths :=
  match goal with
  | |- length _ = _ => unfold sized in *; tauto
  end.

(** The interior gradient stage, run on a record that carries the
    results of an earlier run, returns that record. *)
Lemma calculateGradients_rerun elemCtx (faceIdx timeIdx : nat) q r s :
  sized (numPhases elemCtx) q ->
  calculateGradients_ elemCtx faceIdx timeIdx q = Ok r ->
  sized (numPhases elemCtx) s ->
  K_ s = K_ r -> interiorDofIdx_ s = interiorDofIdx_ r ->
  exteriorDofIdx_ s = exteriorDofIdx_ r ->
  upstreamDofIdx_ s = upstreamDofIdx_ r ->
  downstreamDofIdx_ s = downstreamDofIdx_ r ->
  mobility_ s = mobility_ r -> potentialGrad_ s = potentialGrad_ r ->
  calculateGradients_ elemCtx faceIdx timeIdx s = Ok s.
Proof.
  intros Hq Hr Hs HK Hi He Hu Hd Hm Hg.
  destruct (calculateGradients_outcome elemCtx faceIdx timeIdx q Hq)
    as [_ Hiffq].
  destruct (calculateGradients_outcome elemCtx faceIdx timeIdx s Hs)
    as [_ Hiffs].
  destruct (proj2 Hiffs (proj1 Hiffq (ex_intro _ r Hr))) as [s2 Hs2].
  rewrite Hs2. f_equal.
  destruct (calculateGradients_spec _ _ _ _ _ Hq Hr)
    as (Hsr & Hir & Her & HKr & Hpr).
  destruct (calculateGradients_spec _ _ _ _ _ Hs Hs2)
    as (Hss2 & Hi2 & He2 & HK2 & Hp2).
  destruct (calculateGradients_untouched _ _ _ _ _ Hs2) as (Hfv & Hvf & Hun).
  assert (Hgrad : forall i, (i < numPhases elemCtx)%nat ->
            phaseIsConsidered elemCtx i = true ->
            potentialGrad_ s2 !!! i = potentialGrad_ r !!! i).
  { intros i Hi' Hc. destruct (Hpr i Hi' Hc) as [H1 _].
    destruct (Hp2 i Hi' Hc) as [H2 _].
    by rewrite (list_lookup_total_correct _ _ _ H1),
               (list_lookup_total_correct _ _ _ H2). }
  apply record_eq; try congruence.
  - rewrite Hu. apply (list_eq_below _ _ (numPhases elemCtx));
      [sized_lengths | sized_lengths |].
    intros i Hi'. destruct (phaseIsConsidered elemCtx i) eqn:Hc.
    + destruct (Hpr i Hi' Hc) as (_ & _ & H1 & _).
      destruct (Hp2 i Hi' Hc) as (_ & _ & H2 & _).
      refine (eq_trans H2 (eq_trans _ (eq_sym H1))).
      by rewrite Hgrad, Hi2, He2, Hir, Her.
    + rewrite <- Hu. by apply Hun.
  - rewrite Hd. apply (list_eq_below _ _ (numPhases elemCtx));
      [sized_lengths | sized_lengths |].
    intros i Hi'. destruct (phaseIsConsidered elemCtx i) eqn:Hc.
    + destruct (Hpr i Hi' Hc) as (_ & _ & _ & H1 & _).
      destruct (Hp2 i Hi' Hc) as (_ & _ & _ & H2 & _).
      refine (eq_trans H2 (eq_trans _ (eq_sym H1))).
      by rewrite Hgrad, Hi2, He2, Hir, Her.
    + rewrite <- Hd. by apply Hun.
  - rewrite Hm. apply (list_eq_below _ _ (numPhases elemCtx));
      [sized_lengths | sized_lengths |].
    intros i Hi'. destruct (phaseIsConsidered elemCtx i) eqn:Hc.
    + destruct (Hpr i Hi' Hc) as (_ & _ & _ & _ & H1).
      destruct (Hp2 i Hi' Hc) as (_ & _ & _ & _ & H2).
      refine (eq_trans H2 (eq_trans _ (eq_sym H1))).
      by rewrite Hgrad, Hi2, He2, Hir, Her.
    + rewrite <- Hm. by apply Hun.
  - rewrite Hg. apply (list_eq_below _ _ (numPhases elemCtx));
      [sized_lengths | sized_lengths |].
    intros i Hi'. destruct (phaseIsConsidered elemCtx i) eqn:Hc.
    + destruct (Hpr i Hi' Hc) as (H1 & _).
      destruct (Hp2 i Hi' Hc) as (H2 & _).
      exact (eq_trans H2 (eq_sym H1)).
    + rewrite <- Hg. by apply Hun.
Qed.

(** The same for the boundary gradient stage. *)
Lemma calculateBoundaryGradients_rerun elemCtx (faceIdx timeIdx : nat)
    (fs : FluidState) (paramCache : ParameterCache) q r s :
  sized (numPhases elemCtx) q ->
  calculateBoundaryGradients_ elemCtx faceIdx timeIdx fs paramCache q = Ok r ->
  sized (numPhases elemCtx) s ->
  K_ s = K_ r -> interiorDofIdx_ s = interiorDofIdx_ r ->
  exteriorDofIdx_ s = exteriorDofIdx_ r ->
  upstreamDofIdx_ s = upstreamDofIdx_ r ->
  downstreamDofIdx_ s = downstreamDofIdx_ r ->
  mobility_ s = mobility_ r -> potentialGrad_ s = potentialGrad_ r ->
  calculateBoundaryGradients_ elemCtx faceIdx timeIdx fs paramCache s = Ok s.
Proof.
  intros Hq Hr Hs HK Hi He Hu Hd Hm Hg.
  destruct (calculateBoundaryGradients_outcome elemCtx faceIdx timeIdx
              fs paramCache q Hq) as [_ Hiffq].
  destruct (calculateBoundaryGradients_outcome elemCtx faceIdx timeIdx
              fs paramCache s Hs) as [_ Hiffs].
  destruct (proj2 Hiffs (proj1 Hiffq (ex_intro _ r Hr))) as [s2 Hs2].
  rewrite Hs2. f_equal.
  destruct (calculateBoundaryGradients_spec _ _ _ _ _ _ _ Hq Hr)
    as (Hsr & Hir & Her & HKr & Hpr).
  destruct (calculateBoundaryGradients_spec _ _ _ _ _ _ _ Hs Hs2)
    as (Hss2 & Hi2 & He2 & HK2 & Hp2).
  destruct (calculateBoundaryGradients_untouched _ _ _ _ _ _ _ Hs2)
    as (Hfv & Hvf & Hun).
  assert (Hgrad : forall i, (i < numPhases elemCtx)%nat ->
            phaseIsConsidered elemCtx i = true ->
            potentialGrad_ s2 !!! i = potentialGrad_ r !!! i).
  { intros i Hi' Hc. destruct (Hpr i Hi' Hc) as [H1 _].
    destruct (Hp2 i Hi' Hc) as [H2 _].
    by rewrite (list_lookup_total_correct _ _ _ H1),
               (list_lookup_total_correct _ _ _ H2). }
  apply record_eq; try congruence.
  - rewrite Hu. apply (list_eq_below _ _ (numPhases elemCtx));
      [sized_lengths | sized_lengths |].
    intros i Hi'. destruct (phaseIsConsidered elemCtx i) eqn:Hc.
    + destruct (Hpr i Hi' Hc) as (_ & _ & H1 & _).
      destruct (Hp2 i Hi' Hc) as (_ & _ & H2 & _).
      refine (eq_trans H2 (eq_trans _ (eq_sym H1))).
      by rewrite Hgrad, Hi2, He2, Hir, Her.
    + rewrite <- Hu. by apply Hun.
  - rewrite Hd. apply (list_eq_below _ _ (numPhases elemCtx));
      [sized_lengths | sized_lengths |].
    intros i Hi'. destruct (phaseIsConsidered elemCtx i) eqn:Hc.
    + destruct (Hpr i Hi' Hc) as (_ & _ & _ & H1 & _).
      destruct (Hp2 i Hi' Hc) as (_ & _ & _ & H2 & _).
      refine (eq_trans H2 (eq_trans _ (eq_sym H1))).
      by rewrite Hgrad, Hi2, He2, Hir, Her.
    + rewrite <- Hd. by apply Hun.
  - rewrite Hm. apply (list_eq_below _ _ (numPhases elemCtx));
      [sized_lengths | sized_lengths |].
    intros i Hi'. destruct (phaseIsConsidered elemCtx i) eqn:Hc.
    + destruct (Hpr i Hi' Hc) as (_ & _ & _ & _ & H1).
      destruct (Hp2 i Hi' Hc) as (_ & _ & _ & _ & H2).
      refine (eq_trans H2 (eq_trans _ (eq_sym H1))).
      by rewrite Hgrad, Hi2, He2, Hir, Her.
    + rewrite <- Hm. by apply Hun.
  - rewrite Hg. apply (list_eq_below _ _ (numPhases elemCtx));
      [sized_lengths | sized_lengths |].
    intros i Hi'. destruct (phaseIsConsidered elemCtx i) eqn:Hc.
    + destruct (Hpr i Hi' Hc) as (H1 & _).
      destruct (Hp2 i Hi' Hc) as (H2 & _).
      exact (eq_trans H2 (eq_sym H1)).
    + rewrite <- Hg. by apply Hun.
Qed.

(** X9.  The gradient stage is idempotent: when a run of either
    variant has completed, a second run on the record it returned
    completes and returns the same record. *)
Theorem gradient_stage_idempotent elemCtx (faceIdx timeIdx : nat)
    (fs : FluidState) (paramCache : ParameterCache) q r :
  sized (numPhases elemCtx) q ->
  (calculateGradients_ elemCtx faceIdx timeIdx q = Ok r ->
   calculateGradients_ elemCtx faceIdx timeIdx r = Ok r) /\
  (calculateBoundaryGradients_ elemCtx faceIdx timeIdx fs paramCache q
     = Ok r ->
   calculateBoundaryGradients_ elemCtx faceIdx timeIdx fs paramCache r
     = Ok r).
Proof.
  intros Hq. split; intros Hr.
  - destruct (calculateGradients_spec _ _ _ _ _ Hq Hr) as (Hsr & _).
    by apply (calculateGradients_rerun elemCtx faceIdx timeIdx q r r).
  - destruct (calculateBoundaryGradients_spec _ _ _ _ _ _ _ Hq Hr)
      as (Hsr & _).
    by apply (calculateBoundaryGradients_rerun elemCtx faceIdx timeIdx
                fs paramCache q r r).
Qed.

(** X10.  A whole face evaluation, the gradient stage followed by the
    flux stage, is idempotent: evaluated again on the record it
    returned, it returns that record, on an interior face as on a
    boundary face. *)
Theorem face_evaluation_idempotent elemCtx (faceIdx timeIdx : nat)
    (fs : FluidState) (paramCache : ParameterCache) q r :
  sized (numPhases elemCtx) q ->
  (calculateGradients_ elemCtx faceIdx timeIdx q
     ≫= calculateFluxes_ elemCtx faceIdx timeIdx = Ok r ->
   calculateGradients_ elemCtx faceIdx timeIdx r
     ≫= calculateFluxes_ elemCtx faceIdx timeIdx = Ok r) /\
  (calculateBoundaryGradients_ elemCtx faceIdx timeIdx fs paramCache q
     ≫= calculateBoundaryFluxes_ elemCtx faceIdx timeIdx = Ok r ->
   calculateBoundaryGradients_ elemCtx faceIdx timeIdx fs paramCache r
     ≫= calculateBoundaryFluxes_ elemCtx faceIdx timeIdx = Ok r).
Proof.
  intros Hq. split; intros Hrun.
  - apply bind_Ok_inv in Hrun as (r1 & Hr1 & Hflux).
    destruct (calculateGradients_spec _ _ _ _ _ Hq Hr1) as (Hs1 & _).
    unfold calculateFluxes_ in Hflux.
    destruct (flux_loop elemCtx
                (normal (interiorFace (stencil elemCtx timeIdx) faceIdx))
                (numPhases elemCtx) r1 Hs1)
      as (r' & Hr' & Hsr & _).
    rewrite Hflux in Hr'. injection Hr' as <-.
    destruct (flux_loop_frame _ _ _ _ _ Hflux) as (HK & HG & HM).
    destruct (flux_loop_frame_indices _ _ _ _ _ Hflux)
      as (Hi & He & Hu & Hd).
    rewrite (calculateGradients_rerun elemCtx faceIdx timeIdx q r1 r)
      by done.
    rewrite bind_Ok_l. unfold calculateFluxes_.
    by apply flux_loop_idempotent with (q := r1).
  - apply bind_Ok_inv in Hrun as (r1 & Hr1 & Hflux).
    destruct (calculateBoundaryGradients_spec _ _ _ _ _ _ _ Hq Hr1)
      as (Hs1 & _).
    unfold calculateBoundaryFluxes_ in Hflux.
    destruct (flux_loop elemCtx
                (normal (boundaryFace (stencil elemCtx timeIdx) faceIdx))
                (numPhases elemCtx) r1 Hs1)
      as (r' & Hr' & Hsr & _).
    rewrite Hflux in Hr'. injection Hr' as <-.
    destruct (flux_loop_frame _ _ _ _ _ Hflux) as (HK & HG & HM).
    destruct (flux_loop_frame_indices _ _ _ _ _ Hflux)
      as (Hi & He & Hu & Hd).
    rewrite (calculateBoundaryGradients_rerun elemCtx faceIdx timeIdx
               fs paramCache q r1 r) by done.
    rewrite bind_Ok_l. unfold calculateBoundaryFluxes_.
    by apply flux_loop_idempotent with (q := r1).
Qed.

End RunningAgain.

Section NoDrivingForce.

Context {MaterialLawParams ParameterCache : Type}.

Implicit Types elemCtx : ElementContext MaterialLawParams ParameterCache.
Implicit Types q r : DarcyExtensiveQuantities.

(** X11.  On an interior face with gravity disabled, when the
    gradient calculator returns a gradient of zeros for every
    considered phase, and the permeability tensor of the face, the
    mobilities of the interior degree of freedom and the normal are
    finite, the two stages complete, the interior side is upstream and
    the volumetric flux of every phase is [0.0]. *)
Theorem interior_zero_gradient_zero_flux elemCtx (faceIdx timeIdx : nat) q :
  let scvf := interiorFace (stencil elemCtx timeIdx) faceIdx in
  let intQuantsIn :=
    intensiveQuantities elemCtx (to_short (interiorIndex scvf)) timeIdx in
  EnableGravity elemCtx = false ->
  sized (numPhases elemCtx) q ->
  Forall (Forall (fun c => isfinite c = true))
         (intersectionIntrinsicPermeability elemCtx faceIdx timeIdx) ->
  Forall (fun c => isfinite c = true) (normal scvf) ->
  (forall p, (p < numPhases elemCtx)%nat ->
     phaseIsConsidered elemCtx p = true ->
     Forall (fun c => is_zero c = true)
            (calculateGradient elemCtx faceIdx {| pc_phaseIdx := p |}) /\
     isfinite (mobility intQuantsIn p) = true) ->
  exists r1 r,
    calculateGradients_ elemCtx faceIdx timeIdx q = Ok r1 /\
    calculateFluxes_ elemCtx faceIdx timeIdx r1 = Ok r /\
    (forall p, (p < numPhases elemCtx)%nat ->
       phaseIsConsidered elemCtx p = true ->
       upstreamDofIdx_ r !! p = Some (to_short (interiorIndex scvf))) /\
    forall p, (p < numPhases elemCtx)%nat ->
      volumeFlux_ r !! p = Some 0%float.
Proof.
  intros scvf intQuantsIn Hgr Hq HK Hn Hphases.
  destruct (proj2 (proj2 (calculateGradients_outcome elemCtx faceIdx
                            timeIdx q Hq)) (or_introl Hgr)) as [r1 Hr1].
  destruct (calculateGradients_spec elemCtx faceIdx timeIdx q r1 Hq Hr1)
    as (Hs1 & Hin & Hex & HK1 & Hspec).
  fold scvf in Hin, Hex, Hspec.
  unfold calculateFluxes_. fold scvf.
  destruct (flux_loop elemCtx (normal scvf) (numPhases elemCtx) r1 Hs1)
    as (r & Hr & _ & _ & _ & _ & Hflux).
  destruct (flux_loop_frame_indices _ _ _ _ _ Hr) as (_ & _ & Hu & _).
  assert (Hgrad0 : forall p, (p < numPhases elemCtx)%nat ->
            phaseIsConsidered elemCtx p = true ->
            potentialGrad_ r1 !!! p
              = calculateGradient elemCtx faceIdx {| pc_phaseIdx := p |}).
  { intros p Hp Hc. destruct (Hspec p Hp Hc) as (Hgrad & _).
    unfold interiorPotentialGrad in Hgrad. rewrite Hgr in Hgrad.
    by apply list_lookup_total_correct. }
  exists r1, r. repeat (split; [done|]). split.
  - intros p Hp Hc. destruct (Hspec p Hp Hc) as (_ & _ & Hup & _).
    destruct (Hphases p Hp Hc) as [Hzero _].
    rewrite Hgrad0, upwindProjection_zero in Hup by done.
    change (0 <? 0)%float with false in Hup. by rewrite Hu, Hup, Hin.
  - intros p Hp. destruct (Hflux p Hp) as [Hcons Hnot].
    destruct (phaseIsConsidered elemCtx p) eqn:Hc; [|by apply Hnot].
    destruct (Hcons eq_refl) as [_ Hvf].
    etransitivity; [exact Hvf|]. f_equal.
    destruct (Hphases p Hp Hc) as [Hzero Hmfin].
    destruct (Hspec p Hp Hc) as (_ & _ & _ & _ & Hmob).
    rewrite Hgrad0 in Hmob |- * by done.
    rewrite upwindProjection_zero in Hmob by done.
    change (0 <? 0)%float with false in Hmob. rewrite Hin in Hmob.
    rewrite (list_lookup_total_correct _ _ _ Hmob), HK1.
    apply dot_zero_finite; [|done].
    apply scale_zero_finite; [by apply mv_finite_zero|].
    unfold isfinite. by rewrite FloatFacts.opp_finite.
Qed.

End NoDrivingForce.

(** * The two-phase fluid state *)

Section TwoPhaseFluidState.

Import TwoP.

(** X12.  After [update], with the two phase indices distinct and
    within the arrays, the accessors read back what was passed: the
    two phase pressures, their difference as capillary pressure, the
    saturations [1 - Sn] and [Sn], the temperature, and the partial
    pressures 0 and the non-wetting pressure. *)
Theorem update_read_back (typeTag : TypeTag)
    (Sn pressW pressN T : Scalar) (s : TwoPFluidState) :
  wPhaseIdx typeTag <> nPhaseIdx typeTag ->
  (wPhaseIdx typeTag < length (phasePressure_ s))%nat ->
  (nPhaseIdx typeTag < length (phasePressure_ s))%nat ->
  let s' := update typeTag Sn pressW pressN T s in
  phasePressure s' (wPhaseIdx typeTag) = pressW /\
  phasePressure s' (nPhaseIdx typeTag) = pressN /\
  capillaryPressure typeTag s' = (pressN - pressW)%float /\
  saturation typeTag s' (wPhaseIdx typeTag) = (1 - Sn)%float /\
  saturation typeTag s' (nPhaseIdx typeTag) = Sn /\
  temperature s' = T /\
  partialPressure typeTag s' (wPhaseIdx typeTag) = 0%float /\
  partialPressure typeTag s' (nPhaseIdx typeTag) = pressN.
Proof.
  intros Hne Hw Hn s'.
  assert (HpW : phasePressure_ s' !!! wPhaseIdx typeTag = pressW).
  { subst s'. unfold update. simpl.
    rewrite list_lookup_total_insert_ne by done.
    by rewrite list_lookup_total_insert_eq. }
  assert (HpN : phasePressure_ s' !!! nPhaseIdx typeTag = pressN).
  { subst s'. unfold update. simpl.
    rewrite list_lookup_total_insert_eq by (by rewrite length_insert).
    done. }
  unfold phasePressure, capillaryPressure, saturation, temperature,
    partialPressure.
  unfold Scalar in *.
  rewrite HpW, HpN, Nat.eqb_refl.
  assert (Hneq : Nat.eqb (nPhaseIdx typeTag) (wPhaseIdx typeTag) = false)
    by (apply Nat.eqb_neq; congruence).
  rewrite Hneq. repeat split; reflexivity.
Qed.

(** X13.  The densities after [update], with the two phase indices
    distinct and within the array: the wetting density is what the
    fluid system computes on the state with the old densities, and is
    not overwritten; the non-wetting density is what it computes on the
    state that already holds the new wetting density. *)
Theorem update_densities (typeTag : TypeTag)
    (Sn pressW pressN T : Scalar) (s : TwoPFluidState) :
  wPhaseIdx typeTag <> nPhaseIdx typeTag ->
  (wPhaseIdx typeTag < length (density_ s))%nat ->
  (nPhaseIdx typeTag < length (density_ s))%nat ->
  let s' := update typeTag Sn pressW pressN T s in
  let seenByWetting :=
    {| density_ := density_ s;
       phasePressure_ :=
         <[nPhaseIdx typeTag := pressN]>
           (<[wPhaseIdx typeTag := pressW]> (phasePressure_ s));
       temperature_ := T;
       Sn_ := Sn |} in
  let rhoW := phaseDensity typeTag (wPhaseIdx typeTag) T pressW seenByWetting
  in
  density s' (wPhaseIdx typeTag) = rhoW /\
  density s' (nPhaseIdx typeTag)
    = phaseDensity typeTag (nPhaseIdx typeTag) T pressN
        (set_density_ (wPhaseIdx typeTag) rhoW seenByWetting) /\
  length (density_ s') = length (density_ s).
Proof.
  intros Hne Hw Hn s' seen rhoW. subst s'. unfold update, density. simpl.
  split; [|split].
  - rewrite list_lookup_total_insert_ne by done.
    by rewrite list_lookup_total_insert_eq.
  - by rewrite list_lookup_total_insert_eq by (by rewrite length_insert).
  - by rewrite !length_insert.
Qed.

End TwoPhaseFluidState.

(** * The van Genuchten parameters *)

Section VanGenuchtenParameters.

Import VanGenuchten.

(** The two-argument constructor initialises every field: the
    object does not depend on what the storage held. *)
Lemma construct_initialises_all (alpha n : Scalar)
    (p0 p0' : VanGenuchtenParams) :
  construct alpha n p0 = construct alpha n p0' /\
  vgAlpha (construct alpha n p0) = alpha /\
  vgN (construct alpha n p0) = n /\
  vgM (construct alpha n p0) = (1 - 1 / n)%float.
Proof. repeat split. Qed.

(** X15.  The shape parameters stay coupled: after the two-argument
    constructor, and after any sequence of setter calls with a shape
    setter among them, on any object, [vgM] is [1 - 1/vgN] or [vgN] is
    [1/(1 - vgM)]; the object never holds a pair [(m, n)] that was not
    computed one from the other. *)
Theorem shape_parameters_stay_coupled (cs : list SetterCall)
    (alpha n : Scalar) (p : VanGenuchtenParams) :
  let coupled := fun p' : VanGenuchtenParams =>
    vgM p' = (1 - 1 / vgN p')%float \/ vgN p' = (1 / (1 - vgM p'))%float in
  coupled (calls cs (construct alpha n p)) /\
  (existsb isShapeCall cs = true -> coupled (calls cs p)).
Proof.
  intros coupled.
  assert (Hstep : forall c p', coupled p' \/ isShapeCall c = true ->
            coupled (call c p')).
  { intros [v|m|n'] p' [H|H]; try discriminate; unfold coupled; simpl;
      try exact H; auto. }
  assert (Hrun : forall cs' p',
            coupled p' \/ existsb isShapeCall cs' = true ->
            coupled (calls cs' p')).
  { induction cs' as [|c cs' IH]; intros p' H; simpl in *.
    - destruct H as [H|H]; [exact H | discriminate].
    - apply IH. destruct (isShapeCall c) eqn:Hc; simpl in H.
      + left. apply Hstep. by right.
      + destruct H as [H|H]; [|by right].
        left. apply Hstep. by left. }
  split.
  - apply Hrun. left. unfold coupled. simpl. by left.
  - intros Hshape. apply Hrun. by right.
Qed.

(** X16.  The shape parameters [m] and [n] are set together and the
    last setter decides both: [setVgN] after [setVgM] discards the
    effect of [setVgM], and conversely; [setVgAlpha] commutes with both
    and changes neither. *)
Theorem shape_setters_compose (a m n : Scalar) (p : VanGenuchtenParams) :
  setVgN n (setVgM m p) = setVgN n p /\
  setVgM m (setVgN n p) = setVgM m p /\
  setVgAlpha a (setVgN n p) = setVgN n (setVgAlpha a p) /\
  setVgAlpha a (setVgM m p) = setVgM m (setVgAlpha a p) /\
  vgM (setVgAlpha a p) = vgM p /\ vgN (setVgAlpha a p) = vgN p /\
  vgN (setVgM m p) = (1 / (1 - m))%float /\
  vgM (setVgN n p) = (1 - 1 / n)%float.
Proof. repeat split. Qed.

End VanGenuchtenParameters.


(** * The cube grid manager *)

Section CubeGridManagerFacts.

Import CubeGrid.

Ltac distinct_names :=
  repeat (apply NoDup_cons; split;
          [ let H := fresh "H" in
            intros H;
            repeat (apply elem_of_cons in H as [H|H]; [discriminate H|]);
            by apply elem_of_nil in H
          | ]);
  apply NoDup_nil_2.

(** X17.  What [registerParameters] registers, by type and name, in
    this order: [unsigned GridGlobalRefinements], [Scalar DomainSizeX]
    and [int CellsX] for every grid; then [Scalar DomainSizeY] and
    [int CellsY] when the grid has a second axis; then
    [Scalar DomainSizeZ] and [int CellsZ] when it has a third; nothing
    for a fourth axis or beyond.  The names are pairwise distinct, and
    what the registry held before stays in front. *)
Theorem registerParameters_registered_names (dimWorld : nat)
    (registry : list Registration) :
  let typed := map (fun reg => (regType reg, regName reg)) in
  let always :=
    [(param_unsigned, "GridGlobalRefinements"%string);
     (param_Scalar, "DomainSizeX"%string);
     (param_int, "CellsX"%string)] in
  let second :=
    [(param_Scalar, "DomainSizeY"%string); (param_int, "CellsY"%string)] in
  let third :=
    [(param_Scalar, "DomainSizeZ"%string); (param_int, "CellsZ"%string)] in
  ((dimWorld <= 1)%nat ->
     typed (registerParameters dimWorld []) = always) /\
  (dimWorld = 2%nat ->
     typed (registerParameters dimWorld []) = always ++ second) /\
  ((3 <= dimWorld)%nat ->
     typed (registerParameters dimWorld []) = always ++ second ++ third) /\
  NoDup (map regName (registerParameters dimWorld [])) /\
  registerParameters dimWorld registry
    = registry ++ registerParameters dimWorld [].
Proof.
  unfold registerParameters, EWOMS_REGISTER_PARAM.
  destruct dimWorld as [|[|[|d]]]; simpl;
    rewrite <- ?(assoc_L (++)); simpl;
    (split; [try done; intros; lia|]);
    (split; [try done; intros; lia|]);
    (split; [try done; intros; lia|]);
    (split; [distinct_names | reflexivity]).
Qed.

(** X18.  The constructor reads registered parameters only: two sets
    of parameter values that agree on every parameter that
    [registerParameters] registers, read with its registered type,
    give the same grid description. *)
Theorem constructor_reads_registered_parameters (dimWorld : nat)
    (params params' : ParameterValues) :
  (forall reg, reg ∈ registerParameters dimWorld [] ->
     readAs params reg = readAs params' reg) ->
  CubeGridManager dimWorld params = CubeGridManager dimWorld params'.
Proof.
  intros Hagree.
  assert (Hat : forall i reg,
            registerParameters dimWorld [] !! i = Some reg ->
            readAs params reg = readAs params' reg).
  { intros i reg Hi. apply Hagree. by apply list_elem_of_lookup_2 in Hi. }
  unfold CubeGridManager.
  destruct dimWorld as [|[|[|d]]].
  - pose proof (Hat 0%nat _ eq_refl) as [= H0].
    simpl. by rewrite H0.
  - pose proof (Hat 0%nat _ eq_refl) as [= H0].
    pose proof (Hat 1%nat _ eq_refl) as [= H1].
    pose proof (Hat 2%nat _ eq_refl) as [= H2].
    simpl. by rewrite H0, H1, H2.
  - pose proof (Hat 0%nat _ eq_refl) as [= H0].
    pose proof (Hat 1%nat _ eq_refl) as [= H1].
    pose proof (Hat 2%nat _ eq_refl) as [= H2].
    pose proof (Hat 3%nat _ eq_refl) as [= H3].
    pose proof (Hat 4%nat _ eq_refl) as [= H4].
    simpl. by rewrite H0, H1, H2, H3, H4.
  - pose proof (Hat 0%nat _ eq_refl) as [= H0].
    pose proof (Hat 1%nat _ eq_refl) as [= H1].
    pose proof (Hat 2%nat _ eq_refl) as [= H2].
    pose proof (Hat 3%nat _ eq_refl) as [= H3].
    pose proof (Hat 4%nat _ eq_refl) as [= H4].
    pose proof (Hat 5%nat _ eq_refl) as [= H5].
    pose proof (Hat 6%nat _ eq_refl) as [= H6].
    simpl. by rewrite H0, H1, H2, H3, H4, H5, H6.
Qed.

Lemma to_unsigned_range (z : Z) : (0 <= to_unsigned z < 4294967296)%Z.
Proof. unfold to_unsigned. apply Z.mod_pos_bound. lia. Qed.

(** X19.  The grid description the constructor builds: the three
    vectors have [dimWorld] entries and the lower left corner is the
    origin; the extent and the cell count of the first axis are
    [DomainSizeX] and [CellsX], those of the second axis, when the grid
    has one, [DomainSizeY] and [CellsY], those of the third
    [DomainSizeZ] and [CellsZ]; every cell count is the [int] parameter
    converted to [unsigned int] and lies below [2^32]; an axis beyond
    the third has extent [0.0] and no cells; the refinement count is
    [GridGlobalRefinements]. *)
Theorem constructor_grid_description (dimWorld : nat)
    (params : ParameterValues) :
  let g := CubeGridManager dimWorld params in
  length (lowerLeft g) = dimWorld /\
  length (upperRight g) = dimWorld /\
  length (cellRes g) = dimWorld /\
  lowerLeft g = replicate dimWorld 0%float /\
  Forall (fun c => (0 <= c < 4294967296)%Z) (cellRes g) /\
  numRefinements g = getUnsigned params "GridGlobalRefinements" /\
  ((0 < dimWorld)%nat ->
     upperRight g !! 0%nat = Some (getScalar params "DomainSizeX") /\
     cellRes g !! 0%nat = Some (to_unsigned (getInt params "CellsX"))) /\
  ((1 < dimWorld)%nat ->
     upperRight g !! 1%nat = Some (getScalar params "DomainSizeY") /\
     cellRes g !! 1%nat = Some (to_unsigned (getInt params "CellsY"))) /\
  ((2 < dimWorld)%nat ->
     upperRight g !! 2%nat = Some (getScalar params "DomainSizeZ") /\
     cellRes g !! 2%nat = Some (to_unsigned (getInt params "CellsZ"))) /\
  (forall i, (3 <= i < dimWorld)%nat ->
     upperRight g !! i = Some 0%float /\ cellRes g !! i = Some 0%Z) /\
  upperRight g
    = take dimWorld
        ([getScalar params "DomainSizeX"; getScalar params "DomainSizeY";
          getScalar params "DomainSizeZ"]
           ++ replicate (dimWorld - 3) 0%float) /\
  cellRes g
    = take dimWorld
        ([to_unsigned (getInt params "CellsX");
          to_unsigned (getInt params "CellsY");
          to_unsigned (getInt params "CellsZ")]
           ++ replicate (dimWorld - 3) 0%Z).
Proof.
  unfold CubeGridManager.
  destruct dimWorld as [|[|[|d]]]; simpl.
  - split_and!; try done; try (intros; lia).
  - split_and!; try done; try (intros; lia).
    repeat constructor; apply to_unsigned_range.
  - split_and!; try done; try (intros; lia).
    repeat constructor; apply to_unsigned_range.
  - split; [by rewrite length_replicate|].
    split; [by rewrite length_replicate|].
    split; [by rewrite length_replicate|].
    split; [done|]. split.
    { repeat (constructor; [apply to_unsigned_range|]).
      apply Forall_replicate. lia. }
    do 4 (split; [done|]).
    split.
    { intros i Hi. destruct i as [|[|[|i]]]; try lia. simpl.
      rewrite !lookup_replicate_2 by lia. done. }
    rewrite Nat.sub_0_r, !take_replicate, Nat.min_id. done.
Qed.

End CubeGridManagerFacts.

(** * Evaluations of primary variables *)

Section PrimaryVariables.

Context {Evaluation : Type}.

(** X20.  When the first line of [/home/joakimra/yesno.txt] is
    [true], [makeEvaluation] does what its documentation says for the
    swapped time index: time index 0 gives the constant, any other
    time index gives the variable. *)
Theorem makeEvaluation_with_flag (toolbox : Toolbox Evaluation)
    (files : FileSystem) (content : string)
    (self : list Scalar) (varIdx timeIdx : nat) :
  files "/home/joakimra/yesno.txt"%string = Some content ->
  firstLine content = "true"%string ->
  makeEvaluation toolbox files self varIdx timeIdx
    = makeEvaluation_documented toolbox self varIdx
        (if Nat.eqb timeIdx 0 then 1 else 0)%nat /\
  makeEvaluation toolbox files self varIdx 0
    = createConstant toolbox (self !!! varIdx) /\
  ((0 < timeIdx)%nat ->
   makeEvaluation toolbox files self varIdx timeIdx
     = createVariable toolbox (self !!! varIdx) varIdx).
Proof.
  intros Hfile Hline.
  unfold makeEvaluation, makeEvaluation_documented.
  rewrite Hfile, Hline. split; [reflexivity|]. split; [reflexivity|].
  intros Hpos. destruct timeIdx; [lia | reflexivity].
Qed.

(** X21.  With a toolbox whose variables and constants coincide, as
    for plain scalars that carry no derivatives, the evaluation
    depends neither on the file system nor on the time index. *)
Theorem makeEvaluation_without_derivatives (toolbox : Toolbox Evaluation)
    (files files' : FileSystem) (self : list Scalar)
    (varIdx timeIdx timeIdx' : nat) :
  (forall v i, createVariable toolbox v i = createConstant toolbox v) ->
  makeEvaluation toolbox files self varIdx timeIdx
    = makeEvaluation toolbox files' self varIdx timeIdx'.
Proof.
  intros Hsame.
  assert (Hconst : forall fs t,
            makeEvaluation toolbox fs self varIdx t
              = createConstant toolbox (self !!! varIdx)).
  { intros fs t. unfold makeEvaluation.
    destruct (Nat.eqb _ 0); [apply Hsame | reflexivity]. }
  by rewrite !Hconst.
Qed.

Lemma firstLine_app (line rest : string) :
  (forall c, In c (list_ascii_of_string line) -> c <> "010"%char) ->
  firstLine (line ++ String "010"%char rest) = line /\
  firstLine line = line.
Proof.
  induction line as [|c line IH]; intros Hnl; simpl.
  - done.
  - assert (Hc : Ascii.eqb c "010"%char = false).
    { apply Ascii.eqb_neq. apply Hnl. by left. }
    rewrite Hc.
    destruct IH as [IH1 IH2]; [intros c' Hc'; apply Hnl; by right|].
    by rewrite IH1, IH2.
Qed.

(** X22.  Only the first line of the file counts: a file that
    continues after its first line gives the same evaluation as the
    file that ends there. *)
Theorem makeEvaluation_first_line_only (toolbox : Toolbox Evaluation)
    (files files' : FileSystem) (line rest : string)
    (self : list Scalar) (varIdx timeIdx : nat) :
  (forall c, In c (list_ascii_of_string line) -> c <> "010"%char) ->
  files "/home/joakimra/yesno.txt"%string
    = Some (line ++ String "010"%char rest)%string ->
  files' "/home/joakimra/yesno.txt"%string = Some line ->
  makeEvaluation toolbox files self varIdx timeIdx
    = makeEvaluation toolbox files' self varIdx timeIdx.
Proof.
  intros Hnl Hfile Hfile'. unfold makeEvaluation.
  rewrite Hfile, Hfile'.
  destruct (firstLine_app line rest Hnl) as [-> ->]. reflexivity.
Qed.

End PrimaryVariables.

(** * The further properties at concrete inputs *)

Lemma gradient_stage_without_gravity_witness :
  let elemCtx := Examples.line false 0%float 0%float 10%float 4%float in
  exists r,
    calculateGradients_ elemCtx 0 0 Examples.fresh = Ok r /\
    forall p, (p < 2)%nat -> phaseIsConsidered elemCtx p = true ->
      potentialGrad_ r !! p
        = Some (calculateGradient elemCtx 0 {| pc_phaseIdx := p |}).
Proof.
  intros elemCtx.
  exact (proj1 (gradient_stage_without_gravity elemCtx 0 0
                  (Examples.stateAt 12%float) tt Examples.fresh
                  eq_refl sized_fresh)).
Defined.

Lemma gradient_stage_completes_iff_witness :
  let elemCtx :=
    Examples.line true (-10)%float (-9)%float infinity 4%float in
  ~ (exists r, calculateGradients_ elemCtx 0 0 Examples.fresh = Ok r).
Proof.
  intros elemCtx Hex.
  destruct (proj1 (proj1 (gradient_stage_completes_iff elemCtx 0 0
                            (Examples.stateAt 10%float) tt Examples.fresh
                            sized_fresh)) Hex) as [Hg|Hall].
  - discriminate Hg.
  - specialize (Hall 0%nat (le_S 1 1 (le_n 1)) eq_refl).
    vm_compute in Hall. discriminate Hall.
Defined.

Lemma gradient_stage_exception_names_first_failure_witness :
  let elemCtx :=
    Examples.line true (-10)%float (-9)%float infinity 4%float in
  exists k, (k < 2)%nat /\ phaseIsConsidered elemCtx k = true /\
    Opm_NumericalProblem "Non finite potential gradient for phase 'water'"
    = Opm_NumericalProblem
        ("Non finite potential gradient for phase '"
           ++ phaseName elemCtx k ++ "'")%string.
Proof.
  intros elemCtx.
  destruct (proj1 (gradient_stage_exception_names_first_failure elemCtx 0 0
                     (Examples.stateAt 10%float) tt Examples.fresh
                     (Opm_NumericalProblem
                        "Non finite potential gradient for phase 'water'")
                     sized_fresh))
    as (_ & k & Hk & Hc & _ & _ & He).
  - vm_compute. reflexivity.
  - exists k. split; [exact Hk|]. split; [exact Hc | exact He].
Defined.

Lemma gradient_norm_overflow_throws_witness :
  let elemCtx :=
    Examples.line true (-10)%float (-9)%float 0%float 0x1p+600%float in
  isfinite 0x1p+600%float = true /\
  0x1p+600%float ∈ interiorPotentialGrad elemCtx 0 0 0 /\
  exists k, (k <= 0)%nat /\ phaseIsConsidered elemCtx k = true /\
    calculateGradients_ elemCtx 0 0 Examples.fresh
      = Throw (Opm_NumericalProblem (nonFiniteMessage elemCtx k)).
Proof.
  intros elemCtx.
  assert (Hin : 0x1p+600%float ∈ interiorPotentialGrad elemCtx 0 0 0)
    by exact (list_elem_of_here 0x1p+600%float []).
  split; [reflexivity|]. split; [exact Hin|].
  exact (proj1 (gradient_norm_overflow_throws elemCtx 0 0 0
                  (Examples.stateAt 10%float) tt Examples.fresh
                  0x1p+600%float eq_refl sized_fresh
                  (le_S 1 1 (le_n 1)) eq_refl eq_refl) Hin).
Defined.


Lemma permeability_tensor_source_witness :
  let elemCtx := Examples.line false 0%float 0%float 10%float 4%float in
  exists r,
    calculateBoundaryGradients_ elemCtx 0 0 (Examples.stateAt 12%float) tt
      Examples.fresh = Ok r /\
    K_ r = [[3%float]].
Proof.
  intros elemCtx. eexists. split; [vm_compute; reflexivity|].
  refine (proj2 (permeability_tensor_source elemCtx 0 0
                   (Examples.stateAt 12%float) tt Examples.fresh sized_fresh)
            _ _).
  vm_compute. reflexivity.
Defined.

Lemma gradient_stage_leaves_unconsidered_phases_witness :
  let elemCtx := Examples.line false 0%float 0%float 10%float 4%float in
  exists r,
    calculateGradients_ elemCtx 0 0 Examples.fresh = Ok r /\
    filterVelocity_ r = [[9%float]; [9%float]] /\
    potentialGrad_ r !! 1%nat = Some [4%float] /\
    mobility_ r !! 1%nat = Some 5%float.
Proof.
  intros elemCtx. eexists.
  assert (Hrun : calculateGradients_ elemCtx 0 0 Examples.fresh = Ok _)
    by (vm_compute; reflexivity).
  destruct (gradient_stage_leaves_unconsidered_phases elemCtx 0 0
              (Examples.stateAt 12%float) tt Examples.fresh _
              (or_introl Hrun)) as (Hfv & _ & Hphase).
  destruct (Hphase 1%nat eq_refl) as (Hgrad & _ & _ & Hmob).
  split; [exact Hrun|]. split; [exact Hfv|].
  split; [exact Hgrad | exact Hmob].
Defined.

Lemma flux_stage_idempotent_witness :
  let elemCtx := Examples.line false 0%float 0%float 10%float 4%float in
  exists r,
    calculateFluxes_ elemCtx 0 0 Examples.fresh = Ok r /\
    calculateFluxes_ elemCtx 0 0 r = Ok r.
Proof.
  intros elemCtx. eexists.
  assert (Hrun : calculateFluxes_ elemCtx 0 0 Examples.fresh = Ok _)
    by (vm_compute; reflexivity).
  split; [exact Hrun|].
  exact (proj1 (flux_stage_idempotent elemCtx 0 0 Examples.fresh _
                  sized_fresh) Hrun).
Defined.

Lemma gradient_stage_idempotent_witness :
  let elemCtx :=
    Examples.line true (-10)%float (-9)%float 10%float 4%float in
  exists r,
    calculateGradients_ elemCtx 0 0 Examples.fresh = Ok r /\
    calculateGradients_ elemCtx 0 0 r = Ok r.
Proof.
  intros elemCtx. eexists.
  assert (Hrun : calculateGradients_ elemCtx 0 0 Examples.fresh = Ok _)
    by (vm_compute; reflexivity).
  split; [exact Hrun|].
  exact (proj1 (gradient_stage_idempotent elemCtx 0 0
                  (Examples.stateAt 12%float) tt Examples.fresh _
                  sized_fresh) Hrun).
Defined.

Lemma face_evaluation_idempotent_witness :
  let elemCtx :=
    Examples.line true (-10)%float (-9)%float 10%float 4%float in
  exists r,
    calculateBoundaryGradients_ elemCtx 0 0 (Examples.stateAt 12%float) tt
      Examples.fresh
      ≫= calculateBoundaryFluxes_ elemCtx 0 0 = Ok r /\
    calculateBoundaryGradients_ elemCtx 0 0 (Examples.stateAt 12%float) tt r
      ≫= calculateBoundaryFluxes_ elemCtx 0 0 = Ok r.
Proof.
  intros elemCtx. eexists.
  assert (Hrun :
    calculateBoundaryGradients_ elemCtx 0 0 (Examples.stateAt 12%float) tt
      Examples.fresh
      ≫= calculateBoundaryFluxes_ elemCtx 0 0 = Ok _)
    by (vm_compute; reflexivity).
  split; [exact Hrun|].
  exact (proj2 (face_evaluation_idempotent elemCtx 0 0
                  (Examples.stateAt 12%float) tt Examples.fresh _
                  sized_fresh) Hrun).
Defined.

Lemma interior_zero_gradient_zero_flux_witness :
  let elemCtx := Examples.line false 0%float 0%float 10%float 10%float in
  exists r1 r,
    calculateGradients_ elemCtx 0 0 Examples.fresh = Ok r1 /\
    calculateFluxes_ elemCtx 0 0 r1 = Ok r /\
    (forall p, (p < 2)%nat -> phaseIsConsidered elemCtx p = true ->
       upstreamDofIdx_ r !! p = Some 0) /\
    forall p, (p < 2)%nat -> volumeFlux_ r !! p = Some 0%float.
Proof.
  intros elemCtx.
  refine (interior_zero_gradient_zero_flux elemCtx 0 0 Examples.fresh
            eq_refl sized_fresh _ _ _).
  - repeat constructor.
  - repeat constructor.
  - intros p Hp Hc. destruct p as [|[|p]].
    + split; [|reflexivity]. vm_compute. repeat constructor.
    + discriminate Hc.
    + simpl in Hp. lia.
Defined.

Lemma update_read_back_witness :
  let s' :=
    TwoP.update MoreExamples.twoPhase 0.25%float 100%float 150%float
      300%float MoreExamples.staleState in
  TwoP.phasePressure s' 0 = 100%float /\
  TwoP.phasePressure s' 1 = 150%float /\
  TwoP.capillaryPressure MoreExamples.twoPhase s' = (150 - 100)%float /\
  TwoP.saturation MoreExamples.twoPhase s' 0 = (1 - 0.25)%float /\
  TwoP.saturation MoreExamples.twoPhase s' 1 = 0.25%float /\
  TwoP.temperature s' = 300%float /\
  TwoP.partialPressure MoreExamples.twoPhase s' 0 = 0%float /\
  TwoP.partialPressure MoreExamples.twoPhase s' 1 = 150%float.
Proof.
  refine (update_read_back MoreExamples.twoPhase 0.25%float 100%float
            150%float 300%float MoreExamples.staleState _ _ _).
  - discriminate.
  - simpl. lia.
  - simpl. lia.
Defined.

Lemma update_densities_witness :
  let s' :=
    TwoP.update MoreExamples.twoPhase 0.25%float 100%float 150%float
      300%float MoreExamples.staleState in
  TwoP.density s' 0 = 200%float /\ TwoP.density s' 1 = 450%float.
Proof.
  destruct (update_densities MoreExamples.twoPhase 0.25%float 100%float
              150%float 300%float MoreExamples.staleState)
    as (Hw & Hn & _).
  - discriminate.
  - simpl. lia.
  - simpl. lia.
  - split; [exact Hw | exact Hn].
Defined.

Lemma constructor_reads_registered_parameters_witness :
  CubeGrid.CubeGridManager 1 (MoreExamples.gridParams 2%float 4 9)
  = CubeGrid.CubeGridManager 1 (MoreExamples.gridParams 2%float 4 11).
Proof.
  apply constructor_reads_registered_parameters.
  intros reg Hin.
  repeat (apply elem_of_cons in Hin as [->|Hin]; [reflexivity|]).
  by apply elem_of_nil in Hin.
Defined.

Lemma registerParameters_registered_names_witness :
  map (fun reg => (CubeGrid.regType reg, CubeGrid.regName reg))
      (CubeGrid.registerParameters 2 [])
  = [(CubeGrid.param_unsigned, "GridGlobalRefinements"%string);
     (CubeGrid.param_Scalar, "DomainSizeX"%string);
     (CubeGrid.param_int, "CellsX"%string);
     (CubeGrid.param_Scalar, "DomainSizeY"%string);
     (CubeGrid.param_int, "CellsY"%string)].
Proof.
  exact (proj1 (proj2 (registerParameters_registered_names 2 [])) eq_refl).
Defined.

Lemma constructor_grid_description_witness :
  let g := CubeGrid.CubeGridManager 2 (MoreExamples.gridParams 2%float 4 9) in
  CubeGrid.upperRight g !! 1%nat = Some 5%float /\
  CubeGrid.cellRes g !! 1%nat = Some 9.
Proof.
  refine (proj1 (proj2 (proj2 (proj2 (proj2 (proj2 (proj2 (proj2
            (constructor_grid_description 2
               (MoreExamples.gridParams 2%float 4 9))))))))) _).
  lia.
Defined.

Lemma makeEvaluation_with_flag_witness :
  makeEvaluation (Examples.denseAdToolbox 2)
    (MoreExamples.fileWith ("true" ++ String "010"%char "no"))
    [3%float; 4%float] 1 0
  = {| Examples.value := 4%float;
       Examples.derivatives := [0%float; 0%float] |}.
Proof.
  refine (proj1 (proj2 (makeEvaluation_with_flag (Examples.denseAdToolbox 2)
                          (MoreExamples.fileWith
                             ("true" ++ String "010"%char "no"))
                          ("true" ++ String "010"%char "no")
                          [3%float; 4%float] 1 0 _ _)));
    reflexivity.
Defined.

Lemma makeEvaluation_without_derivatives_witness :
  makeEvaluation MoreExamples.scalarToolbox Examples.yesFile
    [3%float; 4%float] 1 0
  = makeEvaluation MoreExamples.scalarToolbox Examples.noFile
      [3%float; 4%float] 1 1.
Proof.
  apply makeEvaluation_without_derivatives. intros v i. reflexivity.
Defined.

Lemma makeEvaluation_first_line_only_witness :
  makeEvaluation (Examples.denseAdToolbox 2)
    (MoreExamples.fileWith ("true" ++ String "010"%char "no"))
    [3%float; 4%float] 1 0
  = makeEvaluation (Examples.denseAdToolbox 2)
      (MoreExamples.fileWith "true") [3%float; 4%float] 1 0.
Proof.
  apply (makeEvaluation_first_line_only (Examples.denseAdToolbox 2)
           (MoreExamples.fileWith ("true" ++ String "010"%char "no"))
           (MoreExamples.fileWith "true") "true" "no").
  - intros c Hin. simpl in Hin.
    repeat (destruct Hin as [<-|Hin]; [discriminate|]). destruct Hin.
  - reflexivity.
  - reflexivity.
Defined.

(** * Indices stored as [short], and the unset flag *)

Section StoredIndices.

Context {MaterialLawParams ParameterCache : Type}.

Implicit Types elemCtx : ElementContext MaterialLawParams ParameterCache.
Implicit Types q r : DarcyExtensiveQuantities.

Lemma to_short_range (z : Z) : (-32768 <= to_short z < 32768)%Z.
Proof.
  unfold to_short.
  pose proof (Z.mod_pos_bound (z + 32768) 65536 ltac:(lia)). lia.
Qed.

Lemma to_short_small (z : Z) : (-32768 <= z < 32768)%Z -> to_short z = z.
Proof.
  intros Hz. unfold to_short. rewrite Z.mod_small by lia. lia.
Qed.

(** X23.  The indices the gradient stage records are 16-bit values:
    the interior and exterior index of an interior face, and with them
    the upstream and downstream index of every considered phase, lie
    between -32768 and 32767, and they are the indices of the face
    itself whenever those lie in that range. *)
Theorem recorded_indices_are_short elemCtx (faceIdx timeIdx p : nat) q r :
  let scvf := interiorFace (stencil elemCtx timeIdx) faceIdx in
  sized (numPhases elemCtx) q ->
  (p < numPhases elemCtx)%nat ->
  phaseIsConsidered elemCtx p = true ->
  calculateGradients_ elemCtx faceIdx timeIdx q = Ok r ->
  (-32768 <= interiorDofIdx_ r < 32768)%Z /\
  (-32768 <= exteriorDofIdx_ r < 32768)%Z /\
  (exists up down,
     upstreamDofIdx_ r !! p = Some up /\
     downstreamDofIdx_ r !! p = Some down /\
     (-32768 <= up < 32768)%Z /\ (-32768 <= down < 32768)%Z) /\
  ((-32768 <= interiorIndex scvf < 32768)%Z ->
   interiorDofIdx_ r = interiorIndex scvf) /\
  ((-32768 <= exteriorIndex scvf < 32768)%Z ->
   exteriorDofIdx_ r = exteriorIndex scvf).
Proof.
  intros scvf Hq Hp Hc Hrun.
  destruct (calculateGradients_spec elemCtx faceIdx timeIdx q r Hq Hrun)
    as (_ & Hin & Hex & _ & Hphase).
  destruct (Hphase p Hp Hc) as (_ & _ & Hup & Hdown & _).
  fold scvf in Hin, Hex. rewrite Hin, Hex in *.
  pose proof (to_short_range (interiorIndex scvf)) as Hri.
  pose proof (to_short_range (exteriorIndex scvf)) as Hre.
  split; [done|]. split; [done|]. split.
  - eexists _, _. split; [exact Hup|]. split; [exact Hdown|].
    destruct (0 <? _)%float; done.
  - split; apply to_short_small.
Qed.

End StoredIndices.

(** X24.  When [/home/joakimra/yesno.txt] cannot be opened, or its
    first line is anything but [true], [makeEvaluation] is the
    function its documentation describes. *)
Theorem makeEvaluation_flag_unset {Evaluation : Type}
    (toolbox : Toolbox Evaluation) (files : FileSystem)
    (self : list Scalar) (varIdx timeIdx : nat) :
  files "/home/joakimra/yesno.txt"%string = None \/
  (exists content,
     files "/home/joakimra/yesno.txt"%string = Some content /\
     firstLine content <> "true"%string) ->
  makeEvaluation toolbox files self varIdx timeIdx
    = makeEvaluation_documented toolbox self varIdx timeIdx.
Proof.
  intros Hflag. apply makeEvaluation_without_flag.
  destruct Hflag as [-> | (content & -> & Hne)]; [done|].
  by apply String.eqb_neq.
Qed.

Lemma recorded_indices_are_short_witness :
  let elemCtx := Examples.line false 0%float 0%float 10%float 4%float in
  exists r,
    calculateGradients_ elemCtx 0 0 Examples.fresh = Ok r /\
    interiorDofIdx_ r = 0 /\ exteriorDofIdx_ r = 1.
Proof.
  intros elemCtx. eexists.
  assert (Hrun : calculateGradients_ elemCtx 0 0 Examples.fresh = Ok _)
    by (vm_compute; reflexivity).
  destruct (recorded_indices_are_short elemCtx 0 0 0 Examples.fresh _
              sized_fresh (le_S 1 1 (le_n 1)) eq_refl Hrun)
    as (_ & _ & _ & Hin & Hex).
  split; [exact Hrun|]. split.
  - apply Hin. vm_compute. split; [discriminate | reflexivity].
  - apply Hex. vm_compute. split; [discriminate | reflexivity].
Defined.

Lemma makeEvaluation_flag_unset_witness :
  makeEvaluation (Examples.denseAdToolbox 2)
    (MoreExamples.fileWith "TRUE") [3%float; 4%float] 1 0
  = makeEvaluation_documented (Examples.denseAdToolbox 2)
      [3%float; 4%float] 1 0.
Proof.
  apply makeEvaluation_flag_unset. right. exists "TRUE"%string.
  split; [reflexivity | discriminate].
Defined.

Lemma shape_parameters_stay_coupled_witness :
  let p' :=
    VanGenuchten.calls
      [VanGenuchten.CallSetVgM 0.5%float; VanGenuchten.CallSetVgAlpha 3%float]
      MoreExamples.staleParams in
  VanGenuchten.vgM p' = (1 - 1 / VanGenuchten.vgN p')%float \/
  VanGenuchten.vgN p' = (1 / (1 - VanGenuchten.vgM p'))%float.
Proof.
  exact (proj2 (shape_parameters_stay_coupled
                  [VanGenuchten.CallSetVgM 0.5%float;
                   VanGenuchten.CallSetVgAlpha 3%float]
                  0%float 0%float MoreExamples.staleParams) eq_refl).
Defined.
